(** * autodE: molecules, conformers and reactions

    A shallow embedding of [autode/molecule.py] (class [Molecule]) together
    with the parts of its collaborators that its methods observe, and the
    properties of the design document that concern them.

    Conventions of the embedding:
    - Python [float]s (energies, coordinates, thresholds) are idealised as
      rationals [Q]; comparisons and arithmetic are exact.
    - Python [int]s that count things are [nat]; charge and multiplicity
      are [Z].
    - attributes initialised to [None] by [Molecule.__init__] are [option]
      fields; using one that is still [None] raises, as in Python.
    - a raised exception and a call of [exit()] are outcomes of type
      [result]; nothing in [molecule.py] catches them except where written.
    - [networkx] graphs are mutable objects: they live in a store and the
      molecule holds a reference.
    - calls of [logger] only write to the logging handler and are left
      out; of [autode/log.py], which configures that handler, the choice
      of the level, [get_log_level], is modelled.
    - [optimise], [single_point] and [find_lowest_energy_conformer] run
      external calculations: these are an interface, [Engine], and the
      methods are modelled over it.  [get_coords] converts to an array
      and is outside this development. *)

From Stdlib Require Import QArith Qabs Lqa.
From stdpp Require Import base option list strings gmap gmultiset pretty.

Open Scope Z_scope.
Open Scope nat_scope.

(** ** Outcomes of a call *)

Inductive exn : Set :=
  | TypeError
  | IndexError
  | KeyError
  | AttributeError
  | ZeroDivisionError
  | RuntimeError
  | UnbalancedReaction
  | SolventsDontMatch.

Inductive result (A : Type) : Type :=
  | Ok (a : A)
  | Raise (e : exn)
  | Exit.

Arguments Ok {A} a.
Arguments Raise {A} e.
Arguments Exit {A}.

Definition rbind {A B} (r : result A) (k : A -> result B) : result B :=
  match r with
  | Ok a => k a
  | Raise e => Raise e
  | Exit => Exit
  end.

Notation "'let*' x ':=' r 'in' k" := (rbind r (fun x => k))
  (at level 10, x name, r at level 100, k at level 200).

(** [obj.attr] where [attr] may still be [None] and is used as a number,
    a sequence or an object. *)
Definition not_none {A} (e : exn) (o : option A) : result A :=
  match o with
  | Some a => Ok a
  | None => Raise e
  end.

(** [l[i]] for a non-negative index. *)
Definition get_item {A} (l : list A) (i : nat) : result A :=
  not_none IndexError (l !! i).

(** ** Numbers *)

Definition Qltb (x y : Q) : bool := negb (Qle_bool y x).

(** [a / b] on floats. *)
Definition py_truediv (a b : Q) : result Q :=
  if Qeq_bool b 0 then Raise ZeroDivisionError else Ok (a / b)%Q.

(** ** Geometry *)

(** One entry of an [xyzs] list: [[label, x, y, z]]. *)
Record xyz : Type := XYZ {
  label : string;
  coord_x : Q;
  coord_y : Q;
  coord_z : Q
}.

Definition bond : Type := (nat * nat)%type.

(** ** Conformers *)

Record Conformer : Type := mkConformer {
  conf_name : string;
  conf_xyzs : list xyz;
  conf_solvent : option string;
  conf_charge : Z;
  conf_mult : Z;
  conf_energy : option Q
}.

(** [Conformer(name=..., xyzs=..., solvent=..., charge=..., mult=...)];
    the class is defined in [autode/conformers/conformers.py], of which
    only the constructor call is seen here: it stores its arguments and
    has no energy until it is optimised. *)
Definition new_Conformer (name : string) (xyzs : list xyz)
    (solvent : option string) (charge mult : Z) : Conformer :=
  {| conf_name := name; conf_xyzs := xyzs; conf_solvent := solvent;
     conf_charge := charge; conf_mult := mult; conf_energy := None |}.

(** ** Insertion-ordered dictionaries with integer keys

    [networkx] keeps its adjacency in Python dicts, which iterate in
    insertion order; an association list without repeated keys keeps that
    order. *)

Section alist.
Context {V : Type}.

(** [d.get(k)] *)
Fixpoint alookup (k : nat) (d : list (nat * V)) : option V :=
  match d with
  | [] => None
  | (k', v) :: d' => if Nat.eqb k k' then Some v else alookup k d'
  end.

(** [d[k] = v]: in place when [k] is a key, appended otherwise. *)
Fixpoint aset (k : nat) (v : V) (d : list (nat * V)) : list (nat * V) :=
  match d with
  | [] => [(k, v)]
  | (k', v') :: d' =>
      if Nat.eqb k k' then (k, v) :: d' else (k', v') :: aset k v d'
  end.

(** In-place change of the value stored under [k], if any. *)
Fixpoint aalter (f : V -> V) (k : nat) (d : list (nat * V)) : list (nat * V) :=
  match d with
  | [] => []
  | (k', v) :: d' =>
      if Nat.eqb k k' then (k', f v) :: d' else (k', v) :: aalter f k d'
  end.
End alist.

(** ** networkx.Graph

    The part of [networkx.Graph] that [molecule.py] calls: [copy],
    [edges], [edges[u, v][key] = value], [add_edge] and
    [number_of_edges].  A graph is its adjacency dict [_adj]: node ->
    (neighbour -> edge data dict).  The data dict of an undirected edge is
    one object reachable from both ends, so every write to it is made at
    both ends here. *)

Abbreviation attrs := (gmap string bool).
Abbreviation nxGraph := (list (nat * list (nat * attrs))).

(** [G._adj[u].get(v)]: the data dict of the edge [u - v], if present. *)
Definition nx_edge_data (g : nxGraph) (u v : nat) : option attrs :=
  nbrs ← alookup u g; alookup v nbrs.

(** [if n not in self._node: self._adj[n] = {}] *)
Definition nx_add_node (n : nat) (g : nxGraph) : nxGraph :=
  match alookup n g with
  | Some _ => g
  | None => g ++ [(n, [])]
  end.

(** [G.add_edge(u, v, **attr)]:
    add the end points if absent, take the edge's data dict (a new one if
    the edge is new), update it with [attr], store it at both ends. *)
Definition nx_add_edge (u v : nat) (attr : attrs) (g : nxGraph) : nxGraph :=
  let g := nx_add_node v (nx_add_node u g) in
  let datadict := attr ∪ default ∅ (nx_edge_data g u v) in
  aalter (aset u datadict) v (aalter (aset v datadict) u g).

(** [G.edges()]: every edge once, from the first of its end points in node
    order:
    [for n, nbrs in adj.items(): for nbr in nbrs: if nbr not in seen: yield
    (n, nbr)], then [seen[n] = 1]. *)
Fixpoint nx_edges_from (seen : list nat) (g : nxGraph) : list bond :=
  match g with
  | [] => []
  | (n, nbrs) :: g' =>
      (pair n <$> filter (fun nbr => nbr ∉ seen) nbrs.*1)
        ++ nx_edges_from (n :: seen) g'
  end.

Definition nx_edges (g : nxGraph) : list bond := nx_edges_from [] g.

(** [G.degree(n)]: a self loop counts twice. *)
Definition nx_degree (entry : nat * list (nat * attrs)) : nat :=
  length entry.2 + (if alookup entry.1 entry.2 is Some _ then 1 else 0).

(** [G.number_of_edges()] is [G.size()]: half the sum of the degrees. *)
Definition nx_number_of_edges (g : nxGraph) : nat :=
  foldr Nat.add 0 (map nx_degree g) / 2.

(** [G.edges[u, v][key] = value]: [KeyError] when [u - v] is no edge. *)
Definition nx_set_edge_attr (u v : nat) (key : string) (value : bool)
    (g : nxGraph) : result nxGraph :=
  match nx_edge_data g u v with
  | None => Raise KeyError
  | Some _ =>
      Ok (aalter (aalter (insert key value) u) v
            (aalter (aalter (insert key value) v) u g))
  end.

(** The invariants [networkx] maintains on [_adj]: no key twice, and the
    two ends of an edge hold the same data dict. *)
Record nx_wf (g : nxGraph) : Prop := {
  nx_wf_nodes : NoDup g.*1;
  nx_wf_sym : forall u v d, nx_edge_data g u v = Some d -> nx_edge_data g v u = Some d
}.

(** ** The store of graph objects *)

Abbreviation loc := nat (only parsing).
Abbreviation store := (gmap nat nxGraph).

Definition M (A : Type) : Type := store -> result (A * store).

Definition mret {A} (a : A) : M A := fun h => Ok (a, h).

Definition mfail {A} (r : result A) : M A :=
  fun h => let* a := r in Ok (a, h).

Definition mbind {A B} (m : M A) (k : A -> M B) : M B :=
  fun h => let* ah := m h in k ah.1 ah.2.

Notation "'let!' x ':=' m 'in' k" := (mbind m (fun x => k))
  (at level 10, x name, m at level 100, k at level 200).

(** A new graph object. *)
Definition alloc (g : nxGraph) : M loc :=
  fun h => let l := fresh (dom h) in Ok (l, <[l := g]> h).

(** Reading through a reference; every reference the program holds was
    returned by [alloc], a dangling one has no Python counterpart. *)
Definition deref (l : loc) : M nxGraph :=
  fun h => let* g := not_none RuntimeError (h !! l) in Ok (g, h).

Definition assign (l : loc) (g : nxGraph) : M unit :=
  fun h => Ok (tt, <[l := g]> h).

(** [G.copy()]: a new graph with the same nodes and edges and a copy of
    every data dict. *)
Definition Graph_copy (l : loc) : M loc :=
  let! g := deref l in alloc g.

Definition Graph_edges (l : loc) : M (list bond) :=
  let! g := deref l in mret (nx_edges g).

Definition Graph_number_of_edges (l : loc) : M nat :=
  let! g := deref l in mret (nx_number_of_edges g).

Definition Graph_add_edge (l : loc) (u v : nat) (attr : attrs) : M unit :=
  let! g := deref l in assign l (nx_add_edge u v attr g).

Definition Graph_set_edge_attr (l : loc) (u v : nat) (key : string)
    (value : bool) : M unit :=
  let! g := deref l in
  let! g' := mfail (nx_set_edge_attr u v key value g) in
  assign l g'.

(** ** rdkit

    The calls [molecule.py] makes into [rdkit], as an interface.  The
    embedding is random in [rdkit]; here it is a function of the molecule
    (a fixed seed).  [EmbedMultipleConfs] changes the mol object in place:
    its result is that object after the call. *)

Class RDKit : Type := {
  RDMol : Type;
  RDBond : Type;
  MolFromSmiles : string -> result RDMol;
  AddHs : RDMol -> result RDMol;
  GetNumAtoms : RDMol -> nat;
  GetBonds : RDMol -> list RDBond;
  GetFormalCharge : RDMol -> Z;
  NumRadicalElectrons : RDMol -> Z;
  EmbedMultipleConfs : RDMol -> nat -> RDMol
}.

(** ** Molecule *)

Section molecule.
Context `{rdkit : RDKit}.

(** The attributes set by [Molecule.__init__]. *)
Record Molecule : Type := mkMolecule {
  name : string;
  smiles : option string;
  solvent : option string;
  charge : Z;
  mult : Z;
  xyzs : option (list xyz);
  mol_obj : option RDMol;
  energy : option Q;
  n_atoms : option nat;
  n_bonds : option nat;
  conformers : option (list Conformer);
  n_conformers : option nat;
  rdkit_conf_gen_is_fine : bool;
  graph : option loc;
  distance_matrix : option (list (list Q))
}.

(** [self.charge = v] *)
Definition with_charge (self : Molecule) (v : Z) : Molecule :=
  {| name := name self; smiles := smiles self; solvent := solvent self;
     charge := v; mult := mult self; xyzs := xyzs self;
     mol_obj := mol_obj self; energy := energy self;
     n_atoms := n_atoms self; n_bonds := n_bonds self;
     conformers := conformers self; n_conformers := n_conformers self;
     rdkit_conf_gen_is_fine := rdkit_conf_gen_is_fine self;
     graph := graph self; distance_matrix := distance_matrix self |}.

(** [self.mult = v] *)
Definition with_mult (self : Molecule) (v : Z) : Molecule :=
  {| name := name self; smiles := smiles self; solvent := solvent self;
     charge := charge self; mult := v; xyzs := xyzs self;
     mol_obj := mol_obj self; energy := energy self;
     n_atoms := n_atoms self; n_bonds := n_bonds self;
     conformers := conformers self; n_conformers := n_conformers self;
     rdkit_conf_gen_is_fine := rdkit_conf_gen_is_fine self;
     graph := graph self; distance_matrix := distance_matrix self |}.

(** [self.xyzs = v] *)
Definition with_xyzs (self : Molecule) (v : option (list xyz)) : Molecule :=
  {| name := name self; smiles := smiles self; solvent := solvent self;
     charge := charge self; mult := mult self; xyzs := v;
     mol_obj := mol_obj self; energy := energy self;
     n_atoms := n_atoms self; n_bonds := n_bonds self;
     conformers := conformers self; n_conformers := n_conformers self;
     rdkit_conf_gen_is_fine := rdkit_conf_gen_is_fine self;
     graph := graph self; distance_matrix := distance_matrix self |}.

(** [self.mol_obj = v] *)
Definition with_mol_obj (self : Molecule) (v : option RDMol) : Molecule :=
  {| name := name self; smiles := smiles self; solvent := solvent self;
     charge := charge self; mult := mult self; xyzs := xyzs self;
     mol_obj := v; energy := energy self; n_atoms := n_atoms self;
     n_bonds := n_bonds self; conformers := conformers self;
     n_conformers := n_conformers self;
     rdkit_conf_gen_is_fine := rdkit_conf_gen_is_fine self;
     graph := graph self; distance_matrix := distance_matrix self |}.

(** [self.n_atoms = v] *)
Definition with_n_atoms (self : Molecule) (v : option nat) : Molecule :=
  {| name := name self; smiles := smiles self; solvent := solvent self;
     charge := charge self; mult := mult self; xyzs := xyzs self;
     mol_obj := mol_obj self; energy := energy self; n_atoms := v;
     n_bonds := n_bonds self; conformers := conformers self;
     n_conformers := n_conformers self;
     rdkit_conf_gen_is_fine := rdkit_conf_gen_is_fine self;
     graph := graph self; distance_matrix := distance_matrix self |}.

(** [self.n_bonds = v] *)
Definition with_n_bonds (self : Molecule) (v : option nat) : Molecule :=
  {| name := name self; smiles := smiles self; solvent := solvent self;
     charge := charge self; mult := mult self; xyzs := xyzs self;
     mol_obj := mol_obj self; energy := energy self;
     n_atoms := n_atoms self; n_bonds := v; conformers := conformers self;
     n_conformers := n_conformers self;
     rdkit_conf_gen_is_fine := rdkit_conf_gen_is_fine self;
     graph := graph self; distance_matrix := distance_matrix self |}.

(** [self.conformers = v] *)
Definition with_conformers (self : Molecule) (v : option (list Conformer)) : Molecule :=
  {| name := name self; smiles := smiles self; solvent := solvent self;
     charge := charge self; mult := mult self; xyzs := xyzs self;
     mol_obj := mol_obj self; energy := energy self;
     n_atoms := n_atoms self; n_bonds := n_bonds self; conformers := v;
     n_conformers := n_conformers self;
     rdkit_conf_gen_is_fine := rdkit_conf_gen_is_fine self;
     graph := graph self; distance_matrix := distance_matrix self |}.

(** [self.n_conformers = v] *)
Definition with_n_conformers (self : Molecule) (v : option nat) : Molecule :=
  {| name := name self; smiles := smiles self; solvent := solvent self;
     charge := charge self; mult := mult self; xyzs := xyzs self;
     mol_obj := mol_obj self; energy := energy self;
     n_atoms := n_atoms self; n_bonds := n_bonds self;
     conformers := conformers self; n_conformers := v;
     rdkit_conf_gen_is_fine := rdkit_conf_gen_is_fine self;
     graph := graph self; distance_matrix := distance_matrix self |}.

(** [self.rdkit_conf_gen_is_fine = v] *)
Definition with_rdkit_conf_gen_is_fine (self : Molecule) (v : bool) : Molecule :=
  {| name := name self; smiles := smiles self; solvent := solvent self;
     charge := charge self; mult := mult self; xyzs := xyzs self;
     mol_obj := mol_obj self; energy := energy self;
     n_atoms := n_atoms self; n_bonds := n_bonds self;
     conformers := conformers self; n_conformers := n_conformers self;
     rdkit_conf_gen_is_fine := v; graph := graph self;
     distance_matrix := distance_matrix self |}.

(** [self.graph = v] *)
Definition with_graph (self : Molecule) (v : option loc) : Molecule :=
  {| name := name self; smiles := smiles self; solvent := solvent self;
     charge := charge self; mult := mult self; xyzs := xyzs self;
     mol_obj := mol_obj self; energy := energy self;
     n_atoms := n_atoms self; n_bonds := n_bonds self;
     conformers := conformers self; n_conformers := n_conformers self;
     rdkit_conf_gen_is_fine := rdkit_conf_gen_is_fine self; graph := v;
     distance_matrix := distance_matrix self |}.

(** [self.distance_matrix = v] *)
Definition with_distance_matrix (self : Molecule) (v : option (list (list Q))) : Molecule :=
  {| name := name self; smiles := smiles self; solvent := solvent self;
     charge := charge self; mult := mult self; xyzs := xyzs self;
     mol_obj := mol_obj self; energy := energy self;
     n_atoms := n_atoms self; n_bonds := n_bonds self;
     conformers := conformers self; n_conformers := n_conformers self;
     rdkit_conf_gen_is_fine := rdkit_conf_gen_is_fine self;
     graph := graph self; distance_matrix := v |}.

(** ** The rest of autodE

    Functions and constants of other modules of the package that
    [molecule.py] imports ([autode.constants], [autode.geom],
    [autode.mol_graphs], [autode.bond_lengths], [autode.conformers]),
    as an interface.  They are taken as total functions of their
    arguments. *)

Class Autode : Type := {
  ha2kJmol : Q;
  calc_distance_matrix : list xyz -> list (list Q);
  make_graph : list xyz -> option nat -> nxGraph;
  get_xyz_bond_list : list xyz -> list bond;
  get_bond_list_from_rdkit_bonds : list RDBond -> list bond;
  generate_unique_rdkit_confs : option RDMol -> nat -> list nat;
  gen_rdkit_conf_xyzs : Molecule -> list nat -> list (list xyz);
  rdkit_conformer_geometries_are_resonable : list (list xyz) -> bool;
  gen_simanl_conf_xyzs :
    string -> option (list xyz) -> list bond -> Z -> option nat ->
    list (list xyz)
}.

Context `{autode : Autode}.

(** [for x in xs: body] over the store. *)
Fixpoint mfor {A} (xs : list A) (body : A -> M unit) : M unit :=
  match xs with
  | [] => mret tt
  | x :: xs' => let! _ := body x in mfor xs' body
  end.

(** A loop that carries one local variable. *)
Fixpoint mfoldl {A B} (body : B -> A -> M B) (b : B) (xs : list A) : M B :=
  match xs with
  | [] => mret b
  | x :: xs' => let! b' := body b x in mfoldl body b' xs'
  end.

(** [self.graph.<method>]: [AttributeError] on [None]. *)
Definition self_graph (self : Molecule) : M loc :=
  mfail (not_none AttributeError (graph self)).

(** The warning for more than one radical electron is only logged. *)
Definition _calc_multiplicity (self : Molecule) (n_radical_electrons : Z) : Z :=
  if Z.eqb n_radical_electrons 1 then 2%Z else mult self.

(** A failed [assert] is caught and answered with [exit()]. *)
Definition _check_rdkit_graph_agreement (self : Molecule) : M unit :=
  let! g := self_graph self in
  let! n := Graph_number_of_edges g in
  if bool_decide (n_bonds self = Some n) then mret tt else mfail Exit.

(** [self.distance_matrix[bond[0], bond[1]]] *)
Definition calc_bond_distance (self : Molecule) (b : bond) : result Q :=
  let* dm := not_none TypeError (distance_matrix self) in
  let* row := get_item dm b.1 in
  get_item row b.2.

Definition get_possible_forming_bonds (self : Molecule) : M (list bond) :=
  let! g := self_graph self in
  let! curr_bonds := Graph_edges g in
  let! n := mfail (not_none TypeError (n_atoms self)) in
  mret (filter (fun p : bond => p.1 < p.2 ∧ (p ∉ curr_bonds) ∧ ((p.2, p.1) ∉ curr_bonds))
          (list_prod (seq 0 n) (seq 0 n))).

Definition get_possible_breaking_bonds (self : Molecule) : M (list bond) :=
  let! g := self_graph self in
  Graph_edges g.

(** [self.xyzs[atom_i][0]] *)
Definition get_atom_label (self : Molecule) (atom_i : nat) : result string :=
  let* xs := not_none TypeError (xyzs self) in
  let* a := get_item xs atom_i in
  Ok (label a).

Definition get_bonded_atoms_to_i (self : Molecule) (atom_i : nat) : M (list nat) :=
  let! g := self_graph self in
  let! es := Graph_edges g in
  mret (flat_map (fun edge : bond =>
          (if Nat.eqb edge.1 atom_i then [edge.2] else [])
            ++ (if Nat.eqb edge.2 atom_i then [edge.1] else [])) es).

(** The body of [for bond in active_bonds].  The inner loop runs over
    [active_graph.edges()]; it only writes edge attributes, which does
    not change what [edges()] yields, so the edges are read once. *)
Definition mark_active (active_graph : loc) (b : bond) : M unit :=
  let! es := Graph_edges active_graph in
  let! has_edge :=
    mfoldl (fun (has_edge : bool) (edge : bond) =>
              if bool_decide (edge = b ∨ edge = (b.2, b.1)) then
                let! _ := Graph_set_edge_attr active_graph edge.1 edge.2 "active" true in
                mret true
              else mret has_edge) false es in
  if has_edge then mret tt
  else Graph_add_edge active_graph b.1 b.2 {["active" := true]}.

Definition get_active_mol_graph (self : Molecule) (active_bonds : list bond) : M loc :=
  let! g := self_graph self in
  let! active_graph := Graph_copy g in
  let! _ := mfor active_bonds (mark_active active_graph) in
  mret active_graph.

Definition generate_conformers (self : Molecule) (n_rdkit_confs : nat) : result Molecule :=
  let self := with_conformers self (Some []) in
  let* conf_xyzs :=
    if rdkit_conf_gen_is_fine self then
      let unique_conf_ids := generate_unique_rdkit_confs (mol_obj self) n_rdkit_confs in
      Ok (gen_rdkit_conf_xyzs self unique_conf_ids)
    else
      let* mol := not_none AttributeError (mol_obj self) in
      let bond_list := get_bond_list_from_rdkit_bonds (GetBonds mol) in
      Ok (gen_simanl_conf_xyzs (name self) (xyzs self) bond_list (charge self) None)
  in
  let confs :=
    imap (fun i xyzs_i =>
            new_Conformer (name self +:+ "_conf" +:+ pretty i) xyzs_i
              (solvent self) (charge self) (mult self)) conf_xyzs in
  let self := with_conformers self (Some confs) in
  Ok (with_n_conformers self (Some (length confs))).

(** [self.conformers[i].energy] used in arithmetic. *)
Definition energy_of (confs : list Conformer) (i : nat) : result Q :=
  let* c := get_item confs i in
  not_none TypeError (conf_energy c).

(** [for j in range(len(unique_conformers))] with its [break]: the
    result is the final value of [unique].  The conformer compared with
    is [self.conformers[j]]. *)
Fixpoint is_unique (confs : list Conformer) (d_e : Q) (i : nat) (js : list nat) : result bool :=
  match js with
  | [] => Ok true
  | j :: js' =>
      let* e_i := energy_of confs i in
      let* e_j := energy_of confs j in
      if Qltb (e_i - d_e) e_j && Qltb e_j (e_i + d_e) then Ok false
      else is_unique confs d_e i js'
  end.

(** [for i in range(1, self.n_conformers)], carrying
    [unique_conformers]. *)
Fixpoint strip_loop (confs : list Conformer) (d_e : Q) (unique_conformers : list Conformer)
    (idxs : list nat) : result (list Conformer) :=
  match idxs with
  | [] => Ok unique_conformers
  | i :: idxs' =>
      let* unique := is_unique confs d_e i (seq 0 (length unique_conformers)) in
      if unique : bool then
        let* c := get_item confs i in
        strip_loop confs d_e (unique_conformers ++ [c]) idxs'
      else strip_loop confs d_e unique_conformers idxs'
  end.

Definition strip_non_unique_confs (self : Molecule) (energy_threshold_kj : Q) : result Molecule :=
  let* d_e := py_truediv energy_threshold_kj ha2kJmol in
  let* confs := not_none TypeError (conformers self) in
  let* first := get_item confs 0 in
  let* n := not_none TypeError (n_conformers self) in
  let* unique_conformers := strip_loop confs d_e [first] (seq 1 (n - 1)) in
  let self := with_conformers self (Some unique_conformers) in
  Ok (with_n_conformers self (Some (length unique_conformers))).

Definition set_xyzs (self : Molecule) (xyzs : list xyz) : M Molecule :=
  let self := with_xyzs self (Some xyzs) in
  let self := with_distance_matrix self (Some (calc_distance_matrix xyzs)) in
  let! g := alloc (make_graph xyzs (n_atoms self)) in
  let self := with_graph self (Some g) in
  let! n := Graph_number_of_edges g in
  mret (with_n_bonds self (Some n)).

(** [try: ... except RuntimeError: exit()] around the two rdkit
    calls. *)
Definition smiles_to_mol (smiles : string) : result RDMol :=
  match (let* m := MolFromSmiles smiles in AddHs m) with
  | Ok m => Ok m
  | Raise RuntimeError => Exit
  | Raise e => Raise e
  | Exit => Exit
  end.

(** Lines 177-183 of [_init_smiles]: the attributes read off the mol
    object, then the embedding of one conformer in it. *)
Definition read_mol_obj (self : Molecule) (mol : RDMol) : Molecule :=
  let self := with_mol_obj self (Some mol) in
  let self := with_n_atoms self (Some (GetNumAtoms mol)) in
  let self := with_n_bonds self (Some (length (GetBonds mol))) in
  let self := with_charge self (GetFormalCharge mol) in
  let n_radical_electrons := NumRadicalElectrons mol in
  let self := with_mult self (_calc_multiplicity self n_radical_electrons) in
  with_mol_obj self (Some (EmbedMultipleConfs mol 1)).

Definition _init_smiles (self : Molecule) (name_arg smiles_arg : string) : M Molecule :=
  let! mol := mfail (smiles_to_mol smiles_arg) in
  let self := read_mol_obj self mol in
  let! xyzs0 := mfail (get_item (gen_rdkit_conf_xyzs self [0]) 0) in
  let self := with_xyzs self (Some xyzs0) in
  let! self :=
    if negb (rdkit_conformer_geometries_are_resonable [xyzs0]) then
      let self := with_rdkit_conf_gen_is_fine self false in
      let! mol' := mfail (not_none AttributeError (mol_obj self)) in
      let bond_list := get_bond_list_from_rdkit_bonds (GetBonds mol') in
      let! xyzs1 :=
        mfail (get_item (gen_simanl_conf_xyzs (name self) (xyzs self) bond_list
                           (charge self) (Some 1)) 0) in
      let self := with_xyzs self (Some xyzs1) in
      let! g := alloc (make_graph xyzs1 (n_atoms self)) in
      let self := with_graph self (Some g) in
      let! n := Graph_number_of_edges g in
      mret (with_n_bonds self (Some n))
    else
      let! g := alloc (make_graph xyzs0 (n_atoms self)) in
      let self := with_graph self (Some g) in
      let! _ := _check_rdkit_graph_agreement self in
      mret self
  in
  let! xyzs2 := mfail (not_none TypeError (xyzs self)) in
  mret (with_distance_matrix self (Some (calc_distance_matrix xyzs2))).

(** The graph is built from [self.xyzs], which [__init__] has set to the
    same list. *)
Definition _init_xyzs (self : Molecule) (xyzs_arg : list xyz) : M Molecule :=
  let self := with_n_atoms self (Some (length xyzs_arg)) in
  let self := with_n_bonds self (Some (length (get_xyz_bond_list xyzs_arg))) in
  let! xyzs0 := mfail (not_none TypeError (xyzs self)) in
  let! g := alloc (make_graph xyzs0 (n_atoms self)) in
  let self := with_graph self (Some g) in
  mret (with_distance_matrix self (Some (calc_distance_matrix xyzs_arg))).

(** [Molecule(name, smiles, xyzs, solvent, charge, mult)]; an empty
    string and an empty list are false in [if smiles:] and
    [if xyzs:]. *)
Definition __init__ (name_arg : string) (smiles_arg : option string)
    (xyzs_arg : option (list xyz)) (solvent_arg : option string)
    (charge_arg mult_arg : Z) : M Molecule :=
  let self :=
    {| name := name_arg; smiles := smiles_arg; solvent := solvent_arg;
       charge := charge_arg; mult := mult_arg; xyzs := xyzs_arg;
       mol_obj := None; energy := None; n_atoms := None; n_bonds := None;
       conformers := None; n_conformers := None;
       rdkit_conf_gen_is_fine := true; graph := None;
       distance_matrix := None |} in
  let! self :=
    match smiles_arg with
    | Some (String a s) => _init_smiles self name_arg (String a s)
    | _ => mret self
    end in
  match xyzs_arg with
  | Some (x :: xs) => _init_xyzs self (x :: xs)
  | _ => mret self
  end.

End molecule.


(** ** Reaction

    [autode/reaction.py] is not among the sources at hand; its test
    [tests/test_reaction_class.py] is.  The class is modelled from the
    design document, and the model is checked against the assertions of
    the test further down. *)

(** Modelled from the spec: the constant [KcalMol.conversion] of
    [autode/units.py], the Hartree to kcal/mol factor, which is missing. *)
Class Units : Type := {
  KcalMol_conversion : Q
}.

(** Modelled from the spec: the order of the two validations in the
    constructor of [Reaction] ([reaction.py] is missing).  The design
    names them without an order between them; [check_order] is that
    freedom. *)
Inductive check_order : Set :=
  | BalanceFirst
  | SolventFirst.

Section reaction.
Context `{rdkit : RDKit} `{units : Units}.

(** Modelled from the spec: the attributes of [Reaction] in
    [autode/reaction.py], which is missing: the ordered reactants and
    products and the name. *)
Record Reaction : Type := mkReaction {
  reaction_name : string;
  reacs : list Molecule;
  prods : list Molecule
}.

(** Modelled from the spec: the atom multiset of one side of a reaction
    ([reaction.py] is missing), the element labels of all its
    molecules. *)
Definition atom_labels (ms : list Molecule) : gmultiset string :=
  list_to_set_disj (ms ≫= fun m => label <$> default [] (xyzs m)).

(** Modelled from the spec: the total charge of one side of a reaction
    ([reaction.py] is missing). *)
Definition total_charge (ms : list Molecule) : Z :=
  foldr Z.add 0%Z (charge <$> ms).

(** Modelled from the spec: the balance invariant of [Reaction] (missing
    [reaction.py]): total charge and atom multiset agree across the two
    sides. *)
Definition balanced (reactants products : list Molecule) : Prop :=
  total_charge reactants = total_charge products
  ∧ atom_labels reactants = atom_labels products.

(** Modelled from the spec: the solvent invariant of [Reaction] (missing
    [reaction.py]): the solvents of all molecules agree. *)
Definition solvents_match (ms : list Molecule) : Prop :=
  Forall (fun m1 => Forall (fun m2 => solvent m1 = solvent m2) ms) ms.

#[global] Instance balanced_dec (reactants products : list Molecule) :
  Decision (balanced reactants products).
Proof. unfold balanced. apply _. Defined.

#[global] Instance solvents_match_dec (ms : list Molecule) :
  Decision (solvents_match ms).
Proof. unfold solvents_match. apply _. Defined.

(** Modelled from the spec: the two validations ([reaction.py] is
    missing), each failing with its own error. *)
Definition check_balance (reactants products : list Molecule) : result unit :=
  if decide (balanced reactants products) then Ok tt
  else Raise UnbalancedReaction.

Definition check_solvent (ms : list Molecule) : result unit :=
  if decide (solvents_match ms) then Ok tt else Raise SolventsDontMatch.

(** Modelled from the spec: the validation of a new reaction
    ([reaction.py] is missing), in one order or the other. *)
Definition validate (order : check_order) (reactants products : list Molecule) : result unit :=
  match order with
  | BalanceFirst =>
      let* _ := check_balance reactants products in
      check_solvent (reactants ++ products)
  | SolventFirst =>
      let* _ := check_solvent (reactants ++ products) in
      check_balance reactants products
  end.

(** Modelled from the spec: the total bond count of the graphs of one
    side ([reaction.py] is missing). *)
Fixpoint total_bonds (h : store) (ms : list Molecule) : result nat :=
  match ms with
  | [] => Ok 0
  | m :: ms' =>
      let* l := not_none AttributeError (graph m) in
      let* g := not_none RuntimeError (h !! l) in
      let* n := total_bonds h ms' in
      Ok (nx_number_of_edges g + n)
  end.

(** Modelled from the spec: the constructor of [Reaction] (missing
    [reaction.py]): validate, then compare the bond counts of the two
    sides and swap the roles when the products have strictly more
    bonds. *)
Definition Reaction_init (order : check_order) (name_arg : string)
    (reactants products : list Molecule) (h : store) : result Reaction :=
  let* _ := validate order reactants products in
  let* n_reac := total_bonds h reactants in
  let* n_prod := total_bonds h products in
  if n_reac <? n_prod then
    Ok {| reaction_name := name_arg; reacs := products; prods := reactants |}
  else
    Ok {| reaction_name := name_arg; reacs := reactants; prods := products |}.

(** Modelled from the spec: the sum of the energies of one side, in
    Hartree ([reaction.py] is missing); an energy that is not set cannot
    be added. *)
Fixpoint sum_energies (ms : list Molecule) : result Q :=
  match ms with
  | [] => Ok 0%Q
  | m :: ms' =>
      let* e := not_none TypeError (energy m) in
      let* s := sum_energies ms' in
      Ok (e + s)%Q
  end.

(** Modelled from the spec: [Reaction.calc_delta_e] (missing
    [reaction.py]): the difference of the sums is taken in Hartree and
    exposed through the unit conversion constant, which is what
    [test_reaction_class] asserts of the value returned
    ([calc_delta_e() == KcalMol.conversion * 4]) and what
    [test_calc_delta_e] divides out of [calc_delta_e_ddagger()]. *)
Definition calc_delta_e (r : Reaction) : result Q :=
  let* e_prods := sum_energies (prods r) in
  let* e_reacs := sum_energies (reacs r) in
  Ok (KcalMol_conversion * (e_prods - e_reacs))%Q.

(** The sum of the energies that are assigned, in Hartree. *)
Definition total_energy (ms : list Molecule) : Q :=
  foldr Qplus 0%Q (omap energy ms).

(** The reading of the design in which the value returned is the plain
    Hartree difference, for comparison. *)
Definition delta_e_hartree (r : Reaction) : result Q :=
  let* e_prods := sum_energies (prods r) in
  let* e_reacs := sum_energies (reacs r) in
  Ok (e_prods - e_reacs)%Q.

End reaction.


(** ** The deduplication as the design words it

    Retain the first conformer, then retain a conformer when its energy
    differs from the energy of every conformer retained so far by at
    least the threshold.  This follows the design document and is what
    [strip_non_unique_confs] is compared with. *)

Definition differs_by_at_least (d_e : Q) (c r : Conformer) : bool :=
  match conf_energy c, conf_energy r with
  | Some e, Some e' => Qle_bool d_e (Qabs (e - e'))
  | _, _ => false
  end.

Fixpoint greedy_retain (d_e : Q) (retained rest : list Conformer) : list Conformer :=
  match rest with
  | [] => retained
  | c :: rest' =>
      if forallb (differs_by_at_least d_e c) retained
      then greedy_retain d_e (retained ++ [c]) rest'
      else greedy_retain d_e retained rest'
  end.

Definition greedy_unique (d_e : Q) (confs : list Conformer) : list Conformer :=
  match confs with
  | [] => []
  | c :: rest => greedy_retain d_e [c] rest
  end.

(** ** Test doubles

    A small stand-in for [rdkit] and for the rest of the package, on which
    the definitions above can be run: hydrogen and lithium species whose
    embedding is fixed, and a graph builder that bonds two atoms closer
    than 1.2 Angstrom. *)

Module Double.

Record mol : Type := mkMol {
  atoms : list string;
  bonds : list bond;
  radicals : Z;
  etkdg : list xyz;
  embedded : list (list xyz)
}.

Definition H_at (x : Q) : xyz := XYZ "H" x 0 0.
Definition Li_at (x : Q) : xyz := XYZ "Li" x 0 0.

Definition from_smiles (s : string) : result mol :=
  if bool_decide (s = "[H]") then
    Ok (mkMol ["H"] [] 1 [H_at 0] [])
  else if bool_decide (s = "[H][H]") then
    Ok (mkMol ["H"; "H"] [(0, 1)] 0 [H_at 0; H_at 0.7] [])
  else if bool_decide (s = "[Li][Li]") then
    Ok (mkMol ["Li"; "Li"] [(0, 1)] 0 [Li_at 0; Li_at 2.67] [])
  else Raise RuntimeError.

(** A second geometry of the same atoms, a tenth longer along x. *)
Definition stretched (a : xyz) : xyz :=
  XYZ (label a) (Qred (coord_x a * 1.1)) (coord_y a) (coord_z a).

Definition embed (m : mol) (n : nat) : mol :=
  mkMol (atoms m) (bonds m) (radicals m) (etkdg m) (replicate n (etkdg m)).

#[export] Instance rdkit : RDKit := {|
  RDMol := mol;
  RDBond := bond;
  MolFromSmiles := from_smiles;
  AddHs := Ok;
  GetNumAtoms m := length (atoms m);
  GetBonds := bonds;
  GetFormalCharge _ := 0%Z;
  NumRadicalElectrons := radicals;
  EmbedMultipleConfs := embed
|}.

Definition dist2 (a b : xyz) : Q :=
  Qred ((coord_x a - coord_x b) ^ 2 + (coord_y a - coord_y b) ^ 2
        + (coord_z a - coord_z b) ^ 2).

(** A few Newton steps towards the square root, as a rational. *)
Definition approx_sqrt (x : Q) : Q :=
  if Qle_bool x 0 then 0%Q
  else Nat.iter 5 (fun y => Qred ((y + x / y) / 2)) (Qred ((1 + x) / 2)).

Definition distance_matrix_of (xs : list xyz) : list (list Q) :=
  map (fun a => map (fun b => approx_sqrt (dist2 a b)) xs) xs.

Definition close_by (xs : list xyz) (p : bond) : bool :=
  match xs !! p.1, xs !! p.2 with
  | Some a, Some b => Qltb (dist2 a b) (1.2 ^ 2)
  | _, _ => false
  end.

Definition bond_list_of (xs : list xyz) : list bond :=
  List.filter (fun p : bond => (p.1 <? p.2) && close_by xs p)
    (list_prod (seq 0 (length xs)) (seq 0 (length xs))).

Definition graph_of (xs : list xyz) (n_atoms : option nat) : nxGraph :=
  foldl (fun g b => nx_add_edge b.1 b.2 ∅ g)
    ((fun n => (n, [])) <$> seq 0 (default (length xs) n_atoms))
    (bond_list_of xs).

#[export] Instance autode : Autode := {|
  ha2kJmol := 2625.5;
  calc_distance_matrix := distance_matrix_of;
  make_graph := graph_of;
  get_xyz_bond_list := bond_list_of;
  get_bond_list_from_rdkit_bonds bs := bs;
  generate_unique_rdkit_confs m n := [0; 1];
  gen_rdkit_conf_xyzs self ids :=
    omap (fun i => m ← mol_obj self; (embedded m ++ [stretched <$> etkdg m]) !! i) ids;
  rdkit_conformer_geometries_are_resonable _ := true;
  gen_simanl_conf_xyzs _ init _ _ _ := [default [] init]
|}.

(** 1 Hartree = 627.509 kcal/mol. *)
#[export] Instance units : Units := {| KcalMol_conversion := 627.509 |}.

End Double.


(** ** Cases

    Concrete molecules over the doubles, on which the statements below
    are tried. *)

Module Cases.
Import Double.

(** A conformer of a lone hydrogen atom with its energy assigned. *)
Definition conf (i : nat) (e : Q) : Conformer :=
  {| conf_name := "mol_conf" +:+ pretty i; conf_xyzs := [H_at 0];
     conf_solvent := None; conf_charge := 0; conf_mult := 2;
     conf_energy := Some e |}.

(** A molecule that holds the conformers [confs]. *)
Definition with_confs (confs : list Conformer) : Molecule :=
  {| name := "mol"; smiles := None; solvent := None; charge := 0; mult := 2;
     xyzs := Some [H_at 0]; mol_obj := None; energy := None;
     n_atoms := Some 1; n_bonds := Some 0; conformers := Some confs;
     n_conformers := Some (length confs); rdkit_conf_gen_is_fine := true;
     graph := None; distance_matrix := None |}.

(** Energies 0, 0.0001, 0.001 and 0.0011 Hartree; the default threshold
    of 1 kJ/mol is a window [d_e] of 1/2625.5 Hartree, about 0.00038. *)
Definition four_confs : Molecule :=
  with_confs [conf 0 0; conf 1 0.0001; conf 2 0.001; conf 3 0.0011].

(** [Molecule(name='h2', smiles='[H][H]')] in an empty store. *)
Definition h2_from_smiles : result (Molecule * store) :=
  __init__ "h2" (Some "[H][H]") None None 0 1 ∅.

(** The same molecule as a value: what [h2_from_smiles] returns. *)
Definition h2 : Molecule :=
  let m := mkMol ["H"; "H"] [(0, 1)] 0 [H_at 0; H_at 0.7] [[H_at 0; H_at 0.7]] in
  {| name := "h2"; smiles := Some "[H][H]"; solvent := None; charge := 0;
     mult := 1; xyzs := Some [H_at 0; H_at 0.7]; mol_obj := Some m;
     energy := None; n_atoms := Some 2; n_bonds := Some 1;
     conformers := None; n_conformers := None;
     rdkit_conf_gen_is_fine := true; graph := Some 0;
     distance_matrix := Some (distance_matrix_of [H_at 0; H_at 0.7]) |}.

(** The attributes of [Molecule(name='li2', smiles='[Li][Li]')] when
    [_init_smiles] is entered. *)
Definition li2_blank : Molecule :=
  {| name := "li2"; smiles := Some "[Li][Li]"; solvent := None; charge := 0;
     mult := 1; xyzs := None; mol_obj := None; energy := None;
     n_atoms := None; n_bonds := None; conformers := None;
     n_conformers := None; rdkit_conf_gen_is_fine := true; graph := None;
     distance_matrix := None |}.

End Cases.


(** ** Reactions of the test

    The molecules of [tests/test_reaction_class.py], with the graphs the
    double builds for them, in one store.  The test sets the energies
    after the reaction is made; here they are set before, which the
    reaction, holding its molecules by reference, cannot tell apart. *)

Module Reactions.
Import Double.

Definition species (name_arg : string) (geometry : list xyz) (solvent_arg : option string)
    (charge_arg : Z) (energy_arg : option Q) (graph_arg : loc) : Molecule :=
  {| name := name_arg; smiles := None; solvent := solvent_arg;
     charge := charge_arg; mult := 1; xyzs := Some geometry; mol_obj := None;
     energy := energy_arg; n_atoms := Some (length geometry);
     n_bonds := Some (length (bond_list_of geometry)); conformers := None;
     n_conformers := None; rdkit_conf_gen_is_fine := true;
     graph := Some graph_arg;
     distance_matrix := Some (distance_matrix_of geometry) |}.

Definition h_geometry : list xyz := [H_at 0].
Definition hh_geometry : list xyz := [H_at 0; H_at 0.7].
Definition lin_h3_geometry : list xyz := [H_at 0; H_at 0.7; H_at 1.4].
Definition trig_h3_geometry : list xyz :=
  [XYZ "H" 0 0 0; XYZ "H" 0.7 0 0; XYZ "H" 0.35 0.6 0].

(** One graph object per geometry. *)
Definition graphs : store :=
  {[ 0 := graph_of h_geometry None;
     1 := graph_of hh_geometry None;
     2 := graph_of lin_h3_geometry None;
     3 := graph_of trig_h3_geometry None ]}.

(** [test_reaction_class]: energies 2, 3 and 1. *)
Definition h1 : Molecule := species "h1" h_geometry None 0 (Some 2%Q) 0.
Definition h2 : Molecule := species "h2" h_geometry None 0 (Some 3%Q) 0.
Definition hh_product : Molecule := species "hh" hh_geometry None 0 (Some 1%Q) 1.

(** [test_check_rearrangement] *)
Definition lin_h3 : Molecule := species "h3_linear" lin_h3_geometry None 0 None 2.
Definition trig_h3 : Molecule := species "h3_trigonal" trig_h3_geometry None 0 None 3.

(** [test_bad_balance] *)
Definition h_minus : Molecule := species "h1_minus" h_geometry None (-1) None 0.
Definition h1_water : Molecule := species "h1" h_geometry (Some "water") 0 None 0.
Definition h2_water : Molecule := species "h2" h_geometry (Some "water") 0 None 0.
Definition hh_thf : Molecule := species "hh" hh_geometry (Some "thf") 0 None 1.

(** [test_calc_delta_e]: energies -0.5, -0.5 and -1.0. *)
Definition r1 : Molecule := species "h" h_geometry None 0 (Some (-0.5)%Q) 0.
Definition r2 : Molecule := species "h" h_geometry None 0 (Some (-0.5)%Q) 0.
Definition p : Molecule := species "hh" hh_geometry None 0 (Some (-1)%Q) 1.

End Reactions.


(** ** Pairs up to orientation *)

(** Whether [p] is the pair [b] in one of its two orientations:
    [p == b or p == tuple(reversed(b))]. *)
Definition same_bond (b : bond) (p : bond) : bool :=
  bool_decide (p = b ∨ p = (b.2, b.1)).


(** ** The attributes at the start of [__init__] *)

Section blank.
Context `{rdkit : RDKit}.

(** The molecule after the assignments that open [Molecule.__init__],
    before [_init_smiles] or [_init_xyzs] run. *)
Definition blank_molecule (name_arg : string) (smiles_arg : option string)
    (xyzs_arg : option (list xyz)) (solvent_arg : option string)
    (charge_arg mult_arg : Z) : Molecule :=
  {| name := name_arg; smiles := smiles_arg; solvent := solvent_arg;
     charge := charge_arg; mult := mult_arg; xyzs := xyzs_arg;
     mol_obj := None; energy := None; n_atoms := None; n_bonds := None;
     conformers := None; n_conformers := None;
     rdkit_conf_gen_is_fine := true; graph := None;
     distance_matrix := None |}.

(** [self.energy = v] *)
Definition with_energy (self : Molecule) (v : option Q) : Molecule :=
  {| name := name self; smiles := smiles self; solvent := solvent self;
     charge := charge self; mult := mult self; xyzs := xyzs self;
     mol_obj := mol_obj self; energy := v; n_atoms := n_atoms self;
     n_bonds := n_bonds self; conformers := conformers self;
     n_conformers := n_conformers self;
     rdkit_conf_gen_is_fine := rdkit_conf_gen_is_fine self;
     graph := graph self; distance_matrix := distance_matrix self |}.

End blank.

(** ** autode/log.py *)

(** The levels of Python's [logging] module. *)
Definition logging_DEBUG : Z := 10.
Definition logging_INFO : Z := 20.
Definition logging_WARNING : Z := 30.
Definition logging_CRITICAL : Z := 50.

(** [get_log_level()], with [os.environ] as a map: a [KeyError] on the
    variable is answered with the empty string. *)
Definition get_log_level (environ : gmap string string) : Z :=
  let log_level_str :=
    match environ !! "AUTODE_LOG_LEVEL" with
    | Some s => s
    | None => ""
    end in
  if bool_decide (log_level_str = "DEBUG") then logging_DEBUG
  else if bool_decide (log_level_str = "WARNING") then logging_WARNING
  else if bool_decide (log_level_str = "INFO") then logging_INFO
  else logging_CRITICAL.

(** ** Calculations and the lowest energy conformer *)

(** [autode.wrappers.ORCA.ORCA] and [autode.wrappers.XTB.XTB], as the
    [method] argument. *)
Inductive method : Set :=
  | ORCA
  | XTB.

(** [min()] of an empty sequence raises [ValueError], which no other
    function here can raise; it is an outcome of its own beside the
    others. *)
Inductive or_value_error (A : Type) : Type :=
  | Outcome (r : A)
  | ValueError.

Arguments Outcome {A} r.
Arguments ValueError {A}.

(** [min(xs)] from its second element on: [current] is the least so far;
    comparing with [None] is a [TypeError]. *)
Fixpoint min_from (current : option Q) (rest : list (option Q)) : result (option Q) :=
  match rest with
  | [] => Ok current
  | x :: rest' =>
      match x, current with
      | Some a, Some b => min_from (if Qltb a b then Some a else Some b) rest'
      | _, _ => Raise TypeError
      end
  end.

Definition py_min (xs : list (option Q)) : or_value_error (result (option Q)) :=
  match xs with
  | [] => ValueError
  | x :: rest => Outcome (min_from x rest)
  end.

(** [a == b] on energies that may be [None]. *)
Definition energy_eqb (a b : option Q) : bool :=
  match a, b with
  | Some x, Some y => Qeq_bool x y
  | None, None => true
  | _, _ => false
  end.

Section calculations.
Context `{rdkit : RDKit} `{autode : !Autode}.

(** The electronic structure side, as an interface: what
    [Conformer.optimise(method)] leaves of a conformer
    ([autode/conformers/conformers.py]), and the energy and final
    geometry of a [Calculation] ([autode/calculation.py]) that has run on
    a molecule under a name, with a method, as an optimisation or
    not. *)
Class Engine : Type := {
  Conformer_optimise : method -> Conformer -> Conformer;
  Calculation_energy : string -> Molecule -> method -> bool -> option Q;
  Calculation_final_xyzs : string -> Molecule -> method -> bool -> list xyz
}.

Context `{engine : !Engine}.

(** The [for conformer in self.conformers] loop with its [break]: the
    first conformer whose energy equals [lowest_energy] gives the
    molecule its energy and its geometry. *)
Definition take_lowest (self : Molecule) (confs : list Conformer)
    (lowest_energy : option Q) : M Molecule :=
  match List.find (fun c => energy_eqb (conf_energy c) lowest_energy) confs with
  | Some conformer =>
      let self := with_energy self (conf_energy conformer) in
      set_xyzs self (conf_xyzs conformer)
  | None => mret self
  end.

(** Up to the search for the minimum: generate, optimise every conformer
    with XTB, strip, optimise what is left with ORCA. *)
Definition optimised_conformers (self : Molecule) : result (Molecule * list Conformer) :=
  let* self := generate_conformers self 300 in
  let* confs := not_none TypeError (conformers self) in
  let self := with_conformers self (Some (Conformer_optimise XTB <$> confs)) in
  let* self := strip_non_unique_confs self 1 in
  let* confs := not_none TypeError (conformers self) in
  let confs := Conformer_optimise ORCA <$> confs in
  Ok (with_conformers self (Some confs), confs).

Definition find_lowest_energy_conformer (self : Molecule) (h : store) :
    or_value_error (result (Molecule * store)) :=
  match optimised_conformers self with
  | Ok (self, confs) =>
      match py_min (conf_energy <$> confs) with
      | ValueError => ValueError
      | Outcome (Ok lowest_energy) => Outcome (take_lowest self confs lowest_energy h)
      | Outcome (Raise e) => Outcome (Raise e)
      | Outcome Exit => Outcome Exit
      end
  | Raise e => Outcome (Raise e)
  | Exit => Outcome Exit
  end.

(** [Molecule.optimise(method)] *)
Definition optimise (self : Molecule) (m : method) : M Molecule :=
  let nm := name self +:+ "_opt" in
  let e := Calculation_energy nm self m true in
  let final_xyzs := Calculation_final_xyzs nm self m true in
  let self := with_energy self e in
  set_xyzs self final_xyzs.

(** [Molecule.single_point(method)] *)
Definition single_point (self : Molecule) (m : method) : Molecule :=
  with_energy self (Calculation_energy (name self +:+ "_sp") self m false).

End calculations.


(** ** Further doubles and cases *)

Module More.
Import Double.

(** The double of the package with a geometry check that rejects every
    embedding. *)
Definition autode_rejecting : Autode := {|
  ha2kJmol := 2625.5;
  calc_distance_matrix := distance_matrix_of;
  make_graph := graph_of;
  get_xyz_bond_list := bond_list_of;
  get_bond_list_from_rdkit_bonds bs := bs;
  generate_unique_rdkit_confs m n := [0; 1];
  gen_rdkit_conf_xyzs self ids :=
    omap (fun i => m ← mol_obj self; (embedded m ++ [stretched <$> etkdg m]) !! i) ids;
  rdkit_conformer_geometries_are_resonable _ := false;
  gen_simanl_conf_xyzs _ init _ _ _ := [default [] init]
|}.

(** A stand-in for the electronic structure codes: the energy of a
    geometry is the sum of its x coordinates, whatever the method. *)
Definition toy_energy (xs : list xyz) : Q :=
  Qred (foldr Qplus 0%Q (coord_x <$> xs)).

#[export] Instance engine : Engine := {|
  Conformer_optimise _ c :=
    {| conf_name := conf_name c; conf_xyzs := conf_xyzs c;
       conf_solvent := conf_solvent c; conf_charge := conf_charge c;
       conf_mult := conf_mult c;
       conf_energy := Some (toy_energy (conf_xyzs c)) |};
  Calculation_energy _ self _ _ := toy_energy <$> xyzs self;
  Calculation_final_xyzs _ self _ _ := default [] (xyzs self)
|}.

(** Two conformers that were generated and never optimised. *)
Definition unoptimised : Molecule :=
  Cases.with_confs
    [new_Conformer "mol_conf0" [H_at 0] None 0 2;
     new_Conformer "mol_conf1" [H_at 0] None 0 2].


(** Two conformers of the same energy. *)
Definition two_equal : Molecule :=
  Cases.with_confs [Cases.conf 0 1; Cases.conf 1 1].

(** Two conformers and a count of three. *)
Definition stale_count : Molecule :=
  with_n_conformers two_equal (Some 3).

End More.


(** * Properties *)

(** ** Comparisons *)

Lemma Qltb_lt (x y : Q) : Qltb x y = true <-> (x < y)%Q.
Proof.
  unfold Qltb. rewrite negb_true_iff, <- not_true_iff_false, Qle_bool_iff.
  split; [apply Qnot_le_lt | apply Qlt_not_le].
Qed.

Lemma Qltb_ge (x y : Q) : Qltb x y = false <-> (y <= x)%Q.
Proof.
  unfold Qltb. rewrite negb_false_iff. apply Qle_bool_iff.
Qed.

(** ** Running the store monad *)

Lemma mbind_run {A B} (m : M A) (k : A -> M B) (h h' : store) (a : A) :
  m h = Ok (a, h') -> mbind m k h = k a h'.
Proof. intros Hm. unfold mbind. rewrite Hm. reflexivity. Qed.

Lemma mbind_exit {A B} (m : M A) (k : A -> M B) (h : store) :
  m h = Exit -> mbind m k h = Exit.
Proof. intros Hm. unfold mbind. rewrite Hm. reflexivity. Qed.

Lemma deref_run (l : loc) (g : nxGraph) (h : store) :
  h !! l = Some g -> deref l h = Ok (g, h).
Proof. intros Hl. unfold deref. rewrite Hl. reflexivity. Qed.

Lemma Graph_number_of_edges_run (l : loc) (g : nxGraph) (h : store) :
  h !! l = Some g -> Graph_number_of_edges l h = Ok (nx_number_of_edges g, h).
Proof.
  intros Hl. unfold Graph_number_of_edges.
  rewrite (mbind_run _ _ _ _ _ (deref_run _ _ _ Hl)). reflexivity.
Qed.

Lemma Graph_edges_run (l : loc) (g : nxGraph) (h : store) :
  h !! l = Some g -> Graph_edges l h = Ok (nx_edges g, h).
Proof.
  intros Hl. unfold Graph_edges.
  rewrite (mbind_run _ _ _ _ _ (deref_run _ _ _ Hl)). reflexivity.
Qed.

Lemma alloc_fresh (h : store) : h !! fresh (dom h) = None.
Proof. apply not_elem_of_dom, is_fresh. Qed.

Section molecule_properties.
Context `{rdkit : RDKit} `{autode : !Autode}.

(** C9: for every radical-electron count [n], [_calc_multiplicity] returns
    2 when [n] is 1 and the multiplicity the molecule already has in
    every other case: for [n] above 1 (diradicals keep the multiplicity
    that was set, the singlet unless the caller chose otherwise) and for
    [n] equal to 0 alike. *)
Theorem calc_multiplicity_cases (self : Molecule) (n : Z) :
  _calc_multiplicity self n = (if decide (n = 1%Z) then 2%Z else mult self)
  ∧ _calc_multiplicity self 1 = 2%Z
  ∧ _calc_multiplicity self 0 = mult self
  ∧ _calc_multiplicity self (Z.succ (Z.succ (Z.abs n))) = mult self.
Proof.
  unfold _calc_multiplicity. repeat split.
  - destruct (Z.eqb_spec n 1), (decide (n = 1%Z)); congruence.
  - destruct (Z.eqb_spec (Z.succ (Z.succ (Z.abs n))) 1); [lia | reflexivity].
Qed.

(** C5: a geometry update through [set_xyzs] recomputes the distance
    matrix, the graph and the bond count from the new coordinates in the
    one call: afterwards [xyzs] is the new list, [distance_matrix] is
    computed from it, [graph] is a new graph built from it (with the
    atom count the molecule has), and [n_bonds] is
    [graph.number_of_edges()] of that graph.  Nothing else of the
    molecule changes, and the call cannot fail. *)
Theorem set_xyzs_recomputes (self : Molecule) (new_xyzs : list xyz) (h : store) :
  exists self' : Molecule,
    let g := make_graph new_xyzs (n_atoms self) in
    let l := fresh (dom h) in
    let h' := <[l := g]> h in
    set_xyzs self new_xyzs h = Ok (self', h')
    ∧ xyzs self' = Some new_xyzs
    ∧ distance_matrix self' = Some (calc_distance_matrix new_xyzs)
    ∧ graph self' = Some l
    ∧ h' !! l = Some g
    ∧ n_bonds self' = Some (nx_number_of_edges g)
    ∧ Graph_number_of_edges l h' = Ok (nx_number_of_edges g, h')
    ∧ n_atoms self' = n_atoms self
    ∧ (name self', solvent self', charge self', mult self', energy self')
      = (name self, solvent self, charge self, mult self, energy self)
    ∧ (forall l0, is_Some (h !! l0) -> h' !! l0 = h !! l0).
Proof.
  set (g := make_graph new_xyzs (n_atoms self)).
  assert (Hl : <[fresh (dom h) := g]> h !! fresh (dom h) = Some g)
    by apply lookup_insert_eq.
  eexists. cbv zeta. unfold set_xyzs.
  rewrite (mbind_run _ _ h _ (fresh (dom h)) eq_refl).
  rewrite (mbind_run _ _ _ _ _ (Graph_number_of_edges_run _ _ _ Hl)).
  cbn. repeat split; try assumption.
  - apply Graph_number_of_edges_run, Hl.
  - intros l0 [g0 Hg0]. apply lookup_insert_ne. intros <-.
    rewrite alloc_fresh in Hg0. discriminate.
Qed.

(** The check itself: equal counts pass, anything else is [exit()]. *)
Lemma check_rdkit_graph_agreement_run (self : Molecule) (l : loc) (g : nxGraph) (h : store) :
  graph self = Some l -> h !! l = Some g ->
  _check_rdkit_graph_agreement self h
  = if bool_decide (n_bonds self = Some (nx_number_of_edges g)) then Ok (tt, h) else Exit.
Proof.
  intros Hg Hl. unfold _check_rdkit_graph_agreement, self_graph.
  rewrite Hg. cbn [not_none].
  rewrite (mbind_run _ _ h h l eq_refl).
  rewrite (mbind_run _ _ _ _ _ (Graph_number_of_edges_run _ _ _ Hl)).
  destruct (bool_decide _); reflexivity.
Qed.

(** C6: when a molecule is initialised from SMILES and the rdkit embedding
    is judged reasonable, a bond count declared by the rdkit bond list
    that differs from the number of edges of the graph built from the
    geometry ends the process: [_init_smiles] exits instead of returning
    a molecule. *)
Theorem init_smiles_graph_mismatch_exits (self : Molecule) (name_arg smiles_arg : string)
    (h : store) (mol : RDMol) (xyzs0 : list xyz) (rest : list (list xyz)) :
  smiles_to_mol smiles_arg = Ok mol ->
  gen_rdkit_conf_xyzs (read_mol_obj self mol) [0] = xyzs0 :: rest ->
  rdkit_conformer_geometries_are_resonable [xyzs0] = true ->
  length (GetBonds mol) <> nx_number_of_edges (make_graph xyzs0 (Some (GetNumAtoms mol))) ->
  _init_smiles self name_arg smiles_arg h = Exit.
Proof.
  intros Hmol Hconf Hfine Hne. unfold _init_smiles.
  rewrite Hmol, (mbind_run _ _ h h mol eq_refl).
  rewrite Hconf. cbn [get_item lookup list_lookup not_none].
  rewrite (mbind_run _ _ h h xyzs0 eq_refl), Hfine. cbn [negb].
  apply mbind_exit.
  rewrite (mbind_run _ _ h _ (fresh (dom h)) eq_refl).
  apply mbind_exit.
  erewrite check_rdkit_graph_agreement_run;
    [| reflexivity | apply lookup_insert_eq].
  rewrite bool_decide_eq_false_2; [reflexivity |].
  cbn. intros [= Heq]. apply Hne. exact Heq.
Qed.

(** The other side of the check: with equal counts the molecule is
    returned, its graph is the one built from the embedded geometry and
    both counts are kept. *)
Lemma init_smiles_graph_agreement_returns (self : Molecule) (name_arg smiles_arg : string)
    (h : store) (mol : RDMol) (xyzs0 : list xyz) (rest : list (list xyz)) :
  smiles_to_mol smiles_arg = Ok mol ->
  gen_rdkit_conf_xyzs (read_mol_obj self mol) [0] = xyzs0 :: rest ->
  rdkit_conformer_geometries_are_resonable [xyzs0] = true ->
  length (GetBonds mol) = nx_number_of_edges (make_graph xyzs0 (Some (GetNumAtoms mol))) ->
  exists self',
    _init_smiles self name_arg smiles_arg h
    = Ok (self', <[fresh (dom h) := make_graph xyzs0 (Some (GetNumAtoms mol))]> h)
    ∧ graph self' = Some (fresh (dom h))
    ∧ n_bonds self' = Some (length (GetBonds mol))
    ∧ xyzs self' = Some xyzs0
    ∧ rdkit_conf_gen_is_fine self' = rdkit_conf_gen_is_fine self.
Proof.
  intros Hmol Hconf Hfine Heq.
  set (g := make_graph xyzs0 (Some (GetNumAtoms mol))) in *.
  set (self1 := with_graph (with_xyzs (read_mol_obj self mol) (Some xyzs0))
                  (Some (fresh (dom h)))).
  assert (Hcheck : _check_rdkit_graph_agreement self1 (<[fresh (dom h) := g]> h)
                   = Ok (tt, <[fresh (dom h) := g]> h)).
  { erewrite check_rdkit_graph_agreement_run;
      [| reflexivity | apply lookup_insert_eq].
    rewrite bool_decide_eq_true_2; [reflexivity |].
    cbn. f_equal. exact Heq. }
  exists (with_distance_matrix self1 (Some (calc_distance_matrix xyzs0))).
  split; [| repeat split].
  unfold _init_smiles.
  rewrite Hmol, (mbind_run _ _ h h mol eq_refl).
  rewrite Hconf. cbn [get_item lookup list_lookup not_none].
  rewrite (mbind_run _ _ h h xyzs0 eq_refl), Hfine. cbn [negb].
  erewrite mbind_run; cycle 1.
  { rewrite (mbind_run _ _ h _ (fresh (dom h)) eq_refl).
    rewrite (mbind_run _ _ _ _ _ Hcheck). reflexivity. }
  reflexivity.
Qed.

End molecule_properties.

(** ** Conformers *)

Section conformer_properties.
Context `{rdkit : RDKit} `{autode : !Autode}.

Lemma py_truediv_pos (a b : Q) : (0 < b)%Q -> py_truediv a b = Ok (a / b)%Q.
Proof.
  intros Hb. unfold py_truediv.
  destruct (Qeq_bool b 0) eqn:E; [| reflexivity].
  apply Qeq_bool_iff in E. rewrite E in Hb. discriminate Hb.
Qed.

Lemma Qdiv_pos (a b : Q) : (0 < a)%Q -> (0 < b)%Q -> (0 < a / b)%Q.
Proof.
  intros Ha Hb. apply Qlt_shift_div_l; [exact Hb |]. lra.
Qed.

(** The example of the design: energies [E0], [E0 + 0.5 d_e] and
    [E0 + 2 d_e] keep the first and the third conformer. *)
Lemma strip_first_and_third (self : Molecule) (threshold_kj E0 : Q) (c0 c1 c2 : Conformer) :
  (0 < ha2kJmol)%Q -> (0 < threshold_kj)%Q ->
  conformers self = Some [c0; c1; c2] -> n_conformers self = Some 3 ->
  conf_energy c0 = Some E0 ->
  conf_energy c1 = Some (E0 + 0.5 * (threshold_kj / ha2kJmol))%Q ->
  conf_energy c2 = Some (E0 + 2 * (threshold_kj / ha2kJmol))%Q ->
  exists self',
    strip_non_unique_confs self threshold_kj = Ok self'
    ∧ conformers self' = Some [c0; c2]
    ∧ n_conformers self' = Some 2.
Proof.
  intros Hha Hthr Hconfs Hn H0 H1 H2.
  pose proof (Qdiv_pos _ _ Hthr Hha) as Hd.
  unfold strip_non_unique_confs.
  rewrite (py_truediv_pos _ _ Hha), Hconfs, Hn.
  set (d := (threshold_kj / ha2kJmol)%Q) in *.
  cbn [rbind not_none get_item lookup list_lookup seq Nat.sub strip_loop
       length is_unique energy_of].
  rewrite H0, H1, H2. cbn [rbind not_none].
  assert (Hin1 : Qltb (E0 + 0.5 * d - d) E0 && Qltb E0 (E0 + 0.5 * d + d) = true).
  { apply andb_true_intro. split; apply Qltb_lt; lra. }
  assert (Hout2 : Qltb (E0 + 2 * d - d) E0 && Qltb E0 (E0 + 2 * d + d) = false).
  { apply andb_false_intro1. apply Qltb_ge. lra. }
  rewrite Hin1. cbn [rbind]. rewrite Hout2. cbn.
  eexists. repeat split.
Qed.

(** C7 (amended): [generate_conformers] selects its strategy by
    [rdkit_conf_gen_is_fine]: when it holds the coordinates are those of
    the unique rdkit embeddings, otherwise those of the simulated
    annealing generator driven from the rdkit bond list.  Either way
    every coordinate set becomes one conformer, in order, with the
    molecule's solvent, charge and multiplicity; the conformer at index
    [i] is named after the molecule with the suffix [_conf] and [i], not
    with the molecule's name itself; [n_conformers] is the number of
    conformers produced. *)
Theorem generate_conformers_strategy (self : Molecule) (n_rdkit_confs : nat) (mol : RDMol) :
  mol_obj self = Some mol ->
  exists self' confs,
    let coords :=
      if rdkit_conf_gen_is_fine self
      then gen_rdkit_conf_xyzs (with_conformers self (Some []))
             (generate_unique_rdkit_confs (Some mol) n_rdkit_confs)
      else gen_simanl_conf_xyzs (name self) (xyzs self)
             (get_bond_list_from_rdkit_bonds (GetBonds mol)) (charge self) None in
    generate_conformers self n_rdkit_confs = Ok self'
    ∧ conformers self' = Some confs
    ∧ n_conformers self' = Some (length confs)
    ∧ length confs = length coords
    ∧ forall i xyzs_i, coords !! i = Some xyzs_i ->
        exists c, confs !! i = Some c
          ∧ conf_xyzs c = xyzs_i
          ∧ conf_name c = name self +:+ "_conf" +:+ pretty i
          ∧ conf_solvent c = solvent self
          ∧ conf_charge c = charge self
          ∧ conf_mult c = mult self
          ∧ conf_energy c = None.
Proof.
  intros Hmol. unfold generate_conformers.
  cbn [rdkit_conf_gen_is_fine mol_obj with_conformers name xyzs charge solvent mult].
  rewrite Hmol. cbn [not_none rbind].
  destruct (rdkit_conf_gen_is_fine self); cbn [rbind];
    (eexists; eexists; cbv zeta;
     split; [reflexivity |]; split; [reflexivity |]; split; [reflexivity |];
     split; [apply length_imap |];
     intros i xyzs_i Hi; eexists; split;
     [rewrite list_lookup_imap, Hi; reflexivity | repeat split]).
Qed.

End conformer_properties.

(** ** Bonds that can form and bonds that can break *)

Section bond_properties.
Context `{rdkit : RDKit} `{autode : !Autode}.

Lemma get_possible_breaking_bonds_run (self : Molecule) (l : loc) (g : nxGraph) (h : store) :
  graph self = Some l -> h !! l = Some g ->
  get_possible_breaking_bonds self h = Ok (nx_edges g, h).
Proof.
  intros Hg Hl. unfold get_possible_breaking_bonds, self_graph.
  rewrite Hg. cbn [not_none].
  rewrite (mbind_run _ _ h h l eq_refl).
  apply Graph_edges_run, Hl.
Qed.

Lemma get_possible_forming_bonds_run (self : Molecule) (l : loc) (g : nxGraph) (n : nat) (h : store) :
  graph self = Some l -> h !! l = Some g -> n_atoms self = Some n ->
  get_possible_forming_bonds self h
  = Ok (filter (fun p : bond => p.1 < p.2 ∧ (p ∉ nx_edges g) ∧ ((p.2, p.1) ∉ nx_edges g))
          (list_prod (seq 0 n) (seq 0 n)), h).
Proof.
  intros Hg Hl Hn. unfold get_possible_forming_bonds, self_graph.
  rewrite Hg, Hn. cbn [not_none].
  rewrite (mbind_run _ _ h h l eq_refl).
  rewrite (mbind_run _ _ _ _ _ (Graph_edges_run _ _ _ Hl)).
  reflexivity.
Qed.

Lemma elem_of_index_pairs (n i j : nat) :
  (i, j) ∈ list_prod (seq 0 n) (seq 0 n) <-> i < n ∧ j < n.
Proof.
  rewrite list_elem_of_In, in_prod_iff, <- !list_elem_of_In, !elem_of_seq. lia.
Qed.

Lemma NoDup_list_prod {A B} (l : list A) (k : list B) :
  NoDup l -> NoDup k -> NoDup (list_prod l k).
Proof.
  intros Hl Hk. induction Hl as [| x l Hx Hl IH]; [constructor |].
  cbn [list_prod]. apply NoDup_app. split; [| split].
  - assert (Inj (=) (=) (@pair A B x)) by (intros y1 y2 [= ->]; reflexivity).
    apply (NoDup_fmap_2 (pair x)), Hk.
  - intros [a b] Hab Hin. apply list_elem_of_fmap in Hab as (y & [= -> ->] & _).
    apply list_elem_of_In, in_prod_iff in Hin as [Hin _].
    apply Hx, list_elem_of_In, Hin.
  - exact IH.
Qed.

Lemma NoDup_index_pairs (n : nat) : NoDup (list_prod (seq 0 n) (seq 0 n)).
Proof. apply NoDup_list_prod; apply NoDup_seq. Qed.

(** C10: for a molecule with [n_atoms] atoms whose graph has edges
    between distinct indices below [n_atoms], the lists returned by
    [get_possible_forming_bonds] and [get_possible_breaking_bonds]
    partition the unordered pairs of atom indices: every pair [(i, j)]
    with [i < j] is, up to orientation, in exactly one of the two lists,
    and it is among the forming bonds exactly when neither [(i, j)] nor
    [(j, i)] is an edge; the two lists hold nothing but such pairs, and
    no forming bond is listed twice. *)
Theorem forming_and_breaking_bonds_partition (self : Molecule) (h : store)
    (l : loc) (g : nxGraph) (n : nat) :
  graph self = Some l -> h !! l = Some g -> n_atoms self = Some n ->
  (forall a b, (a, b) ∈ nx_edges g -> a <> b ∧ a < n ∧ b < n) ->
  exists forming breaking : list bond,
    get_possible_forming_bonds self h = Ok (forming, h)
    ∧ get_possible_breaking_bonds self h = Ok (breaking, h)
    ∧ breaking = nx_edges g
    ∧ (forall i j, i < j -> j < n ->
         let in_forming := (i, j) ∈ forming ∨ (j, i) ∈ forming in
         let in_breaking := (i, j) ∈ breaking ∨ (j, i) ∈ breaking in
         (in_forming ∨ in_breaking)
         ∧ ~ (in_forming ∧ in_breaking)
         ∧ ((i, j) ∈ forming <-> ((i, j) ∉ nx_edges g) ∧ ((j, i) ∉ nx_edges g)))
    ∧ (forall a b, (a, b) ∈ forming ∨ (a, b) ∈ breaking -> a <> b ∧ a < n ∧ b < n)
    ∧ NoDup forming.
Proof.
  intros Hg Hl Hn Hedges.
  eexists. eexists.
  split; [apply (get_possible_forming_bonds_run self l g n h Hg Hl Hn) |].
  split; [apply (get_possible_breaking_bonds_run self l g h Hg Hl) |].
  split; [reflexivity |].
  assert (Hform : forall a b,
    (a, b) ∈ filter (fun p : bond => p.1 < p.2 ∧ (p ∉ nx_edges g) ∧ ((p.2, p.1) ∉ nx_edges g))
               (list_prod (seq 0 n) (seq 0 n))
    <-> (a < b ∧ ((a, b) ∉ nx_edges g) ∧ ((b, a) ∉ nx_edges g)) ∧ a < n ∧ b < n).
  { intros a b. rewrite list_elem_of_filter, elem_of_index_pairs. reflexivity. }
  split; [| split].
  - intros i j Hij Hj. cbv zeta. rewrite !Hform.
    assert (Hi : i < n) by lia.
    destruct (decide ((i, j) ∈ nx_edges g)) as [Hin1 | Hout1];
      [| destruct (decide ((j, i) ∈ nx_edges g)) as [Hin2 | Hout2]].
    + split; [right; left; exact Hin1 |]. split.
      * intros [[[[_ [Hn1 _]] _] | [[Hji _] _]] _]; [exact (Hn1 Hin1) | lia].
      * split; [intros [[_ [Hn1 _]] _]; destruct (Hn1 Hin1) |].
        intros [Hn1 _]. destruct (Hn1 Hin1).
    + split; [right; right; exact Hin2 |]. split.
      * intros [[[[_ [_ Hn2]] _] | [[Hji _] _]] _]; [exact (Hn2 Hin2) | lia].
      * split; [intros [[_ [_ Hn2]] _]; destruct (Hn2 Hin2) |].
        intros [_ Hn2]. destruct (Hn2 Hin2).
    + split; [left; left; repeat split; assumption |]. split.
      * intros [_ [Hin | Hin]]; [exact (Hout1 Hin) | exact (Hout2 Hin)].
      * split; [intros _; split; assumption |].
        intros _. repeat split; assumption.
  - intros a b [Hin | Hin].
    + apply Hform in Hin. lia.
    + apply Hedges, Hin.
  - apply NoDup_filter, NoDup_index_pairs.
Qed.

End bond_properties.

(** ** Reactions *)

Section reaction_properties.
Context `{rdkit : RDKit} `{units : Units}.

Lemma validate_passes (order : check_order) (reactants products : list Molecule) :
  balanced reactants products -> solvents_match (reactants ++ products) ->
  validate order reactants products = Ok tt.
Proof.
  intros Hb Hs. unfold validate, check_balance, check_solvent.
  destruct order; repeat (case_decide; [| contradiction]); reflexivity.
Qed.

Lemma validate_unbalanced (order : check_order) (reactants products : list Molecule) :
  ~ balanced reactants products -> solvents_match (reactants ++ products) ->
  validate order reactants products = Raise UnbalancedReaction.
Proof.
  intros Hb Hs. unfold validate, check_balance, check_solvent.
  destruct order; repeat case_decide; try contradiction; reflexivity.
Qed.

Lemma validate_solvents (order : check_order) (reactants products : list Molecule) :
  balanced reactants products -> ~ solvents_match (reactants ++ products) ->
  validate order reactants products = Raise SolventsDontMatch.
Proof.
  intros Hb Hs. unfold validate, check_balance, check_solvent.
  destruct order; repeat case_decide; try contradiction; reflexivity.
Qed.

Lemma validate_both (order : check_order) (reactants products : list Molecule) :
  ~ balanced reactants products -> ~ solvents_match (reactants ++ products) ->
  validate order reactants products
  = Raise (match order with
           | BalanceFirst => UnbalancedReaction
           | SolventFirst => SolventsDontMatch
           end).
Proof.
  intros Hb Hs. unfold validate, check_balance, check_solvent.
  destruct order; repeat case_decide; try contradiction; reflexivity.
Qed.

Lemma validate_ok_inv (order : check_order) (reactants products : list Molecule) (u : unit) :
  validate order reactants products = Ok u ->
  balanced reactants products ∧ solvents_match (reactants ++ products).
Proof.
  unfold validate, check_balance, check_solvent.
  destruct order; repeat case_decide; cbn; intros Hok; try discriminate Hok; split; assumption.
Qed.

(** A failed validation is the outcome of the construction, whatever the
    store holds: no graph is looked at before. *)
Lemma Reaction_init_invalid (order : check_order) (name_arg : string)
    (reactants products : list Molecule) (h : store) (e : exn) :
  validate order reactants products = Raise e ->
  Reaction_init order name_arg reactants products h = Raise e.
Proof. intros Hv. unfold Reaction_init. rewrite Hv. reflexivity. Qed.

(** C2: when the graphs of the products have strictly more bonds in
    total than the graphs of the reactants, the reaction is constructed
    with the roles exchanged: its [reacs] are the products given to the
    constructor and its [prods] are the reactants given.  The reaction is
    a value, so the two accessors keep yielding these lists. *)
Theorem reaction_roles_swap (order : check_order) (name_arg : string)
    (reactants products : list Molecule) (h : store) (n_reac n_prod : nat) :
  balanced reactants products ->
  solvents_match (reactants ++ products) ->
  total_bonds h reactants = Ok n_reac ->
  total_bonds h products = Ok n_prod ->
  n_reac < n_prod ->
  exists r : Reaction,
    Reaction_init order name_arg reactants products h = Ok r
    ∧ reacs r = products
    ∧ prods r = reactants.
Proof.
  intros Hb Hs Hr Hp Hlt. unfold Reaction_init.
  rewrite (validate_passes order _ _ Hb Hs), Hr, Hp. cbn [rbind].
  destruct (Nat.ltb_spec n_reac n_prod) as [_ | Hge]; [| lia].
  eexists. repeat split.
Qed.

(** Without strictly more bonds on the product side the roles stay. *)
Lemma reaction_roles_kept (order : check_order) (name_arg : string)
    (reactants products : list Molecule) (h : store) (n_reac n_prod : nat) :
  balanced reactants products ->
  solvents_match (reactants ++ products) ->
  total_bonds h reactants = Ok n_reac ->
  total_bonds h products = Ok n_prod ->
  n_prod <= n_reac ->
  exists r : Reaction,
    Reaction_init order name_arg reactants products h = Ok r
    ∧ reacs r = reactants
    ∧ prods r = products.
Proof.
  intros Hb Hs Hr Hp Hle. unfold Reaction_init.
  rewrite (validate_passes order _ _ Hb Hs), Hr, Hp. cbn [rbind].
  destruct (Nat.ltb_spec n_reac n_prod) as [Hlt | _]; [lia |].
  eexists. repeat split.
Qed.

(** Whatever the bond counts, a constructed reaction holds the two given
    sides, in one role or the other. *)
Lemma Reaction_init_sides (order : check_order) (name_arg : string)
    (reactants products : list Molecule) (h : store) (r : Reaction) :
  Reaction_init order name_arg reactants products h = Ok r ->
  (reacs r = reactants ∧ prods r = products)
  ∨ (reacs r = products ∧ prods r = reactants).
Proof.
  unfold Reaction_init.
  destruct (validate order reactants products); cbn [rbind]; [| discriminate ..].
  destruct (total_bonds h reactants) as [n_reac | |]; cbn [rbind]; [| discriminate ..].
  destruct (total_bonds h products) as [n_prod | |]; cbn [rbind]; [| discriminate ..].
  destruct (n_reac <? n_prod); intros [= <-]; [right | left]; split; reflexivity.
Qed.

Lemma sum_energies_assigned (ms : list Molecule) :
  Forall (fun m => is_Some (energy m)) ms ->
  sum_energies ms = Ok (total_energy ms).
Proof.
  unfold total_energy. induction 1 as [| m ms [e He] _ IH]; [reflexivity |].
  cbn [sum_energies omap list_omap]. rewrite He, IH. reflexivity.
Qed.

(** C3 (amended): for a reaction all of whose molecules have an energy,
    [calc_delta_e] is [KcalMol.conversion] times the difference between
    the sum of the energies of its products and the sum of the energies
    of its reactants: the difference is taken in Hartree and converted
    once, in the value returned.  For reactants of energy -0.5 and -0.5
    Hartree and a product of energy -1.0 Hartree the value is 0, within
    1e-6, in whichever roles the constructor has put them. *)
Theorem calc_delta_e_converted :
  (forall r : Reaction,
     Forall (fun m => is_Some (energy m)) (reacs r ++ prods r) ->
     calc_delta_e r
     = Ok (KcalMol_conversion * (total_energy (prods r) - total_energy (reacs r)))%Q)
  ∧ (forall (order : check_order) (name_arg : string)
       (reactants products : list Molecule) (h : store) (r : Reaction)
       (e1 e2 e3 : Q),
       Reaction_init order name_arg reactants products h = Ok r ->
       energy <$> reactants = [Some e1; Some e2] ->
       energy <$> products = [Some e3] ->
       (e1 == -0.5)%Q -> (e2 == -0.5)%Q -> (e3 == -1)%Q ->
       exists v : Q,
         calc_delta_e r = Ok v ∧ (v == 0)%Q ∧ (-(1 # 1000000) < v < 1 # 1000000)%Q).
Proof.
  assert (Hgen : forall r : Reaction,
     Forall (fun m => is_Some (energy m)) (reacs r ++ prods r) ->
     calc_delta_e r
     = Ok (KcalMol_conversion * (total_energy (prods r) - total_energy (reacs r)))%Q).
  { intros r Hall. apply Forall_app in Hall as [Hr Hp]. unfold calc_delta_e.
    rewrite (sum_energies_assigned _ Hp), (sum_energies_assigned _ Hr).
    reflexivity. }
  split; [exact Hgen |].
  intros order name_arg reactants products h r e1 e2 e3 Hinit Her Hep He1 He2 He3.
  assert (Htot : forall (ms : list Molecule) (es : list Q),
            energy <$> ms = Some <$> es ->
            Forall (fun m => is_Some (energy m)) ms
            ∧ total_energy ms = foldr Qplus 0%Q es).
  { unfold total_energy. induction ms as [| m ms IH]; intros [| e es] Hes;
      try discriminate Hes; [split; [constructor | reflexivity] |].
    cbn in Hes. injection Hes as He Hes. destruct (IH _ Hes) as [Hall Hsum].
    split; [constructor; [rewrite He; eexists; reflexivity | exact Hall] |].
    cbn [omap list_omap]. rewrite He. cbn [foldr]. rewrite Hsum. reflexivity. }
  destruct (Htot reactants [e1; e2] Her) as [Hra Hrs].
  destruct (Htot products [e3] Hep) as [Hpa Hps].
  eexists. split.
  - apply Hgen. apply Forall_app.
    destruct (Reaction_init_sides _ _ _ _ _ _ Hinit) as [[-> ->] | [-> ->]];
      split; assumption.
  - assert (Hzero : (KcalMol_conversion
                     * (total_energy (prods r) - total_energy (reacs r)) == 0)%Q).
    { destruct (Reaction_init_sides _ _ _ _ _ _ Hinit) as [[-> ->] | [-> ->]];
        rewrite Hrs, Hps; cbn [foldr]; rewrite He1, He2, He3; ring. }
    split; [exact Hzero |]. rewrite Hzero. split; reflexivity.
Qed.

(** C4 (amended): the construction validates before it looks at any
    graph.  Reactant and product sides whose total charge or atom
    multiset differ, with solvents that agree, raise
    [UnbalancedReaction]; balanced sides whose solvents are not all equal
    raise [SolventsDontMatch]; sides that are both unbalanced and in
    different solvents raise the error of the check that runs first.  The
    error is the outcome of the construction, and a reaction is only
    constructed from balanced sides in one solvent. *)
Theorem reaction_validation (order : check_order) (name_arg : string)
    (reactants products : list Molecule) (h : store) :
  (~ balanced reactants products -> solvents_match (reactants ++ products) ->
   Reaction_init order name_arg reactants products h = Raise UnbalancedReaction)
  ∧ (balanced reactants products -> ~ solvents_match (reactants ++ products) ->
     Reaction_init order name_arg reactants products h = Raise SolventsDontMatch)
  ∧ (~ balanced reactants products -> ~ solvents_match (reactants ++ products) ->
     Reaction_init order name_arg reactants products h
     = Raise (match order with
              | BalanceFirst => UnbalancedReaction
              | SolventFirst => SolventsDontMatch
              end))
  ∧ (forall r, Reaction_init order name_arg reactants products h = Ok r ->
     balanced reactants products ∧ solvents_match (reactants ++ products)).
Proof.
  split; [| split; [| split]].
  - intros Hb Hs. apply Reaction_init_invalid, validate_unbalanced; assumption.
  - intros Hb Hs. apply Reaction_init_invalid, validate_solvents; assumption.
  - intros Hb Hs. apply Reaction_init_invalid, validate_both; assumption.
  - intros r. unfold Reaction_init.
    destruct (validate order reactants products) as [[] | |] eqn:Hv;
      [| discriminate ..].
    intros _. apply (validate_ok_inv _ _ _ _ Hv).
Qed.

End reaction_properties.

(** ** Graphs with active edges *)

Section alist_properties.
Context {V : Type}.
Implicit Types d : list (nat * V).

Lemma alookup_aset (k k' : nat) (v : V) d :
  alookup k (aset k' v d) = if Nat.eqb k k' then Some v else alookup k d.
Proof.
  induction d as [| [k0 v0] d IH]; cbn [aset alookup].
  - destruct (Nat.eqb k k'); reflexivity.
  - destruct (Nat.eqb_spec k' k0) as [-> | Hne]; cbn [alookup].
    + destruct (Nat.eqb k k0); reflexivity.
    + destruct (Nat.eqb_spec k k0) as [-> | Hne'].
      * destruct (Nat.eqb_spec k0 k'); [congruence | reflexivity].
      * exact IH.
Qed.

Lemma alookup_aalter (f : V -> V) (k k' : nat) d :
  alookup k (aalter f k' d) = if Nat.eqb k k' then f <$> alookup k d else alookup k d.
Proof.
  induction d as [| [k0 v0] d IH]; cbn [aalter alookup].
  - destruct (Nat.eqb k k'); reflexivity.
  - destruct (Nat.eqb_spec k' k0) as [-> | Hne]; cbn [alookup].
    + destruct (Nat.eqb k k0); reflexivity.
    + destruct (Nat.eqb_spec k k0) as [-> | Hne'].
      * destruct (Nat.eqb_spec k0 k'); [congruence | reflexivity].
      * exact IH.
Qed.

Lemma keys_aalter (f : V -> V) (k : nat) d : (aalter f k d).*1 = d.*1.
Proof.
  induction d as [| [k0 v0] d IH]; [reflexivity |]. cbn [aalter].
  destruct (Nat.eqb k k0); cbn; [reflexivity | rewrite IH; reflexivity].
Qed.

Lemma alookup_app (k : nat) d1 d2 :
  alookup k (d1 ++ d2)
  = match alookup k d1 with Some v => Some v | None => alookup k d2 end.
Proof.
  induction d1 as [| [k0 v0] d1 IH]; [reflexivity |]. cbn [app alookup].
  destruct (Nat.eqb k k0); [reflexivity | exact IH].
Qed.

Lemma alookup_is_Some (k : nat) d : is_Some (alookup k d) <-> k ∈ d.*1.
Proof.
  induction d as [| [k0 v0] d IH]; cbn [alookup fmap list_fmap fst].
  - split; [intros [v Hv]; discriminate Hv | intros Hin; inversion Hin].
  - rewrite elem_of_cons. destruct (Nat.eqb_spec k k0) as [-> | Hne].
    + split; [intros _; left; reflexivity | intros _; eexists; reflexivity].
    + rewrite IH. split; [intros Hin; right; exact Hin | intros [Heq | Hin]; [contradiction | exact Hin]].
Qed.

Lemma alookup_None (k : nat) d : alookup k d = None <-> k ∉ d.*1.
Proof. rewrite <- alookup_is_Some, eq_None_not_Some. reflexivity. Qed.

End alist_properties.

Section graph_properties.
Implicit Types g : nxGraph.

Lemma same_bond_swap (b : bond) (x y : nat) :
  same_bond b (y, x) = same_bond b (x, y).
Proof.
  unfold same_bond. destruct b as [u v]. cbn [fst snd].
  apply bool_decide_ext. split; intros [[= -> ->] | [= -> ->]]; auto.
Qed.

Lemma nx_edge_data_aalter (F : list (nat * attrs) -> list (nat * attrs)) (a : nat) g (x y : nat) :
  nx_edge_data (aalter F a g) x y
  = if Nat.eqb x a then alookup a g ≫= fun nbrs => alookup y (F nbrs)
    else nx_edge_data g x y.
Proof.
  unfold nx_edge_data. rewrite alookup_aalter.
  destruct (Nat.eqb_spec x a) as [-> | Hne]; [| reflexivity].
  destruct (alookup a g); reflexivity.
Qed.

(** [_adj[a][b] = dd] where [a] is a node. *)
Lemma nx_edge_data_store (a b : nat) (dd : attrs) g (x y : nat) :
  is_Some (alookup a g) ->
  nx_edge_data (aalter (aset b dd) a g) x y
  = if Nat.eqb x a && Nat.eqb y b then Some dd else nx_edge_data g x y.
Proof.
  intros [nbrs Ha]. rewrite nx_edge_data_aalter. unfold nx_edge_data.
  destruct (Nat.eqb_spec x a) as [-> | Hne]; [| reflexivity].
  rewrite Ha. cbn. rewrite alookup_aset. destruct (Nat.eqb y b); reflexivity.
Qed.

(** A write into the data dict stored at [_adj[a][b]]. *)
Lemma nx_edge_data_update (F : attrs -> attrs) (a b : nat) g (x y : nat) :
  nx_edge_data (aalter (aalter F b) a g) x y
  = if Nat.eqb x a && Nat.eqb y b then F <$> nx_edge_data g x y
    else nx_edge_data g x y.
Proof.
  rewrite nx_edge_data_aalter. unfold nx_edge_data.
  destruct (Nat.eqb_spec x a) as [-> | Hne]; [| reflexivity].
  destruct (alookup a g) as [nbrs |]; cbn.
  - rewrite alookup_aalter. destruct (Nat.eqb y b); reflexivity.
  - destruct (Nat.eqb y b); reflexivity.
Qed.

Lemma nx_edge_data_add_node (n : nat) g (x y : nat) :
  nx_edge_data (nx_add_node n g) x y = nx_edge_data g x y.
Proof.
  unfold nx_add_node. destruct (alookup n g) eqn:Hn; [reflexivity |].
  unfold nx_edge_data. rewrite alookup_app.
  destruct (alookup x g); [reflexivity |]. cbn.
  destruct (Nat.eqb x n); reflexivity.
Qed.

Lemma nx_add_node_is_node (n m : nat) g :
  m = n ∨ is_Some (alookup m g) -> is_Some (alookup m (nx_add_node n g)).
Proof.
  unfold nx_add_node. intros Hm.
  destruct (alookup n g) eqn:Hn.
  - destruct Hm as [-> | Hm]; [rewrite Hn; eexists; reflexivity | exact Hm].
  - rewrite alookup_app. destruct (alookup m g) eqn:Hmg; [eexists; reflexivity |].
    destruct Hm as [-> | [v Hv]]; [| discriminate Hv].
    cbn. rewrite Nat.eqb_refl. eexists; reflexivity.
Qed.

Lemma nx_add_node_keys (n : nat) g :
  NoDup g.*1 -> NoDup (nx_add_node n g).*1.
Proof.
  unfold nx_add_node. intros Hnd.
  destruct (alookup n g) eqn:Hn; [exact Hnd |].
  rewrite fmap_app. apply NoDup_app. split; [exact Hnd |]. split.
  - intros k Hk Hin. cbn in Hin. apply list_elem_of_singleton in Hin as ->.
    apply alookup_None in Hn. contradiction.
  - cbn. apply NoDup_singleton.
Qed.

Lemma aalter_is_node {V} (F : V -> V) (a m : nat) (d : list (nat * V)) :
  is_Some (alookup m (aalter F a d)) <-> is_Some (alookup m d).
Proof. rewrite !alookup_is_Some, keys_aalter. reflexivity. Qed.

(** What [add_edge] leaves at every pair of nodes. *)
Lemma nx_edge_data_add_edge (u v : nat) (attr : attrs) g (x y : nat) :
  nx_edge_data (nx_add_edge u v attr g) x y
  = if same_bond (u, v) (x, y)
    then Some (attr ∪ default ∅ (nx_edge_data g u v))
    else nx_edge_data g x y.
Proof.
  unfold nx_add_edge. rewrite !nx_edge_data_add_node.
  set (g2 := nx_add_node v (nx_add_node u g)).
  set (dd := attr ∪ default ∅ (nx_edge_data g u v)).
  assert (Hu : is_Some (alookup u g2)).
  { apply nx_add_node_is_node. right. apply nx_add_node_is_node. left. reflexivity. }
  assert (Hv : is_Some (alookup v g2)).
  { apply nx_add_node_is_node. left. reflexivity. }
  rewrite nx_edge_data_store by (apply aalter_is_node; exact Hv).
  rewrite nx_edge_data_store by exact Hu.
  unfold g2. rewrite !nx_edge_data_add_node.
  unfold same_bond. cbn [fst snd].
  destruct (Nat.eqb_spec x v), (Nat.eqb_spec y u), (Nat.eqb_spec x u),
    (Nat.eqb_spec y v); subst; cbn [andb];
    (destruct (bool_decide _) eqn:Hd;
     [apply bool_decide_eq_true_1 in Hd | apply bool_decide_eq_false_1 in Hd]);
    try reflexivity; exfalso;
    first [ apply Hd; left; reflexivity
          | apply Hd; right; reflexivity
          | destruct Hd as [Hd | Hd]; injection Hd; intros; congruence ].
Qed.

End graph_properties.

Section graph_invariants.
Implicit Types g : nxGraph.

Lemma nx_add_edge_keys (u v : nat) (attr : attrs) g :
  NoDup g.*1 -> NoDup (nx_add_edge u v attr g).*1.
Proof.
  intros Hnd. unfold nx_add_edge. rewrite !keys_aalter.
  apply nx_add_node_keys, nx_add_node_keys, Hnd.
Qed.

(** What a write to an edge attribute leaves at every pair of nodes. *)
Lemma nx_edge_data_set_edge_attr (u v : nat) (key : string) (value : bool) g g' (x y : nat) :
  nx_set_edge_attr u v key value g = Ok g' ->
  nx_edge_data g' x y
  = if same_bond (u, v) (x, y)
    then insert key value <$> nx_edge_data g x y
    else nx_edge_data g x y.
Proof.
  unfold nx_set_edge_attr. destruct (nx_edge_data g u v); [| discriminate].
  intros [= <-]. rewrite !nx_edge_data_update.
  unfold same_bond. cbn [fst snd].
  destruct (Nat.eqb_spec x v), (Nat.eqb_spec y u), (Nat.eqb_spec x u),
    (Nat.eqb_spec y v); subst; cbn [andb];
    (destruct (bool_decide _) eqn:Hd;
     [apply bool_decide_eq_true_1 in Hd | apply bool_decide_eq_false_1 in Hd]);
    try reflexivity;
    try (destruct (nx_edge_data g _ _); cbn; [rewrite insert_insert_eq |]; reflexivity);
    exfalso;
    first [ apply Hd; left; reflexivity
          | apply Hd; right; reflexivity
          | destruct Hd as [Hd | Hd]; injection Hd; intros; congruence ].
Qed.

Lemma nx_set_edge_attr_keys (u v : nat) (key : string) (value : bool) g g' :
  nx_set_edge_attr u v key value g = Ok g' -> g'.*1 = g.*1.
Proof.
  unfold nx_set_edge_attr. destruct (nx_edge_data g u v); [| discriminate].
  intros [= <-]. rewrite !keys_aalter. reflexivity.
Qed.

Lemma nx_set_edge_attr_edge (u v : nat) (key : string) (value : bool) g :
  is_Some (nx_edge_data g u v) -> exists g', nx_set_edge_attr u v key value g = Ok g'.
Proof.
  intros [d Hd]. unfold nx_set_edge_attr. rewrite Hd. eexists. reflexivity.
Qed.

Lemma nx_edge_data_sym g (x y : nat) :
  nx_wf g -> nx_edge_data g x y = nx_edge_data g y x.
Proof.
  intros [_ Hsym].
  destruct (nx_edge_data g x y) as [d |] eqn:Hxy.
  - symmetry. apply Hsym, Hxy.
  - destruct (nx_edge_data g y x) as [d |] eqn:Hyx; [| reflexivity].
    apply Hsym in Hyx. congruence.
Qed.

Lemma nx_wf_add_edge (u v : nat) (attr : attrs) g :
  nx_wf g -> nx_wf (nx_add_edge u v attr g).
Proof.
  intros Hwf. split.
  - apply nx_add_edge_keys, Hwf.
  - intros x y d. rewrite !nx_edge_data_add_edge, (same_bond_swap (u, v) x y).
    destruct (same_bond (u, v) (x, y)); [intros H; exact H |].
    apply Hwf.
Qed.

Lemma nx_wf_set_edge_attr (u v : nat) (key : string) (value : bool) g g' :
  nx_wf g -> nx_set_edge_attr u v key value g = Ok g' -> nx_wf g'.
Proof.
  intros Hwf Hset. split.
  - rewrite (nx_set_edge_attr_keys _ _ _ _ _ _ Hset). apply Hwf.
  - intros x y d.
    rewrite !(nx_edge_data_set_edge_attr _ _ _ _ _ _ _ _ Hset).
    rewrite (same_bond_swap (u, v) x y), (nx_edge_data_sym g y x Hwf).
    intros H; exact H.
Qed.

(** ** [edges()] and the adjacency *)

Lemma elem_of_nx_edges_from_head (seen : list nat) (n : nat) (nbrs : list (nat * attrs)) (x y : nat) :
  (x, y) ∈ pair n <$> filter (fun nbr => nbr ∉ seen) nbrs.*1
  <-> x = n ∧ (y ∉ seen) ∧ is_Some (alookup y nbrs).
Proof.
  rewrite alookup_is_Some. split.
  - intros Hin. apply list_elem_of_fmap in Hin as (k & [= -> ->] & Hk).
    apply list_elem_of_filter in Hk as [Hseen Hk]. auto.
  - intros (-> & Hseen & Hk). apply list_elem_of_fmap. exists y.
    split; [reflexivity |]. apply list_elem_of_filter. auto.
Qed.

(** Every pair that [edges()] yields is in the adjacency. *)
Lemma nx_edges_from_edge_data (seen : list nat) g (x y : nat) :
  NoDup g.*1 -> (x, y) ∈ nx_edges_from seen g -> is_Some (nx_edge_data g x y).
Proof.
  revert seen. induction g as [| [n nbrs] g IH]; intros seen Hnd Hin.
  - inversion Hin.
  - cbn [nx_edges_from] in Hin. cbn in Hnd. apply NoDup_cons in Hnd as [Hn Hnd].
    unfold nx_edge_data. cbn [alookup].
    apply elem_of_app in Hin as [Hin | Hin].
    + apply elem_of_nx_edges_from_head in Hin as (-> & _ & Hy).
      rewrite Nat.eqb_refl. exact Hy.
    + specialize (IH _ Hnd Hin). unfold nx_edge_data in IH.
      destruct (Nat.eqb_spec x n) as [-> | Hne]; [| exact IH].
      exfalso. apply Hn, alookup_is_Some.
      destruct (alookup n g); [eexists; reflexivity |].
      destruct IH as [d Hd]. discriminate Hd.
Qed.

(** An edge of the adjacency is yielded by [edges()], from one of its
    two ends. *)
Lemma edge_data_nx_edges_from (seen : list nat) g (x y : nat) :
  is_Some (nx_edge_data g x y) -> is_Some (nx_edge_data g y x) ->
  x ∉ seen -> y ∉ seen ->
  (x, y) ∈ nx_edges_from seen g ∨ (y, x) ∈ nx_edges_from seen g.
Proof.
  revert seen. induction g as [| [n nbrs] g IH]; intros seen Hxy Hyx Hx Hy.
  - destruct Hxy as [d Hd]. discriminate Hd.
  - cbn [nx_edges_from]. unfold nx_edge_data in Hxy, Hyx. cbn [alookup] in Hxy, Hyx.
    destruct (Nat.eqb_spec x n) as [-> | Hxn].
    + left. apply elem_of_app. left.
      apply elem_of_nx_edges_from_head. auto.
    + destruct (Nat.eqb_spec y n) as [-> | Hyn].
      * right. apply elem_of_app. left.
        apply elem_of_nx_edges_from_head. auto.
      * destruct (IH (n :: seen) Hxy Hyx) as [Hin | Hin].
        -- apply not_elem_of_cons. auto.
        -- apply not_elem_of_cons. auto.
        -- left. apply elem_of_app. right. exact Hin.
        -- right. apply elem_of_app. right. exact Hin.
Qed.

Lemma nx_edges_edge_data g (x y : nat) :
  nx_wf g -> (x, y) ∈ nx_edges g -> is_Some (nx_edge_data g x y).
Proof. intros [Hnd _]. apply nx_edges_from_edge_data, Hnd. Qed.

Lemma edge_data_nx_edges g (x y : nat) :
  nx_wf g -> is_Some (nx_edge_data g x y) ->
  (x, y) ∈ nx_edges g ∨ (y, x) ∈ nx_edges g.
Proof.
  intros Hwf Hxy. apply edge_data_nx_edges_from.
  - exact Hxy.
  - rewrite <- (nx_edge_data_sym g x y Hwf). exact Hxy.
  - apply not_elem_of_nil.
  - apply not_elem_of_nil.
Qed.

End graph_invariants.

(** ** [get_active_mol_graph] *)

Section active_graph.
Context `{rdkit : RDKit}.

Lemma Graph_copy_run (l : loc) (g : nxGraph) (h : store) :
  h !! l = Some g ->
  Graph_copy l h = Ok (fresh (dom h), <[fresh (dom h) := g]> h).
Proof.
  intros Hl. unfold Graph_copy.
  rewrite (mbind_run _ _ _ _ _ (deref_run _ _ _ Hl)). reflexivity.
Qed.

Lemma Graph_add_edge_run (l : loc) (u v : nat) (attr : attrs) (g : nxGraph) (h : store) :
  h !! l = Some g ->
  Graph_add_edge l u v attr h = Ok (tt, <[l := nx_add_edge u v attr g]> h).
Proof.
  intros Hl. unfold Graph_add_edge.
  rewrite (mbind_run _ _ _ _ _ (deref_run _ _ _ Hl)). reflexivity.
Qed.

Lemma Graph_set_edge_attr_run (l : loc) (u v : nat) (key : string) (value : bool)
    (g g' : nxGraph) (h : store) :
  h !! l = Some g -> nx_set_edge_attr u v key value g = Ok g' ->
  Graph_set_edge_attr l u v key value h = Ok (tt, <[l := g']> h).
Proof.
  intros Hl Hset. unfold Graph_set_edge_attr.
  rewrite (mbind_run _ _ _ _ _ (deref_run _ _ _ Hl)), Hset. reflexivity.
Qed.

Lemma same_bond_edge (b e p : bond) :
  same_bond b e = true -> same_bond (e.1, e.2) p = same_bond b p.
Proof.
  unfold same_bond. intros He. apply bool_decide_eq_true_1 in He.
  apply bool_decide_ext. destruct b as [u v], e as [e1 e2]. cbn [fst snd] in *.
  destruct He as [[= -> ->] | [= -> ->]]; tauto.
Qed.

(** The inner loop of [get_active_mol_graph] over edges that are in the
    adjacency: [has_edge] becomes true when an edge is the bond in one of
    its orientations, and then that edge is marked. *)
Lemma mark_loop_run (l : loc) (b : bond) (es : list bond) :
  forall (has_edge : bool) (g : nxGraph) (h : store),
  h !! l = Some g ->
  (forall e, e ∈ es -> is_Some (nx_edge_data g e.1 e.2)) ->
  exists g',
    mfoldl (fun (has_edge : bool) (edge : bond) =>
              if bool_decide (edge = b ∨ edge = (b.2, b.1)) then
                let! _ := Graph_set_edge_attr l edge.1 edge.2 "active" true in
                mret true
              else mret has_edge) has_edge es h
    = Ok (has_edge || existsb (same_bond b) es, <[l := g']> h)
    ∧ g'.*1 = g.*1
    ∧ (existsb (same_bond b) es = false -> g' = g)
    ∧ forall x y,
        nx_edge_data g' x y
        = if existsb (same_bond b) es && same_bond b (x, y)
          then insert "active" true <$> nx_edge_data g x y
          else nx_edge_data g x y.
Proof.
  induction es as [| e es IH]; intros has_edge g h Hl Hes.
  - exists g. cbn [mfoldl existsb]. rewrite orb_false_r, insert_id by exact Hl.
    repeat split.
  - cbn [mfoldl existsb].
    destruct (same_bond b e) eqn:He.
    + destruct (nx_set_edge_attr_edge e.1 e.2 "active" true g) as [g1 Hset];
        [apply Hes; left |].
      pose proof (fun x y => nx_edge_data_set_edge_attr _ _ _ _ _ _ x y Hset) as Hdata1.
      assert (Hl1 : <[l := g1]> h !! l = Some g1) by apply lookup_insert_eq.
      destruct (IH true g1 (<[l := g1]> h) Hl1) as (g' & Hrun & Hkeys & _ & Hdata).
      { intros e' He'. rewrite Hdata1.
        destruct (same_bond (e.1, e.2) (e'.1, e'.2));
          [apply fmap_is_Some |]; apply Hes; right; exact He'. }
      exists g'. split; [| split; [| split]].
      * unfold same_bond in He. unfold mbind at 1. rewrite He.
        unfold mbind at 1.
        rewrite (Graph_set_edge_attr_run _ _ _ _ _ _ _ _ Hl Hset).
        cbn [rbind mret fst snd]. rewrite Hrun, insert_insert_eq.
        cbn [orb]. rewrite orb_true_r. reflexivity.
      * rewrite Hkeys. apply (nx_set_edge_attr_keys _ _ _ _ _ _ Hset).
      * cbn [orb]. discriminate.
      * intros x y. rewrite Hdata, Hdata1, (same_bond_edge _ _ _ He). cbn [orb andb].
        destruct (existsb (same_bond b) es), (same_bond b (x, y)); cbn [andb];
          try reflexivity.
        destruct (nx_edge_data g x y); cbn; [rewrite insert_insert_eq |]; reflexivity.
    + destruct (IH has_edge g h Hl) as (g' & Hrun & Hkeys & Hsame & Hdata).
      { intros e' He'. apply Hes. right. exact He'. }
      exists g'. split; [| split; [| split]].
      * unfold same_bond in He. unfold mbind at 1. rewrite He.
        cbn [mret rbind fst snd orb]. exact Hrun.
      * exact Hkeys.
      * cbn [orb]. exact Hsame.
      * intros x y. rewrite Hdata. reflexivity.
Qed.

(** One turn of the outer loop: afterwards the bond is an edge, in both
    orientations, whose data dict is the one it had (an empty one if it
    was no edge) with [active] set. *)
Lemma mark_active_run (l : loc) (b : bond) (g : nxGraph) (h : store) :
  h !! l = Some g -> nx_wf g ->
  exists g',
    mark_active l b h = Ok (tt, <[l := g']> h)
    ∧ nx_wf g'
    ∧ forall x y,
        nx_edge_data g' x y
        = if same_bond b (x, y)
          then Some (<["active" := true]> (default ∅ (nx_edge_data g x y)))
          else nx_edge_data g x y.
Proof.
  intros Hl Hwf. unfold mark_active.
  rewrite (mbind_run _ _ _ _ _ (Graph_edges_run _ _ _ Hl)).
  destruct (mark_loop_run l b (nx_edges g) false g h Hl) as (g1 & Hrun & Hkeys & Hsame & Hdata).
  { intros [e1 e2] He. apply (nx_edges_edge_data g e1 e2 Hwf He). }
  rewrite (mbind_run _ _ _ _ _ Hrun). cbn [orb].
  destruct (existsb (same_bond b) (nx_edges g)) eqn:Hex.
  - exists g1. split; [reflexivity |].
    apply existsb_exists in Hex as (e & He & Hbe).
    apply list_elem_of_In in He.
    assert (Hedge : forall x y, same_bond b (x, y) = true -> is_Some (nx_edge_data g x y)).
    { intros x y Hxy. destruct e as [e1 e2].
      pose proof (nx_edges_edge_data g e1 e2 Hwf He) as Hsome.
      unfold same_bond in Hbe, Hxy.
      apply bool_decide_eq_true_1 in Hbe. apply bool_decide_eq_true_1 in Hxy.
      destruct b as [u v]. cbn [fst snd] in *.
      destruct Hbe as [[= -> ->] | [= -> ->]], Hxy as [[= -> ->] | [= -> ->]];
        first [ exact Hsome | rewrite (nx_edge_data_sym g _ _ Hwf); exact Hsome ]. }
    split.
    + split.
      * rewrite Hkeys. apply Hwf.
      * intros x y d. rewrite !Hdata. cbn [andb].
        rewrite (same_bond_swap b x y), (nx_edge_data_sym g y x Hwf).
        intros H; exact H.
    + intros x y. rewrite Hdata. cbn [andb].
      destruct (same_bond b (x, y)) eqn:Hxy; [| reflexivity].
      destruct (Hedge x y Hxy) as [d Hd]. rewrite Hd. reflexivity.
  - rewrite (Hsame eq_refl) in *.
    exists (nx_add_edge b.1 b.2 {["active" := true]} g).
    split; [| split].
    + rewrite insert_id by exact Hl.
      apply (Graph_add_edge_run l b.1 b.2 _ g h Hl).
    + apply nx_wf_add_edge, Hwf.
    + intros x y. rewrite nx_edge_data_add_edge.
      destruct b as [u v]. cbn [fst snd].
      destruct (same_bond (u, v) (x, y)) eqn:Hxy; [| reflexivity].
      rewrite <- insert_union_singleton_l. f_equal. f_equal. f_equal.
      unfold same_bond in Hxy. apply bool_decide_eq_true_1 in Hxy.
      cbn [fst snd] in Hxy.
      destruct Hxy as [[= -> ->] | [= -> ->]]; [reflexivity |].
      apply (nx_edge_data_sym g _ _ Hwf).
Qed.

End active_graph.

Section active_graph_theorem.
Context `{rdkit : RDKit}.

Lemma existsb_same_bond (bonds : list bond) (x y : nat) :
  existsb (fun b => same_bond b (x, y)) bonds = true
  <-> (x, y) ∈ bonds ∨ (y, x) ∈ bonds.
Proof.
  rewrite existsb_exists. split.
  - intros ([u v] & Hin & Hb). apply list_elem_of_In in Hin.
    unfold same_bond in Hb. apply bool_decide_eq_true_1 in Hb. cbn [fst snd] in Hb.
    destruct Hb as [[= -> ->] | [= -> ->]]; auto.
  - intros [Hin | Hin]; apply list_elem_of_In in Hin.
    + exists (x, y). split; [exact Hin |].
      apply bool_decide_eq_true_2. left. reflexivity.
    + exists (y, x). split; [exact Hin |].
      apply bool_decide_eq_true_2. right. reflexivity.
Qed.

(** The outer loop: every pair that is one of the bonds, in either
    orientation, ends as an edge whose data dict is the one it had (an
    empty one if it was no edge) with [active] set; nothing else
    changes. *)
Lemma mark_all_run (l : loc) (bonds : list bond) :
  forall (g : nxGraph) (h : store),
  h !! l = Some g -> nx_wf g ->
  exists g',
    mfor bonds (mark_active l) h = Ok (tt, <[l := g']> h)
    ∧ nx_wf g'
    ∧ forall x y,
        nx_edge_data g' x y
        = if existsb (fun b => same_bond b (x, y)) bonds
          then Some (<["active" := true]> (default ∅ (nx_edge_data g x y)))
          else nx_edge_data g x y.
Proof.
  induction bonds as [| b bonds IH]; intros g h Hl Hwf.
  - exists g. cbn [mfor existsb]. rewrite insert_id by exact Hl.
    split; [reflexivity | split; [exact Hwf | reflexivity]].
  - destruct (mark_active_run l b g h Hl Hwf) as (g1 & Hrun1 & Hwf1 & Hdata1).
    assert (Hl1 : <[l := g1]> h !! l = Some g1) by apply lookup_insert_eq.
    destruct (IH g1 (<[l := g1]> h) Hl1 Hwf1) as (g' & Hrun & Hwf' & Hdata).
    rewrite insert_insert_eq in Hrun.
    exists g'. split; [| split; [exact Hwf' |]].
    + cbn [mfor]. rewrite (mbind_run _ _ _ _ _ Hrun1). exact Hrun.
    + intros x y. rewrite Hdata, Hdata1. cbn [existsb].
      destruct (same_bond b (x, y)), (existsb (fun b0 => same_bond b0 (x, y)) bonds);
        cbn [orb from_option id]; rewrite ?insert_insert_eq; reflexivity.
Qed.

(** C8: for a molecule whose graph is built, [get_active_mol_graph]
    returns a new graph in which every supplied pair is an edge with
    [active=True], from either end: an edge that was there, in either
    orientation, keeps its data dict with [active] set; a pair that was no
    edge becomes a new edge whose only attribute is [active]; every
    other pair of nodes is as before.  The graph of the molecule is not
    touched: the result is another object, and every object that was in
    the store is as it was. *)
Theorem get_active_mol_graph_activates (self : Molecule) (active_bonds : list bond)
    (h : store) (l : loc) (g : nxGraph) :
  graph self = Some l -> h !! l = Some g -> nx_wf g ->
  exists (l' : loc) (g' : nxGraph),
    get_active_mol_graph self active_bonds h = Ok (l', <[l' := g']> h)
    ∧ h !! l' = None
    ∧ <[l' := g']> h !! l = Some g
    ∧ (forall l0, is_Some (h !! l0) -> <[l' := g']> h !! l0 = h !! l0)
    ∧ nx_wf g'
    ∧ (forall u v, (u, v) ∈ active_bonds ->
         ((u, v) ∈ nx_edges g' ∨ (v, u) ∈ nx_edges g')
         ∧ nx_edge_data g' u v
           = Some (<["active" := true]> (default ∅ (nx_edge_data g u v)))
         ∧ nx_edge_data g' v u = nx_edge_data g' u v
         ∧ (nx_edge_data g' u v ≫= fun d => d !! "active") = Some true)
    ∧ (forall x y, (x, y) ∉ active_bonds -> (y, x) ∉ active_bonds ->
         nx_edge_data g' x y = nx_edge_data g x y).
Proof.
  intros Hg Hl Hwf.
  set (l' := fresh (dom h)).
  assert (Hfresh : h !! l' = None) by apply alloc_fresh.
  assert (Hl' : <[l' := g]> h !! l' = Some g) by apply lookup_insert_eq.
  destruct (mark_all_run l' active_bonds g (<[l' := g]> h) Hl' Hwf)
    as (g' & Hrun & Hwf' & Hdata).
  rewrite insert_insert_eq in Hrun.
  assert (Hother : forall l0, is_Some (h !! l0) -> <[l' := g']> h !! l0 = h !! l0).
  { intros l0 [g0 Hg0]. apply lookup_insert_ne. intros <-. congruence. }
  exists l', g'. split; [| split; [exact Hfresh | split; [| split; [exact Hother |]]]].
  - unfold get_active_mol_graph, self_graph. rewrite Hg. cbn [not_none].
    rewrite (mbind_run _ _ h h l eq_refl).
    rewrite (mbind_run _ _ _ _ _ (Graph_copy_run _ _ _ Hl)).
    fold l'. rewrite (mbind_run _ _ _ _ _ Hrun). reflexivity.
  - rewrite Hother, Hl by (eexists; exact Hl). reflexivity.
  - split; [exact Hwf' |]. split.
    + intros u v Huv.
      assert (Hex : existsb (fun b => same_bond b (u, v)) active_bonds = true)
        by (apply existsb_same_bond; left; exact Huv).
      assert (Hdata_uv : nx_edge_data g' u v
                = Some (<["active" := true]> (default ∅ (nx_edge_data g u v)))).
      { rewrite Hdata, Hex. reflexivity. }
      split; [| split; [exact Hdata_uv | split]].
      * apply (edge_data_nx_edges g' u v Hwf'). rewrite Hdata_uv. eexists. reflexivity.
      * apply (nx_edge_data_sym g' v u Hwf').
      * rewrite Hdata_uv. cbn. apply lookup_insert_eq.
    + intros x y Hxy Hyx. rewrite Hdata.
      destruct (existsb (fun b => same_bond b (x, y)) active_bonds) eqn:Hex;
        [| reflexivity].
      apply existsb_same_bond in Hex as [Hin | Hin]; contradiction.
Qed.

End active_graph_theorem.

(** ** More on [strip_non_unique_confs] *)

Section strip_properties.
Context `{rdkit : RDKit} `{autode : !Autode}.
Implicit Types (confs : list Conformer) (d_e : Q).

Lemma py_truediv_nonzero (a b : Q) : ~ (b == 0)%Q -> py_truediv a b = Ok (a / b)%Q.
Proof.
  intros Hb. unfold py_truediv.
  destruct (Qeq_bool b 0) eqn:E; [| reflexivity].
  apply Qeq_bool_iff in E. contradiction.
Qed.

Lemma energy_of_ok confs (i : nat) (c : Conformer) (e : Q) :
  confs !! i = Some c -> conf_energy c = Some e -> energy_of confs i = Ok e.
Proof.
  intros Hc He. unfold energy_of, get_item. rewrite Hc. cbn. rewrite He. reflexivity.
Qed.

Lemma energy_of_ok_inv confs (i : nat) (e : Q) :
  energy_of confs i = Ok e ->
  exists c, confs !! i = Some c ∧ conf_energy c = Some e.
Proof.
  unfold energy_of, get_item. destruct (confs !! i) as [c |]; cbn; [| discriminate].
  destruct (conf_energy c) as [e' |] eqn:He; cbn; [| discriminate].
  intros [= ->]. exists c. split; [reflexivity | exact He].
Qed.

Lemma energy_of_outcome confs (i : nat) :
  i < length confs ->
  (exists e, energy_of confs i = Ok e) ∨ energy_of confs i = Raise TypeError.
Proof.
  intros Hi. apply lookup_lt_is_Some_2 in Hi as [c Hc].
  unfold energy_of, get_item. rewrite Hc. cbn.
  destruct (conf_energy c); cbn; [left; eexists; reflexivity | right; reflexivity].
Qed.

Lemma energy_of_beyond confs (i : nat) :
  length confs <= i -> energy_of confs i = Raise IndexError.
Proof.
  intros Hi. unfold energy_of, get_item.
  rewrite (lookup_ge_None_2 _ _ Hi). reflexivity.
Qed.

Lemma is_unique_outcome confs d_e (i : nat) (js : list nat) :
  i < length confs -> Forall (fun j => j < length confs) js ->
  (exists b, is_unique confs d_e i js = Ok b)
  ∨ is_unique confs d_e i js = Raise TypeError.
Proof.
  intros Hi Hjs. induction Hjs as [| j js Hj _ IH]; [left; eexists; reflexivity |].
  cbn [is_unique].
  destruct (energy_of_outcome confs i Hi) as [[e_i ->] | ->]; cbn [rbind];
    [| right; reflexivity].
  destruct (energy_of_outcome confs j Hj) as [[e_j ->] | ->]; cbn [rbind];
    [| right; reflexivity].
  destruct (_ && _); [left; eexists; reflexivity | exact IH].
Qed.

Lemma is_unique_total confs d_e (i : nat) (js : list nat) :
  (exists e, energy_of confs i = Ok e) ->
  Forall (fun j => exists e, energy_of confs j = Ok e) js ->
  exists b, is_unique confs d_e i js = Ok b.
Proof.
  intros [e_i Hi] Hjs. induction Hjs as [| j js [e_j Hj] _ IH]; [eexists; reflexivity |].
  cbn [is_unique]. rewrite Hi, Hj. cbn [rbind].
  destruct (_ && _); [eexists; reflexivity | exact IH].
Qed.

Lemma is_unique_ok_inv confs d_e (i j : nat) (js : list nat) (b : bool) :
  is_unique confs d_e i (j :: js) = Ok b ->
  (exists e, energy_of confs i = Ok e) ∧ (exists e, energy_of confs j = Ok e).
Proof.
  cbn [is_unique].
  destruct (energy_of confs i) as [e_i | |]; cbn [rbind]; [| discriminate ..].
  destruct (energy_of confs j) as [e_j | |]; cbn [rbind]; [| discriminate ..].
  intros _. split; eexists; reflexivity.
Qed.

(** Energies at least [d_e] apart are outside each other's window. *)
Lemma window_apart (d_e e_i e_j : Q) :
  (d_e <= Qabs (e_i - e_j))%Q ->
  Qltb (e_i - d_e) e_j && Qltb e_j (e_i + d_e) = false.
Proof.
  intros Hapart. apply not_true_is_false. intros Hin.
  apply andb_prop in Hin as [Hlo Hhi].
  apply Qltb_lt in Hlo. apply Qltb_lt in Hhi.
  assert (Hlt : (Qabs (e_i - e_j) < d_e)%Q)
    by (apply Qabs_diff_Qlt_condition; split; assumption).
  apply (Qlt_not_le _ _ Hlt Hapart).
Qed.

Lemma is_unique_separated confs d_e (i : nat) (e_i : Q) (js : list nat) :
  energy_of confs i = Ok e_i ->
  Forall (fun j => exists e_j, energy_of confs j = Ok e_j
                               ∧ (d_e <= Qabs (e_i - e_j))%Q) js ->
  is_unique confs d_e i js = Ok true.
Proof.
  intros Hi Hjs. induction Hjs as [| j js (e_j & Hj & Hapart) _ IH]; [reflexivity |].
  cbn [is_unique]. rewrite Hi, Hj. cbn [rbind].
  rewrite (window_apart _ _ _ Hapart). exact IH.
Qed.

Lemma strip_loop_app confs d_e (acc : list Conformer) (l1 l2 : list nat) :
  strip_loop confs d_e acc (l1 ++ l2)
  = let* acc' := strip_loop confs d_e acc l1 in strip_loop confs d_e acc' l2.
Proof.
  revert acc. induction l1 as [| i l1 IH]; intros acc; [reflexivity |].
  cbn [app strip_loop].
  destruct (is_unique confs d_e i (seq 0 (length acc))) as [[] | |]; cbn [rbind];
    try reflexivity.
  - destruct (get_item confs i); cbn [rbind]; [apply IH | reflexivity ..].
  - apply IH.
Qed.

(** The loop over [range(a, a + k)] when every energy it can read is
    assigned: it returns, and what it appends is picked, in order, from
    the conformers [a] to [a + k - 1]. *)
Lemma strip_loop_total confs d_e (n : nat) :
  n <= length confs ->
  (forall i, i < n -> exists e, energy_of confs i = Ok e) ->
  forall (k a : nat) (acc : list Conformer),
  length acc <= a -> a + k <= n ->
  exists added,
    strip_loop confs d_e acc (seq a k) = Ok (acc ++ added)
    ∧ added `sublist_of` take k (drop a confs).
Proof.
  intros Hn Hassigned. induction k as [| k IH]; intros a acc Hacc Hak.
  - exists []. rewrite app_nil_r. split; [reflexivity | constructor].
  - cbn [seq strip_loop].
    destruct (is_unique_total confs d_e a (seq 0 (length acc))) as [b Hb].
    { apply Hassigned. lia. }
    { apply Forall_forall. intros j Hj. apply elem_of_seq in Hj.
      apply Hassigned. lia. }
    rewrite Hb. cbn [rbind].
    destruct (lookup_lt_is_Some_2 confs a) as [c Hc]; [lia |].
    rewrite (drop_S _ _ _ Hc). cbn [take].
    destruct b.
    + unfold get_item. rewrite Hc. cbn [not_none rbind].
      destruct (IH (S a) (acc ++ [c])) as (added & Hrun & Hsub).
      { rewrite length_app. cbn. lia. }
      { lia. }
      exists (c :: added). rewrite Hrun, <- app_assoc. split; [reflexivity |].
      apply sublist_skip, Hsub.
    + destruct (IH (S a) acc) as (added & Hrun & Hsub); [lia | lia |].
      exists added. split; [exact Hrun |]. apply sublist_cons, Hsub.
Qed.

(** Within the list, the loop returns or raises [TypeError]: no other
    outcome. *)
Lemma strip_loop_outcome confs d_e :
  forall (k a : nat) (acc : list Conformer),
  length acc <= a -> a + k <= length confs ->
  (exists out, strip_loop confs d_e acc (seq a k) = Ok out)
  ∨ strip_loop confs d_e acc (seq a k) = Raise TypeError.
Proof.
  induction k as [| k IH]; intros a acc Hacc Hak; [left; eexists; reflexivity |].
  cbn [seq strip_loop].
  destruct (is_unique_outcome confs d_e a (seq 0 (length acc))) as [[b ->] | ->];
    cbn [rbind]; [lia | | | right; reflexivity].
  { apply Forall_forall. intros j Hj. apply elem_of_seq in Hj. lia. }
  destruct (lookup_lt_is_Some_2 confs a) as [c Hc]; [lia |].
  destruct b.
  - unfold get_item. rewrite Hc. cbn [not_none rbind].
    apply IH; [rewrite length_app; cbn; lia | lia].
  - apply IH; lia.
Qed.

(** When the loop returns, every energy it had to read was assigned. *)
Lemma strip_loop_ok_inv confs d_e (idxs : list nat) :
  forall (acc out : list Conformer),
  0 < length acc ->
  strip_loop confs d_e acc idxs = Ok out ->
  Forall (fun i => exists e, energy_of confs i = Ok e) idxs
  ∧ (idxs <> [] -> exists e, energy_of confs 0 = Ok e).
Proof.
  induction idxs as [| i idxs IH]; intros acc out Hacc Hrun.
  - split; [constructor | intros Hne; contradiction].
  - cbn [strip_loop] in Hrun.
    destruct (is_unique confs d_e i (seq 0 (length acc))) as [b | |] eqn:Hb;
      cbn [rbind] in Hrun; [| discriminate ..].
    destruct (length acc) as [| m] eqn:Hm; [lia |].
    cbn [seq] in Hb. apply is_unique_ok_inv in Hb as [Hi H0].
    assert (Hrest : Forall (fun i => exists e, energy_of confs i = Ok e) idxs).
    { destruct b.
      - destruct (get_item confs i) as [c | |]; cbn [rbind] in Hrun; [| discriminate ..].
        apply (IH (acc ++ [c]) out); [rewrite length_app; lia | exact Hrun].
      - apply (IH acc out); [lia | exact Hrun]. }
    split; [constructor; assumption | intros _; exact H0].
Qed.

(** With all energies at least [d_e] apart nothing is dropped. *)
Lemma strip_loop_separated confs d_e (n : nat) :
  n <= length confs ->
  (forall i j, i < n -> j < i ->
     exists e_i e_j, energy_of confs i = Ok e_i ∧ energy_of confs j = Ok e_j
                     ∧ (d_e <= Qabs (e_i - e_j))%Q) ->
  forall (k a : nat),
  0 < a -> a + k <= n ->
  strip_loop confs d_e (take a confs) (seq a k) = Ok (take (a + k) confs).
Proof.
  intros Hn Hsep. induction k as [| k IH]; intros a Ha Hak.
  - rewrite Nat.add_0_r. reflexivity.
  - cbn [seq strip_loop]. rewrite length_take_le by lia.
    destruct (Hsep a 0) as (e_a & _ & He_a & _); [lia | lia |].
    rewrite (is_unique_separated confs d_e a e_a).
    + cbn [rbind].
      destruct (lookup_lt_is_Some_2 confs a) as [c Hc]; [lia |].
      unfold get_item. rewrite Hc. cbn [not_none rbind].
      rewrite <- (take_S_r _ _ _ Hc), (IH (S a)) by lia.
      f_equal. f_equal. lia.
    + exact He_a.
    + apply Forall_forall. intros j Hj. apply elem_of_seq in Hj.
      destruct (Hsep a j) as (e_a' & e_j & He_a' & He_j & Hapart); [lia | lia |].
      exists e_j. split; [exact He_j |].
      rewrite He_a in He_a'. injection He_a' as <-. exact Hapart.
Qed.

End strip_properties.

Section strip_theorems.
Context `{rdkit : RDKit} `{autode : !Autode}.
Implicit Types (confs : list Conformer).

(** The head of [strip_non_unique_confs] up to the loop. *)
Lemma strip_unfold (self : Molecule) (threshold_kj : Q) confs (first : Conformer) (n : nat) :
  ~ (ha2kJmol == 0)%Q ->
  conformers self = Some confs -> confs !! 0 = Some first ->
  n_conformers self = Some n ->
  strip_non_unique_confs self threshold_kj
  = let* unique_conformers :=
      strip_loop confs (threshold_kj / ha2kJmol) [first] (seq 1 (n - 1)) in
    Ok (with_n_conformers (with_conformers self (Some unique_conformers))
          (Some (length unique_conformers))).
Proof.
  intros Hha Hconfs Hfirst Hn. unfold strip_non_unique_confs, get_item.
  rewrite (py_truediv_nonzero _ _ Hha), Hconfs. cbn [rbind not_none].
  rewrite Hfirst, Hn. reflexivity.
Qed.

Lemma assigned_energy_of confs (n : nat) :
  n <= length confs ->
  (forall i c, i < n -> confs !! i = Some c -> is_Some (conf_energy c)) ->
  forall i, i < n -> exists e, energy_of confs i = Ok e.
Proof.
  intros Hn Hassigned i Hi.
  destruct (lookup_lt_is_Some_2 confs i) as [c Hc]; [lia |].
  destruct (Hassigned i c Hi Hc) as [e He].
  exists e. apply (energy_of_ok _ _ _ _ Hc He).
Qed.

(** X1: when the conformer list is not empty, the count is at most its
    length and the conformers counted have their energies,
    [strip_non_unique_confs] returns: it keeps the first conformer, what
    it keeps is picked from the counted conformers in their order, and
    [n_conformers] is set to the number kept.  Name, geometry, energy and
    graph of the molecule are as before. *)
Theorem strip_returns_ordered_selection (self : Molecule) (threshold_kj : Q)
    confs (n : nat) :
  ~ (ha2kJmol == 0)%Q ->
  conformers self = Some confs -> n_conformers self = Some n ->
  0 < length confs -> n <= length confs ->
  (forall i c, i < n -> confs !! i = Some c -> is_Some (conf_energy c)) ->
  exists self' out,
    strip_non_unique_confs self threshold_kj = Ok self'
    ∧ conformers self' = Some out
    ∧ n_conformers self' = Some (length out)
    ∧ out !! 0 = confs !! 0
    ∧ out `sublist_of` take (Nat.max 1 n) confs
    ∧ (name self', xyzs self', energy self', graph self', n_bonds self')
      = (name self, xyzs self, energy self, graph self, n_bonds self).
Proof.
  intros Hha Hconfs Hn Hlen Hle Hassigned.
  destruct confs as [| first rest]; [cbn in Hlen; lia |].
  rewrite (strip_unfold self threshold_kj _ first n Hha Hconfs eq_refl Hn).
  destruct n as [| n].
  - cbn [Nat.sub seq strip_loop rbind]. do 2 eexists.
    split; [reflexivity |]. split; [reflexivity |]. split; [reflexivity |].
    split; [reflexivity |]. split; [| reflexivity].
    cbn. apply sublist_skip, sublist_nil_l.
  - destruct (strip_loop_total (first :: rest) (threshold_kj / ha2kJmol) (S n) Hle
                (assigned_energy_of _ _ Hle Hassigned) n 1 [first])
      as (added & Hrun & Hsub); [cbn; lia | lia |].
    replace (S n - 1) with n by lia. rewrite Hrun. cbn [rbind].
    do 2 eexists.
    split; [reflexivity |]. split; [reflexivity |]. split; [reflexivity |].
    split; [reflexivity |]. split; [| reflexivity].
    replace (Nat.max 1 (S n)) with (S n) by lia.
    cbn. apply sublist_skip. cbn in Hsub. rewrite drop_0 in Hsub. exact Hsub.
Qed.

(** X2: a single counted conformer is kept without any energy being
    read; with two or more counted, a conformer among them that has no
    energy makes [strip_non_unique_confs] raise [TypeError]. *)
Theorem strip_needs_every_energy (self : Molecule) (threshold_kj : Q)
    confs (n : nat) :
  ~ (ha2kJmol == 0)%Q ->
  conformers self = Some confs -> n_conformers self = Some n ->
  0 < length confs -> n <= length confs ->
  (n <= 1 ->
   exists self' first,
     strip_non_unique_confs self threshold_kj = Ok self'
     ∧ confs !! 0 = Some first
     ∧ conformers self' = Some [first]
     ∧ n_conformers self' = Some 1)
  ∧ (2 <= n ->
     (exists i c, i < n ∧ confs !! i = Some c ∧ conf_energy c = None) ->
     strip_non_unique_confs self threshold_kj = Raise TypeError).
Proof.
  intros Hha Hconfs Hn Hlen Hle.
  destruct confs as [| first rest]; [cbn in Hlen; lia |].
  rewrite (strip_unfold self threshold_kj _ first n Hha Hconfs eq_refl Hn).
  split.
  - intros Hn1. replace (n - 1) with 0 by lia.
    cbn [seq strip_loop rbind]. do 2 eexists. repeat split.
  - intros Hn2 (i & c & Hi & Hc & Hnone).
    destruct (strip_loop_outcome (first :: rest) (threshold_kj / ha2kJmol)
                (n - 1) 1 [first]) as [[out Hrun] | ->];
      [cbn; lia | lia | | reflexivity].
    exfalso.
    apply strip_loop_ok_inv in Hrun as [Hidxs H0]; [| cbn; lia].
    assert (Hread : exists e, energy_of (first :: rest) i = Ok e).
    { destruct i as [| i].
      - apply H0. destruct n as [| [| n]]; [lia | lia |]. discriminate.
      - rewrite Forall_forall in Hidxs. apply Hidxs, elem_of_seq. lia. }
    destruct Hread as [e He].
    apply energy_of_ok_inv in He as (c' & Hc' & He).
    rewrite Hc in Hc'. injection Hc' as <-. congruence.
Qed.

(** The loop when the counted conformers are pairwise at least [d_e]
    apart. *)
Lemma strip_separated_run (self : Molecule) (threshold_kj : Q) confs (n : nat) :
  ~ (ha2kJmol == 0)%Q ->
  conformers self = Some confs -> n_conformers self = Some n ->
  1 <= n -> n <= length confs ->
  (forall i j c_i c_j, i < n -> j < i ->
     confs !! i = Some c_i -> confs !! j = Some c_j ->
     exists e_i e_j, conf_energy c_i = Some e_i ∧ conf_energy c_j = Some e_j
                     ∧ (threshold_kj / ha2kJmol <= Qabs (e_i - e_j))%Q) ->
  exists self',
    strip_non_unique_confs self threshold_kj = Ok self'
    ∧ conformers self' = Some (take n confs)
    ∧ n_conformers self' = Some n.
Proof.
  intros Hha Hconfs Hn Hn1 Hle Hsep.
  destruct confs as [| first rest]; [cbn in Hle; lia |].
  rewrite (strip_unfold self threshold_kj _ first n Hha Hconfs eq_refl Hn).
  pose proof (strip_loop_separated (first :: rest) (threshold_kj / ha2kJmol) n Hle)
    as Hloop.
  change [first] with (take 1 (first :: rest)).
  rewrite (Hloop) with (k := n - 1) (a := 1); [| | lia | lia].
  - replace (1 + (n - 1)) with n by lia. cbn [rbind]. eexists.
    split; [reflexivity |]. split; [reflexivity |].
    cbn [n_conformers with_n_conformers]. rewrite length_take_le by exact Hle.
    reflexivity.
  - intros i j Hi Hj.
    destruct (lookup_lt_is_Some_2 (first :: rest) i) as [c_i Hc_i]; [lia |].
    destruct (lookup_lt_is_Some_2 (first :: rest) j) as [c_j Hc_j]; [lia |].
    destruct (Hsep i j c_i c_j Hi Hj Hc_i Hc_j) as (e_i & e_j & He_i & He_j & Hapart).
    exists e_i, e_j. split; [apply (energy_of_ok _ _ _ _ Hc_i He_i) |].
    split; [apply (energy_of_ok _ _ _ _ Hc_j He_j) | exact Hapart].
Qed.


(** X4: with a threshold that is zero or negative nothing is dropped,
    not even conformers of equal energy: the window around an energy is
    open and is then empty. *)
Theorem strip_nonpositive_threshold_keeps_all (self : Molecule) (threshold_kj : Q)
    confs (n : nat) :
  (0 < ha2kJmol)%Q -> (threshold_kj <= 0)%Q ->
  conformers self = Some confs -> n_conformers self = Some n ->
  1 <= n -> n <= length confs ->
  (forall i c, i < n -> confs !! i = Some c -> is_Some (conf_energy c)) ->
  exists self',
    strip_non_unique_confs self threshold_kj = Ok self'
    ∧ conformers self' = Some (take n confs)
    ∧ n_conformers self' = Some n.
Proof.
  intros Hha Hthr Hconfs Hn Hn1 Hle Hassigned.
  apply strip_separated_run; try assumption.
  - intros Hzero. rewrite Hzero in Hha. discriminate Hha.
  - intros i j c_i c_j Hi Hj Hc_i Hc_j.
    destruct (Hassigned i c_i Hi Hc_i) as [e_i He_i].
    destruct (Hassigned j c_j) as [e_j He_j]; [lia | exact Hc_j |].
    exists e_i, e_j. split; [exact He_i |]. split; [exact He_j |].
    apply Qle_trans with 0%Q; [| apply Qabs_nonneg].
    apply Qle_shift_div_r; [exact Hha | lra].
Qed.

(** X5: what [strip_non_unique_confs] does on a molecule that is not
    ready for it: without a conformer list, or without a count, it raises
    [TypeError]; with an empty list it raises [IndexError]; with a count
    above the length of the list, and all energies assigned, it raises
    [IndexError] when the loop runs past the end of the list. *)
Theorem strip_unready_molecule_raises (self : Molecule) (threshold_kj : Q) :
  ~ (ha2kJmol == 0)%Q ->
  (conformers self = None ->
   strip_non_unique_confs self threshold_kj = Raise TypeError)
  ∧ (conformers self = Some [] ->
     strip_non_unique_confs self threshold_kj = Raise IndexError)
  ∧ (forall confs, conformers self = Some confs -> 0 < length confs ->
     n_conformers self = None ->
     strip_non_unique_confs self threshold_kj = Raise TypeError)
  ∧ (forall confs n, conformers self = Some confs -> 0 < length confs ->
     n_conformers self = Some n -> length confs < n ->
     (forall c, c ∈ confs -> is_Some (conf_energy c)) ->
     strip_non_unique_confs self threshold_kj = Raise IndexError).
Proof.
  intros Hha. split; [| split; [| split]].
  - intros Hnone. unfold strip_non_unique_confs.
    rewrite (py_truediv_nonzero _ _ Hha), Hnone. reflexivity.
  - intros Hempty. unfold strip_non_unique_confs.
    rewrite (py_truediv_nonzero _ _ Hha), Hempty. reflexivity.
  - intros confs Hconfs Hlen Hn. unfold strip_non_unique_confs.
    destruct confs as [| first rest]; [cbn in Hlen; lia |].
    rewrite (py_truediv_nonzero _ _ Hha), Hconfs, Hn. reflexivity.
  - intros confs n Hconfs Hlen Hn Hstale Hassigned.
    destruct confs as [| first rest]; [cbn in Hlen; lia |].
    rewrite (strip_unfold self threshold_kj _ first n Hha Hconfs eq_refl Hn).
    set (confs := first :: rest) in *.
    replace (n - 1) with ((length confs - 1) + (n - length confs)) by lia.
    rewrite seq_app, strip_loop_app.
    destruct (strip_loop_total confs (threshold_kj / ha2kJmol) (length confs)
                (Nat.le_refl _)) with (k := length confs - 1) (a := 1)
                                      (acc := [first])
      as (added & Hrun & _).
    + intros i Hi. destruct (lookup_lt_is_Some_2 confs i Hi) as [c Hc].
      destruct (Hassigned c) as [e He]; [apply (list_elem_of_lookup_2 _ _ _ Hc) |].
      exists e. apply (energy_of_ok _ _ _ _ Hc He).
    + cbn. lia.
    + lia.
    + rewrite Hrun. cbn [rbind].
      replace (1 + (length confs - 1)) with (length confs) by lia.
      destruct (n - length confs) as [| m] eqn:Hm; [lia |].
      cbn [seq strip_loop app length]. cbn [is_unique].
      rewrite (energy_of_beyond confs (length confs)) by lia. reflexivity.
Qed.

End strip_theorems.

(** ** More on initialisation from SMILES *)

Section init_smiles_properties.
Context `{rdkit : RDKit} `{autode : !Autode}.

(** [_init_smiles] once rdkit has given a mol object and one embedded
    geometry, by the two branches. *)
Lemma init_smiles_run (self : Molecule) (name_arg smiles_arg : string) (h : store)
    (mol : RDMol) (xyzs0 : list xyz) (rest : list (list xyz)) :
  smiles_to_mol smiles_arg = Ok mol ->
  gen_rdkit_conf_xyzs (read_mol_obj self mol) [0] = xyzs0 :: rest ->
  let l := fresh (dom h) in
  let self0 := with_xyzs (read_mol_obj self mol) (Some xyzs0) in
  _init_smiles self name_arg smiles_arg h
  = if rdkit_conformer_geometries_are_resonable [xyzs0] then
      let g := make_graph xyzs0 (Some (GetNumAtoms mol)) in
      if bool_decide (length (GetBonds mol) = nx_number_of_edges g) then
        Ok (with_distance_matrix (with_graph self0 (Some l))
              (Some (calc_distance_matrix xyzs0)), <[l := g]> h)
      else Exit
    else
      match gen_simanl_conf_xyzs (name self) (Some xyzs0)
              (get_bond_list_from_rdkit_bonds (GetBonds (EmbedMultipleConfs mol 1)))
              (GetFormalCharge mol) (Some 1) with
      | [] => Raise IndexError
      | xyzs1 :: _ =>
          let g := make_graph xyzs1 (Some (GetNumAtoms mol)) in
          Ok (with_distance_matrix
                (with_n_bonds
                   (with_graph
                      (with_xyzs (with_rdkit_conf_gen_is_fine self0 false) (Some xyzs1))
                      (Some l))
                   (Some (nx_number_of_edges g)))
                (Some (calc_distance_matrix xyzs1)), <[l := g]> h)
      end.
Proof.
  intros Hmol Hconf. cbv zeta. unfold _init_smiles.
  rewrite Hmol, (mbind_run _ _ h h mol eq_refl).
  rewrite Hconf. cbn [get_item lookup list_lookup not_none].
  rewrite (mbind_run _ _ h h xyzs0 eq_refl).
  destruct (rdkit_conformer_geometries_are_resonable [xyzs0]); cbn [negb].
  - destruct (bool_decide _) eqn:Hagree.
    + erewrite mbind_run; cycle 1.
      { rewrite (mbind_run _ _ h _ (fresh (dom h)) eq_refl).
        erewrite mbind_run; [reflexivity |].
        erewrite check_rdkit_graph_agreement_run;
          [| reflexivity | apply lookup_insert_eq].
        cbn [n_bonds with_graph with_xyzs read_mol_obj with_mol_obj with_mult
             with_charge with_n_bonds].
        apply bool_decide_eq_true_1 in Hagree.
        rewrite bool_decide_eq_true_2; [reflexivity | f_equal; exact Hagree]. }
      reflexivity.
    + apply mbind_exit.
      rewrite (mbind_run _ _ h _ (fresh (dom h)) eq_refl).
      apply mbind_exit.
      erewrite check_rdkit_graph_agreement_run;
        [| reflexivity | apply lookup_insert_eq].
      cbn [n_bonds with_graph with_xyzs read_mol_obj with_mol_obj with_mult
           with_charge with_n_bonds].
      apply bool_decide_eq_false_1 in Hagree.
      rewrite bool_decide_eq_false_2; [reflexivity |].
      intros [= Heq]. apply Hagree. exact Heq.
  - cbn [mol_obj with_rdkit_conf_gen_is_fine with_xyzs read_mol_obj with_mol_obj
         not_none name xyzs charge with_mult with_charge with_n_bonds with_n_atoms].
    destruct (gen_simanl_conf_xyzs _ _ _ _ _) as [| xyzs1 rest1] eqn:Hsim.
    + unfold mbind at 1. unfold mbind at 1. cbn [mfail rbind fst snd].
      unfold mbind at 1. cbn [n_atoms]. rewrite Hsim. reflexivity.
    + erewrite mbind_run; cycle 1.
      { rewrite (mbind_run _ _ h h (EmbedMultipleConfs mol 1) eq_refl).
        cbn [n_atoms]. rewrite Hsim. cbn [get_item lookup list_lookup not_none].
        rewrite (mbind_run _ _ h h xyzs1 eq_refl).
        rewrite (mbind_run _ _ h _ (fresh (dom h)) eq_refl).
        erewrite mbind_run; [reflexivity |].
        apply Graph_number_of_edges_run, lookup_insert_eq. }
      reflexivity.
Qed.

Lemma init_smiles_no_mol (self : Molecule) (name_arg smiles_arg : string) (h : store) :
  (smiles_to_mol smiles_arg = Exit -> _init_smiles self name_arg smiles_arg h = Exit)
  ∧ (forall e, smiles_to_mol smiles_arg = Raise e ->
     _init_smiles self name_arg smiles_arg h = Raise e).
Proof.
  split; [intros Hmol | intros e Hmol]; unfold _init_smiles; rewrite Hmol; reflexivity.
Qed.

Lemma init_smiles_no_conformer (self : Molecule) (name_arg smiles_arg : string)
    (h : store) (mol : RDMol) :
  smiles_to_mol smiles_arg = Ok mol ->
  gen_rdkit_conf_xyzs (read_mol_obj self mol) [0] = [] ->
  _init_smiles self name_arg smiles_arg h = Raise IndexError.
Proof.
  intros Hmol Hconf. unfold _init_smiles.
  rewrite Hmol, (mbind_run _ _ h h mol eq_refl), Hconf. reflexivity.
Qed.

(** What holds of every molecule that [_init_smiles] returns. *)
Lemma init_smiles_ok_inv (self : Molecule) (name_arg smiles_arg : string)
    (h h' : store) (self' : Molecule) :
  _init_smiles self name_arg smiles_arg h = Ok (self', h') ->
  exists (mol : RDMol) (geometry : list xyz),
    let l := fresh (dom h) in
    let g := make_graph geometry (Some (GetNumAtoms mol)) in
    smiles_to_mol smiles_arg = Ok mol
    ∧ h' = <[l := g]> h
    ∧ graph self' = Some l
    ∧ xyzs self' = Some geometry
    ∧ n_atoms self' = Some (GetNumAtoms mol)
    ∧ n_bonds self' = Some (nx_number_of_edges g)
    ∧ distance_matrix self' = Some (calc_distance_matrix geometry)
    ∧ charge self' = GetFormalCharge mol
    ∧ mult self' = _calc_multiplicity self (NumRadicalElectrons mol)
    ∧ mol_obj self' = Some (EmbedMultipleConfs mol 1)
    ∧ (name self', smiles self', solvent self', energy self', conformers self')
      = (name self, smiles self, solvent self, energy self, conformers self).
Proof.
  intros Hrun.
  destruct (smiles_to_mol smiles_arg) as [mol | e |] eqn:Hmol.
  - destruct (gen_rdkit_conf_xyzs (read_mol_obj self mol) [0]) as [| xyzs0 rest] eqn:Hconf.
    { rewrite (init_smiles_no_conformer _ _ _ _ _ Hmol Hconf) in Hrun. discriminate Hrun. }
    rewrite (init_smiles_run _ _ _ _ _ _ _ Hmol Hconf) in Hrun. cbv zeta in Hrun.
    destruct (rdkit_conformer_geometries_are_resonable [xyzs0]).
    + destruct (bool_decide _) eqn:Hagree; [| discriminate Hrun].
      apply bool_decide_eq_true_1 in Hagree.
      injection Hrun as <- <-. exists mol, xyzs0. cbv zeta.
      split; [reflexivity |]. split; [reflexivity |]. split; [reflexivity |].
      split; [reflexivity |]. split; [reflexivity |].
      split; [cbn; f_equal; exact Hagree |]. repeat split.
    + destruct (gen_simanl_conf_xyzs _ _ _ _ _) as [| xyzs1 rest1]; [discriminate Hrun |].
      injection Hrun as <- <-. exists mol, xyzs1. cbv zeta. repeat split.
  - destruct (init_smiles_no_mol self name_arg smiles_arg h) as [_ Hraise].
    rewrite (Hraise e Hmol) in Hrun. discriminate Hrun.
  - destruct (init_smiles_no_mol self name_arg smiles_arg h) as [Hexit _].
    rewrite (Hexit Hmol) in Hrun. discriminate Hrun.
Qed.

(** X6: every molecule that [_init_smiles] returns has its graph built
    from its geometry with the atom count of the rdkit mol object, a bond
    count equal to the number of edges of that graph, the distance matrix
    of that geometry, the formal charge of the mol object as its charge
    (the charge the molecule had is overwritten) and the multiplicity
    given by [_calc_multiplicity]; the graph is a new object and the
    store is otherwise as before. *)
Theorem init_smiles_result_is_consistent (self : Molecule) (name_arg smiles_arg : string)
    (h h' : store) (self' : Molecule) :
  _init_smiles self name_arg smiles_arg h = Ok (self', h') ->
  exists (mol : RDMol) (geometry : list xyz) (l : loc) (g : nxGraph),
    smiles_to_mol smiles_arg = Ok mol
    ∧ h !! l = None ∧ h' = <[l := g]> h
    ∧ graph self' = Some l
    ∧ xyzs self' = Some geometry
    ∧ g = make_graph geometry (Some (GetNumAtoms mol))
    ∧ n_atoms self' = Some (GetNumAtoms mol)
    ∧ n_bonds self' = Some (nx_number_of_edges g)
    ∧ Graph_number_of_edges l h' = Ok (nx_number_of_edges g, h')
    ∧ distance_matrix self' = Some (calc_distance_matrix geometry)
    ∧ charge self' = GetFormalCharge mol
    ∧ mult self' = (if decide (NumRadicalElectrons mol = 1%Z) then 2%Z else mult self).
Proof.
  intros Hrun.
  destruct (init_smiles_ok_inv _ _ _ _ _ _ Hrun)
    as (mol & geometry & Hmol & Hh' & Hgraph & Hxyzs & Hatoms & Hbonds & Hdm
        & Hcharge & Hmult & _).
  cbv zeta in *.
  exists mol, geometry, (fresh (dom h)), (make_graph geometry (Some (GetNumAtoms mol))).
  split; [exact Hmol |]. split; [apply alloc_fresh |]. split; [exact Hh' |].
  split; [exact Hgraph |]. split; [exact Hxyzs |]. split; [reflexivity |].
  split; [exact Hatoms |]. split; [exact Hbonds |].
  split; [rewrite Hh'; apply Graph_number_of_edges_run, lookup_insert_eq |].
  split; [exact Hdm |]. split; [exact Hcharge |].
  rewrite Hmult. unfold _calc_multiplicity.
  destruct (Z.eqb_spec (NumRadicalElectrons mol) 1), (decide (NumRadicalElectrons mol = 1%Z));
    congruence.
Qed.

(** X7: when the embedded geometry is judged not reasonable, the bond
    count of rdkit plays no part: [_init_smiles] takes the first geometry
    of the simulated annealing generator, clears
    [rdkit_conf_gen_is_fine], sets the bond count from the graph of that
    geometry and returns, whatever the number of rdkit bonds; it raises
    [IndexError] when the generator gives no geometry. *)
Theorem init_smiles_unreasonable_embedding (self : Molecule) (name_arg smiles_arg : string)
    (h : store) (mol : RDMol) (xyzs0 : list xyz) (rest : list (list xyz)) :
  smiles_to_mol smiles_arg = Ok mol ->
  gen_rdkit_conf_xyzs (read_mol_obj self mol) [0] = xyzs0 :: rest ->
  rdkit_conformer_geometries_are_resonable [xyzs0] = false ->
  let annealed :=
    gen_simanl_conf_xyzs (name self) (Some xyzs0)
      (get_bond_list_from_rdkit_bonds (GetBonds (EmbedMultipleConfs mol 1)))
      (GetFormalCharge mol) (Some 1) in
  (annealed = [] -> _init_smiles self name_arg smiles_arg h = Raise IndexError)
  ∧ (forall xyzs1 rest1, annealed = xyzs1 :: rest1 ->
     exists self',
       let g := make_graph xyzs1 (Some (GetNumAtoms mol)) in
       _init_smiles self name_arg smiles_arg h = Ok (self', <[fresh (dom h) := g]> h)
       ∧ rdkit_conf_gen_is_fine self' = false
       ∧ xyzs self' = Some xyzs1
       ∧ graph self' = Some (fresh (dom h))
       ∧ n_bonds self' = Some (nx_number_of_edges g)
       ∧ distance_matrix self' = Some (calc_distance_matrix xyzs1)).
Proof.
  intros Hmol Hconf Hbad annealed.
  pose proof (init_smiles_run self name_arg smiles_arg h mol xyzs0 rest Hmol Hconf) as Hrun.
  cbv zeta in Hrun. rewrite Hbad in Hrun. fold annealed in Hrun.
  split.
  - intros Hnil. rewrite Hrun, Hnil. reflexivity.
  - intros xyzs1 rest1 Hcons. rewrite Hrun, Hcons. eexists. cbv zeta.
    split; [reflexivity |]. repeat split.
Qed.

(** X8: a [RuntimeError] of rdkit while the mol object is made, in
    [MolFromSmiles] or in [AddHs], ends the process; any other exception
    of these two calls is not caught and leaves [_init_smiles] as it
    is. *)
Theorem init_smiles_rdkit_failure (self : Molecule) (name_arg smiles_arg : string)
    (h : store) :
  (MolFromSmiles smiles_arg = Raise RuntimeError ->
   _init_smiles self name_arg smiles_arg h = Exit)
  ∧ (forall mol, MolFromSmiles smiles_arg = Ok mol -> AddHs mol = Raise RuntimeError ->
     _init_smiles self name_arg smiles_arg h = Exit)
  ∧ (forall e, e <> RuntimeError -> MolFromSmiles smiles_arg = Raise e ->
     _init_smiles self name_arg smiles_arg h = Raise e)
  ∧ (forall mol e, e <> RuntimeError -> MolFromSmiles smiles_arg = Ok mol ->
     AddHs mol = Raise e ->
     _init_smiles self name_arg smiles_arg h = Raise e).
Proof.
  destruct (init_smiles_no_mol self name_arg smiles_arg h) as [Hexit Hraise].
  split; [| split; [| split]].
  - intros Hfail. apply Hexit. unfold smiles_to_mol. rewrite Hfail. reflexivity.
  - intros mol Hmol Hfail. apply Hexit. unfold smiles_to_mol.
    rewrite Hmol. cbn [rbind]. rewrite Hfail. reflexivity.
  - intros e He Hfail. apply Hraise. unfold smiles_to_mol. rewrite Hfail.
    cbn [rbind]. destruct e; try reflexivity. contradiction.
  - intros mol e He Hmol Hfail. apply Hraise. unfold smiles_to_mol.
    rewrite Hmol. cbn [rbind]. rewrite Hfail. destruct e; try reflexivity. contradiction.
Qed.

End init_smiles_properties.

(** ** More on [__init__] *)

Section init_properties.
Context `{rdkit : RDKit} `{autode : !Autode}.

Lemma init_unfold (name_arg : string) (smiles_arg : option string)
    (xyzs_arg : option (list xyz)) (solvent_arg : option string) (charge_arg mult_arg : Z) :
  __init__ name_arg smiles_arg xyzs_arg solvent_arg charge_arg mult_arg
  = let blank := blank_molecule name_arg smiles_arg xyzs_arg solvent_arg charge_arg mult_arg in
    let! self :=
      match smiles_arg with
      | Some (String a s) => _init_smiles blank name_arg (String a s)
      | _ => mret blank
      end in
    match xyzs_arg with
    | Some (x :: xs) => _init_xyzs self (x :: xs)
    | _ => mret self
    end.
Proof. reflexivity. Qed.

Lemma init_xyzs_run (self : Molecule) (xyzs_arg geometry : list xyz) (h : store) :
  xyzs self = Some geometry ->
  _init_xyzs self xyzs_arg h
  = Ok (with_distance_matrix
          (with_graph
             (with_n_bonds (with_n_atoms self (Some (length xyzs_arg)))
                (Some (length (get_xyz_bond_list xyzs_arg))))
             (Some (fresh (dom h))))
          (Some (calc_distance_matrix xyzs_arg)),
        <[fresh (dom h) := make_graph geometry (Some (length xyzs_arg))]> h).
Proof.
  intros Hxyzs. unfold _init_xyzs.
  cbn [xyzs with_n_bonds with_n_atoms]. rewrite Hxyzs. cbn [not_none].
  rewrite (mbind_run _ _ h h geometry eq_refl).
  rewrite (mbind_run _ _ h _ (fresh (dom h)) eq_refl). reflexivity.
Qed.

(** X9: a molecule made without SMILES and without coordinates, an empty
    string and an empty list counting as none, is returned with no
    graph, no atom count and no distance matrix, and the store is not
    touched.  On it every method that reads the graph raises
    [AttributeError], [calc_bond_distance] and [strip_non_unique_confs]
    raise [TypeError], and [get_atom_label] raises [TypeError] without
    coordinates and [IndexError] with the empty list. *)
Theorem init_without_input_is_blank (name_arg : string) (smiles_arg : option string)
    (xyzs_arg : option (list xyz)) (solvent_arg : option string) (charge_arg mult_arg : Z)
    (h : store) :
  smiles_arg = None ∨ smiles_arg = Some "" ->
  xyzs_arg = None ∨ xyzs_arg = Some [] ->
  exists self,
    __init__ name_arg smiles_arg xyzs_arg solvent_arg charge_arg mult_arg h = Ok (self, h)
    ∧ self = blank_molecule name_arg smiles_arg xyzs_arg solvent_arg charge_arg mult_arg
    ∧ graph self = None ∧ n_atoms self = None ∧ n_bonds self = None
    ∧ distance_matrix self = None
    ∧ get_possible_forming_bonds self h = Raise AttributeError
    ∧ get_possible_breaking_bonds self h = Raise AttributeError
    ∧ (forall atom_i, get_bonded_atoms_to_i self atom_i h = Raise AttributeError)
    ∧ (forall active_bonds, get_active_mol_graph self active_bonds h = Raise AttributeError)
    ∧ _check_rdkit_graph_agreement self h = Raise AttributeError
    ∧ (forall b, calc_bond_distance self b = Raise TypeError)
    ∧ (forall atom_i, get_atom_label self atom_i
                      = Raise (if xyzs_arg is Some _ then IndexError else TypeError))
    ∧ (forall threshold_kj, ~ (ha2kJmol == 0)%Q ->
       strip_non_unique_confs self threshold_kj = Raise TypeError).
Proof.
  intros Hsmiles Hxyzs.
  exists (blank_molecule name_arg smiles_arg xyzs_arg solvent_arg charge_arg mult_arg).
  split.
  - rewrite init_unfold. destruct Hsmiles as [-> | ->], Hxyzs as [-> | ->]; reflexivity.
  - split; [reflexivity |]. do 4 (split; [reflexivity |]).
    do 5 (split; [reflexivity |]). split; [reflexivity |]. split.
    + intros atom_i. destruct Hxyzs as [-> | ->]; reflexivity.
    + intros threshold_kj Hha. unfold strip_non_unique_confs.
      rewrite (py_truediv_nonzero _ _ Hha). reflexivity.
Qed.

(** X10: a molecule made from a non-empty list of coordinates alone has
    the length of the list as its atom count, a new graph built from the
    coordinates with that count, and their distance matrix; its bond
    count is the length of [get_xyz_bond_list(xyzs)], not the number of
    edges of the graph; no mol object, no conformers, and
    [rdkit_conf_gen_is_fine] is still true. *)
Theorem init_from_xyzs (name_arg : string) (smiles_arg : option string)
    (x : xyz) (xs : list xyz) (solvent_arg : option string) (charge_arg mult_arg : Z)
    (h : store) :
  smiles_arg = None ∨ smiles_arg = Some "" ->
  exists self,
    let g := make_graph (x :: xs) (Some (S (length xs))) in
    let l := fresh (dom h) in
    __init__ name_arg smiles_arg (Some (x :: xs)) solvent_arg charge_arg mult_arg h
    = Ok (self, <[l := g]> h)
    ∧ xyzs self = Some (x :: xs)
    ∧ n_atoms self = Some (S (length xs))
    ∧ n_bonds self = Some (length (get_xyz_bond_list (x :: xs)))
    ∧ graph self = Some l
    ∧ get_possible_breaking_bonds self (<[l := g]> h) = Ok (nx_edges g, <[l := g]> h)
    ∧ distance_matrix self = Some (calc_distance_matrix (x :: xs))
    ∧ mol_obj self = None ∧ conformers self = None
    ∧ rdkit_conf_gen_is_fine self = true
    ∧ (charge self, mult self, solvent self, name self)
      = (charge_arg, mult_arg, solvent_arg, name_arg).
Proof.
  intros Hsmiles.
  exists (with_distance_matrix
            (with_graph
               (with_n_bonds
                  (with_n_atoms
                     (blank_molecule name_arg smiles_arg (Some (x :: xs)) solvent_arg
                        charge_arg mult_arg)
                     (Some (S (length xs))))
                  (Some (length (get_xyz_bond_list (x :: xs)))))
               (Some (fresh (dom h))))
            (Some (calc_distance_matrix (x :: xs)))).
  cbv zeta. split.
  - rewrite init_unfold. cbv zeta.
    assert (Hfirst : (match smiles_arg with
                      | Some (String a s) =>
                          _init_smiles (blank_molecule name_arg smiles_arg (Some (x :: xs))
                                          solvent_arg charge_arg mult_arg)
                            name_arg (String a s)
                      | _ => mret (blank_molecule name_arg smiles_arg (Some (x :: xs))
                                     solvent_arg charge_arg mult_arg)
                      end) h
                     = Ok (blank_molecule name_arg smiles_arg (Some (x :: xs))
                             solvent_arg charge_arg mult_arg, h))
      by (destruct Hsmiles as [-> | ->]; reflexivity).
    rewrite (mbind_run _ _ _ _ _ Hfirst).
    exact (init_xyzs_run
             (blank_molecule name_arg smiles_arg (Some (x :: xs)) solvent_arg
                charge_arg mult_arg) (x :: xs) (x :: xs) h eq_refl).
  - do 4 (split; [reflexivity |]).
    split;
      [apply (get_possible_breaking_bonds_run _ (fresh (dom h)));
         [reflexivity | apply lookup_insert_eq] |].
    repeat split.
Qed.

(** X11: when both a SMILES string and coordinates are given, the
    SMILES initialisation runs first and replaces the coordinates by the
    embedded geometry; [_init_xyzs] then builds the graph from that
    embedded geometry, while the atom count, the bond count and the
    distance matrix are taken from the coordinates passed.  The molecule
    returned keeps the embedded geometry as [xyzs], and holds a second
    new graph object. *)
Theorem init_from_smiles_and_xyzs (name_arg : string) (a : Ascii.ascii) (s : string)
    (x : xyz) (xs : list xyz) (solvent_arg : option string) (charge_arg mult_arg : Z)
    (h h1 : store) (self1 : Molecule) :
  _init_smiles
    (blank_molecule name_arg (Some (String a s)) (Some (x :: xs)) solvent_arg charge_arg mult_arg)
    name_arg (String a s) h = Ok (self1, h1) ->
  exists (embedded : list xyz) (self2 : Molecule),
    let l := fresh (dom h1) in
    xyzs self1 = Some embedded
    ∧ __init__ name_arg (Some (String a s)) (Some (x :: xs)) solvent_arg charge_arg mult_arg h
      = Ok (self2, <[l := make_graph embedded (Some (S (length xs)))]> h1)
    ∧ xyzs self2 = Some embedded
    ∧ graph self2 = Some l
    ∧ graph self2 <> graph self1
    ∧ n_atoms self2 = Some (S (length xs))
    ∧ n_bonds self2 = Some (length (get_xyz_bond_list (x :: xs)))
    ∧ distance_matrix self2 = Some (calc_distance_matrix (x :: xs))
    ∧ mol_obj self2 = mol_obj self1.
Proof.
  intros Hsmiles.
  destruct (init_smiles_ok_inv _ _ _ _ _ _ Hsmiles)
    as (mol & embedded & _ & Hh1 & Hgraph1 & Hxyzs1 & _).
  cbv zeta in Hh1.
  eexists embedded, _. cbv zeta. split; [exact Hxyzs1 |]. split.
  - rewrite init_unfold. cbv zeta. rewrite (mbind_run _ _ _ _ _ Hsmiles).
    apply (init_xyzs_run _ (x :: xs) embedded h1 Hxyzs1).
  - split; [exact Hxyzs1 |]. split; [reflexivity |]. split.
    + cbn [graph with_distance_matrix with_graph]. rewrite Hgraph1. intros [= Heq].
      pose proof (alloc_fresh h1) as Hfresh. rewrite Heq, Hh1 in Hfresh.
      rewrite lookup_insert_eq in Hfresh. discriminate Hfresh.
    + repeat split.
Qed.

End init_properties.

(** ** Neighbours, names and reads *)

Section reading_properties.
Context `{rdkit : RDKit} `{autode : !Autode}.

Lemma get_bonded_atoms_to_i_run (self : Molecule) (atom_i : nat) (l : loc) (g : nxGraph)
    (h : store) :
  graph self = Some l -> h !! l = Some g ->
  get_bonded_atoms_to_i self atom_i h
  = Ok (flat_map (fun edge : bond =>
                    (if Nat.eqb edge.1 atom_i then [edge.2] else [])
                      ++ (if Nat.eqb edge.2 atom_i then [edge.1] else []))
          (nx_edges g), h).
Proof.
  intros Hg Hl. unfold get_bonded_atoms_to_i, self_graph. rewrite Hg. cbn [not_none].
  rewrite (mbind_run _ _ h h l eq_refl).
  rewrite (mbind_run _ _ _ _ _ (Graph_edges_run _ _ _ Hl)). reflexivity.
Qed.

Lemma elem_of_bonded (es : list bond) (atom_i b : nat) :
  b ∈ flat_map (fun edge : bond =>
                  (if Nat.eqb edge.1 atom_i then [edge.2] else [])
                    ++ (if Nat.eqb edge.2 atom_i then [edge.1] else [])) es
  <-> (atom_i, b) ∈ es ∨ (b, atom_i) ∈ es.
Proof.
  rewrite list_elem_of_In, in_flat_map. split.
  - intros ([e1 e2] & Hin & Hb). apply list_elem_of_In in Hin.
    apply list_elem_of_In, elem_of_app in Hb. cbn [fst snd] in Hb.
    destruct Hb as [Hb | Hb].
    + destruct (Nat.eqb_spec e1 atom_i) as [-> | _]; [| inversion Hb].
      apply list_elem_of_singleton in Hb as ->. left. exact Hin.
    + destruct (Nat.eqb_spec e2 atom_i) as [-> | _]; [| inversion Hb].
      apply list_elem_of_singleton in Hb as ->. right. exact Hin.
  - intros [Hin | Hin]; apply list_elem_of_In in Hin.
    + exists (atom_i, b). split; [exact Hin |].
      apply list_elem_of_In, elem_of_app. left. cbn [fst snd].
      rewrite Nat.eqb_refl. apply list_elem_of_singleton. reflexivity.
    + exists (b, atom_i). split; [exact Hin |].
      apply list_elem_of_In, elem_of_app. right. cbn [fst snd].
      rewrite Nat.eqb_refl. apply list_elem_of_singleton. reflexivity.
Qed.

(** X12: on a graph that keeps the invariants of networkx,
    [get_bonded_atoms_to_i] lists exactly the neighbours of the atom:
    [b] is listed for [atom_i] exactly when [atom_i - b] is an edge, in
    whichever orientation [edges()] yields it, and so exactly when
    [atom_i] is listed for [b].  The store is not changed. *)
Theorem bonded_atoms_are_the_neighbours (self : Molecule) (h : store) (l : loc)
    (g : nxGraph) (atom_i : nat) :
  graph self = Some l -> h !! l = Some g -> nx_wf g ->
  exists bonded,
    get_bonded_atoms_to_i self atom_i h = Ok (bonded, h)
    ∧ (forall b, b ∈ bonded <-> is_Some (nx_edge_data g atom_i b))
    ∧ (forall b, b ∈ bonded <-> (atom_i, b) ∈ nx_edges g ∨ (b, atom_i) ∈ nx_edges g)
    ∧ (forall b, b ∈ bonded <->
         exists bonded_b, get_bonded_atoms_to_i self b h = Ok (bonded_b, h)
                          ∧ atom_i ∈ bonded_b).
Proof.
  intros Hg Hl Hwf. eexists.
  split; [apply (get_bonded_atoms_to_i_run self atom_i l g h Hg Hl) |].
  assert (Hedge : forall i b,
            (i, b) ∈ nx_edges g ∨ (b, i) ∈ nx_edges g <-> is_Some (nx_edge_data g i b)).
  { intros i b. split.
    - intros [Hin | Hin].
      + apply (nx_edges_edge_data g i b Hwf Hin).
      + rewrite (nx_edge_data_sym g i b Hwf). apply (nx_edges_edge_data g b i Hwf Hin).
    - apply (edge_data_nx_edges g i b Hwf). }
  split; [| split].
  - intros b. rewrite elem_of_bonded. apply Hedge.
  - intros b. apply elem_of_bonded.
  - intros b. rewrite elem_of_bonded. split.
    + intros Hin. eexists.
      split; [apply (get_bonded_atoms_to_i_run self b l g h Hg Hl) |].
      apply elem_of_bonded. tauto.
    + intros (bonded_b & Hrun & Hin).
      rewrite (get_bonded_atoms_to_i_run self b l g h Hg Hl) in Hrun.
      injection Hrun as <-. apply elem_of_bonded in Hin. tauto.
Qed.

(** X13: the conformers that [generate_conformers] leaves in the
    molecule have pairwise different names, each the name of the
    molecule followed by [_conf] and the index of the conformer. *)
Theorem generated_conformer_names_are_distinct (self self' : Molecule)
    (n_rdkit_confs : nat) (confs : list Conformer) :
  generate_conformers self n_rdkit_confs = Ok self' ->
  conformers self' = Some confs ->
  NoDup (conf_name <$> confs)
  ∧ (forall i c, confs !! i = Some c -> conf_name c = name self +:+ "_conf" +:+ pretty i)
  ∧ n_conformers self' = Some (length confs).
Proof.
  intros Hrun Hconfs. unfold generate_conformers in Hrun.
  assert (Himap : exists coords : list (list xyz),
            confs = imap (fun i xyzs_i =>
                            new_Conformer (name self +:+ "_conf" +:+ pretty i) xyzs_i
                              (solvent self) (charge self) (mult self)) coords
            ∧ n_conformers self' = Some (length confs)).
  { cbn [rdkit_conf_gen_is_fine mol_obj with_conformers name xyzs charge solvent mult]
      in Hrun.
    destruct (rdkit_conf_gen_is_fine self); cbn [rbind] in Hrun.
    - injection Hrun as <-. cbn in Hconfs. injection Hconfs as <-.
      eexists. split; reflexivity.
    - destruct (mol_obj self); cbn [not_none rbind] in Hrun; [| discriminate Hrun].
      injection Hrun as <-. cbn in Hconfs. injection Hconfs as <-.
      eexists. split; reflexivity. }
  destruct Himap as (coords & -> & Hn).
  assert (Hname : forall i c,
            imap (fun i xyzs_i =>
                    new_Conformer (name self +:+ "_conf" +:+ pretty i) xyzs_i
                      (solvent self) (charge self) (mult self)) coords !! i = Some c ->
            conf_name c = name self +:+ "_conf" +:+ pretty i).
  { intros i c Hc. rewrite list_lookup_imap in Hc.
    destruct (coords !! i); [| discriminate Hc]. injection Hc as <-. reflexivity. }
  split; [| split; [exact Hname | exact Hn]].
  apply NoDup_alt. intros i j nm Hi Hj.
  rewrite list_lookup_fmap in Hi, Hj.
  destruct (imap _ coords !! i) as [ci |] eqn:Hci; [| discriminate Hi].
  destruct (imap _ coords !! j) as [cj |] eqn:Hcj; [| discriminate Hj].
  cbn in Hi, Hj. injection Hi as Hi. injection Hj as Hj.
  rewrite (Hname i ci Hci) in Hi. rewrite (Hname j cj Hcj) in Hj.
  rewrite <- Hj in Hi.
  apply (inj (String.app (name self))) in Hi.
  apply (inj (String.app "_conf")) in Hi.
  apply (inj pretty) in Hi. exact Hi.
Qed.

(** X14: after [set_xyzs] the reads see the new geometry:
    [get_atom_label] gives the label of the new entry and raises
    [IndexError] past the end of the new list, [calc_bond_distance]
    reads the new distance matrix, and the bonds that can break are the
    edges of the new graph. *)
Theorem reads_after_set_xyzs (self : Molecule) (new_xyzs : list xyz) (h : store) :
  exists self' h',
    set_xyzs self new_xyzs h = Ok (self', h')
    ∧ (forall atom_i,
         get_atom_label self' atom_i
         = match new_xyzs !! atom_i with
           | Some a => Ok (label a)
           | None => Raise IndexError
           end)
    ∧ (forall b : bond,
         calc_bond_distance self' b
         = match calc_distance_matrix new_xyzs !! b.1 with
           | Some row =>
               match row !! b.2 with
               | Some d => Ok d
               | None => Raise IndexError
               end
           | None => Raise IndexError
           end)
    ∧ get_possible_breaking_bonds self' h'
      = Ok (nx_edges (make_graph new_xyzs (n_atoms self)), h').
Proof.
  set (g := make_graph new_xyzs (n_atoms self)).
  assert (Hl : <[fresh (dom h) := g]> h !! fresh (dom h) = Some g)
    by apply lookup_insert_eq.
  eexists _, (<[fresh (dom h) := g]> h). split.
  - unfold set_xyzs. rewrite (mbind_run _ _ h _ (fresh (dom h)) eq_refl).
    rewrite (mbind_run _ _ _ _ _ (Graph_number_of_edges_run _ _ _ Hl)). reflexivity.
  - split; [| split].
    + intros atom_i. unfold get_atom_label, get_item. cbn.
      destruct (new_xyzs !! atom_i); reflexivity.
    + intros b. unfold calc_bond_distance, get_item. cbn.
      destruct (calc_distance_matrix new_xyzs !! b.1) as [row |]; cbn; [| reflexivity].
      destruct (row !! b.2); reflexivity.
    + apply (get_possible_breaking_bonds_run _ (fresh (dom h)) g); [reflexivity | exact Hl].
Qed.

End reading_properties.

(** ** More on active graphs and on logging *)

Section active_graph_more.
Context `{rdkit : RDKit}.

Lemma get_active_mol_graph_run (self : Molecule) (active_bonds : list bond)
    (h : store) (l : loc) (g : nxGraph) :
  graph self = Some l -> h !! l = Some g -> nx_wf g ->
  exists g',
    get_active_mol_graph self active_bonds h
    = Ok (fresh (dom h), <[fresh (dom h) := g']> h)
    ∧ nx_wf g'
    ∧ forall x y,
        nx_edge_data g' x y
        = if existsb (fun b => same_bond b (x, y)) active_bonds
          then Some (<["active" := true]> (default ∅ (nx_edge_data g x y)))
          else nx_edge_data g x y.
Proof.
  intros Hg Hl Hwf.
  assert (Hl' : <[fresh (dom h) := g]> h !! fresh (dom h) = Some g)
    by apply lookup_insert_eq.
  destruct (mark_all_run (fresh (dom h)) active_bonds g _ Hl' Hwf)
    as (g' & Hrun & Hwf' & Hdata).
  rewrite insert_insert_eq in Hrun.
  exists g'. split; [| split; [exact Hwf' | exact Hdata]].
  unfold get_active_mol_graph, self_graph. rewrite Hg. cbn [not_none].
  rewrite (mbind_run _ _ h h l eq_refl).
  rewrite (mbind_run _ _ _ _ _ (Graph_copy_run _ _ _ Hl)).
  rewrite (mbind_run _ _ _ _ _ Hrun). reflexivity.
Qed.

(** X15: what [get_active_mol_graph] returns depends on the active
    bonds only as a set of unordered pairs: two lists that name the same
    pairs, in any order, orientation and number of repetitions, give
    graphs with the same data on every pair of nodes; with no active
    bonds every pair is as in the graph of the molecule. *)
Theorem active_graph_ignores_order_and_orientation (self : Molecule)
    (bonds1 bonds2 : list bond) (h : store) (l : loc) (g : nxGraph) :
  graph self = Some l -> h !! l = Some g -> nx_wf g ->
  (forall x y, (x, y) ∈ bonds1 ∨ (y, x) ∈ bonds1 <-> (x, y) ∈ bonds2 ∨ (y, x) ∈ bonds2) ->
  exists l' g1 g2,
    get_active_mol_graph self bonds1 h = Ok (l', <[l' := g1]> h)
    ∧ get_active_mol_graph self bonds2 h = Ok (l', <[l' := g2]> h)
    ∧ (forall x y, nx_edge_data g1 x y = nx_edge_data g2 x y)
    ∧ (bonds1 = [] -> forall x y, nx_edge_data g1 x y = nx_edge_data g x y).
Proof.
  intros Hg Hl Hwf Hsame.
  destruct (get_active_mol_graph_run self bonds1 h l g Hg Hl Hwf) as (g1 & Hrun1 & _ & Hdata1).
  destruct (get_active_mol_graph_run self bonds2 h l g Hg Hl Hwf) as (g2 & Hrun2 & _ & Hdata2).
  exists (fresh (dom h)), g1, g2.
  split; [exact Hrun1 |]. split; [exact Hrun2 |]. split.
  - intros x y. rewrite Hdata1, Hdata2.
    assert (Hex : existsb (fun b => same_bond b (x, y)) bonds1
                  = existsb (fun b => same_bond b (x, y)) bonds2).
    { apply eq_true_iff_eq. rewrite !existsb_same_bond. apply Hsame. }
    rewrite Hex. reflexivity.
  - intros -> x y. rewrite Hdata1. reflexivity.
Qed.

End active_graph_more.

(** X16: [get_log_level] answers [logging.CRITICAL] unless
    [AUTODE_LOG_LEVEL] is exactly [DEBUG], [WARNING] or [INFO]: the unset
    variable, the empty string and any other spelling give [CRITICAL],
    which is the highest level it ever returns.  No other environment
    variable is read. *)
Theorem get_log_level_default_is_critical (environ : gmap string string) :
  (get_log_level environ <> logging_CRITICAL
   <-> environ !! "AUTODE_LOG_LEVEL" = Some "DEBUG"
       ∨ environ !! "AUTODE_LOG_LEVEL" = Some "WARNING"
       ∨ environ !! "AUTODE_LOG_LEVEL" = Some "INFO")
  ∧ (get_log_level environ <= logging_CRITICAL)%Z
  ∧ get_log_level (delete "AUTODE_LOG_LEVEL" environ) = logging_CRITICAL
  ∧ get_log_level (<["AUTODE_LOG_LEVEL" := ""]> environ) = logging_CRITICAL
  ∧ get_log_level (<["AUTODE_LOG_LEVEL" := "debug"]> environ) = logging_CRITICAL
  ∧ (forall key value, key <> "AUTODE_LOG_LEVEL" ->
     get_log_level (<[key := value]> environ) = get_log_level environ).
Proof.
  split; [| split; [| split; [| split; [| split]]]].
  - unfold get_log_level.
    destruct (environ !! "AUTODE_LOG_LEVEL") as [s |] eqn:Hs.
    + destruct (decide (s = "DEBUG")) as [-> | Hd].
      { split; [intros _; left; reflexivity | intros _; vm_compute; discriminate]. }
      destruct (decide (s = "WARNING")) as [-> | Hw].
      { split; [intros _; right; left; reflexivity | intros _; vm_compute; discriminate]. }
      destruct (decide (s = "INFO")) as [-> | Hi].
      { split; [intros _; right; right; reflexivity | intros _; vm_compute; discriminate]. }
      rewrite !bool_decide_eq_false_2 by assumption.
      split; [intros Hx; exfalso; apply Hx; reflexivity |].
      intros [[= ?] | [[= ?] | [= ?]]]; contradiction.
    + split; [intros Hx; exfalso; apply Hx; reflexivity |].
      intros [[=] | [[=] | [=]]].
  - unfold get_log_level. repeat case_bool_decide; vm_compute; discriminate.
  - unfold get_log_level. rewrite lookup_delete_eq. reflexivity.
  - unfold get_log_level. rewrite lookup_insert_eq. reflexivity.
  - unfold get_log_level. rewrite lookup_insert_eq. reflexivity.
  - intros key value Hkey. unfold get_log_level.
    rewrite lookup_insert_ne by exact Hkey. reflexivity.
Qed.

(** ** The lowest energy conformer *)

Lemma min_from_spec (rest : list (option Q)) :
  forall (current m : option Q),
  min_from current rest = Ok m ->
  m ∈ current :: rest
  ∧ forall y a b, y ∈ current :: rest -> m = Some a -> y = Some b -> (a <= b)%Q.
Proof.
  induction rest as [| x rest IH]; intros current m Hmin.
  - cbn in Hmin. injection Hmin as <-. split; [left |].
    intros y a b Hy Ha Hb. apply list_elem_of_singleton in Hy. subst y.
    rewrite Ha in Hb. injection Hb as <-. apply Qle_refl.
  - cbn [min_from] in Hmin.
    destruct x as [xa |]; [| discriminate Hmin].
    destruct current as [cb |]; [| discriminate Hmin].
    apply IH in Hmin as [Hin Hle].
    assert (Hcur : forall a, m = Some a -> (a <= xa)%Q ∧ (a <= cb)%Q).
    { intros a Ha.
      destruct (Qltb xa cb) eqn:Hlt.
      - pose proof (Hle (Some xa) a xa (list_elem_of_here _ _) Ha eq_refl) as H1.
        apply Qltb_lt in Hlt. split; [exact H1 |].
        apply Qle_trans with xa; [exact H1 | apply Qlt_le_weak, Hlt].
      - pose proof (Hle (Some cb) a cb (list_elem_of_here _ _) Ha eq_refl) as H1.
        apply Qltb_ge in Hlt. split; [| exact H1].
        apply Qle_trans with cb; [exact H1 | exact Hlt]. }
    split.
    + apply elem_of_cons in Hin as [-> | Hin].
      * destruct (Qltb xa cb); [right; left | left].
      * right. right. exact Hin.
    + intros y a b Hy Ha Hb.
      apply elem_of_cons in Hy as [-> | Hy].
      * injection Hb as <-. apply (Hcur a Ha).
      * apply elem_of_cons in Hy as [-> | Hy].
        -- injection Hb as <-. apply (Hcur a Ha).
        -- apply (Hle y a b); [right; exact Hy | exact Ha | exact Hb].
Qed.

Lemma energy_eqb_refl (e : option Q) : energy_eqb e e = true.
Proof. destruct e as [q |]; [apply Qeq_bool_iff, Qeq_refl | reflexivity]. Qed.

Section lowest_energy.
Context `{rdkit : RDKit} `{autode : !Autode} `{engine : !Engine}.

Lemma set_xyzs_run (self : Molecule) (new_xyzs : list xyz) (h : store) :
  let g := make_graph new_xyzs (n_atoms self) in
  let l := fresh (dom h) in
  set_xyzs self new_xyzs h
  = Ok (with_n_bonds
          (with_graph
             (with_distance_matrix (with_xyzs self (Some new_xyzs))
                (Some (calc_distance_matrix new_xyzs)))
             (Some l))
          (Some (nx_number_of_edges g)), <[l := g]> h).
Proof.
  cbv zeta. unfold set_xyzs.
  rewrite (mbind_run _ _ h _ (fresh (dom h)) eq_refl).
  erewrite mbind_run; [reflexivity |].
  apply Graph_number_of_edges_run, lookup_insert_eq.
Qed.

Lemma strip_loop_extends (confs : list Conformer) (d_e : Q) (idxs : list nat) :
  forall acc out,
  strip_loop confs d_e acc idxs = Ok out -> exists added, out = acc ++ added.
Proof.
  induction idxs as [| i idxs IH]; intros acc out Hrun.
  - cbn in Hrun. injection Hrun as <-. exists []. rewrite app_nil_r. reflexivity.
  - cbn [strip_loop] in Hrun.
    destruct (is_unique confs d_e i (seq 0 (length acc))) as [[] | |];
      cbn [rbind] in Hrun; try discriminate Hrun.
    + destruct (get_item confs i) as [c | |]; cbn [rbind] in Hrun; try discriminate Hrun.
      apply IH in Hrun as [added ->]. exists (c :: added).
      rewrite <- app_assoc. reflexivity.
    + apply IH, Hrun.
Qed.

(** What [strip_non_unique_confs] leaves when it returns: a list that is
    not empty, its length as the count, and the rest of the molecule as
    it was. *)
Lemma strip_ok_inv (self self' : Molecule) (threshold_kj : Q) :
  strip_non_unique_confs self threshold_kj = Ok self' ->
  exists c rest,
    conformers self' = Some (c :: rest)
    ∧ n_conformers self' = Some (S (length rest))
    ∧ n_atoms self' = n_atoms self.
Proof.
  unfold strip_non_unique_confs.
  destruct (py_truediv threshold_kj ha2kJmol) as [d_e | |]; cbn [rbind]; try discriminate.
  destruct (conformers self) as [confs |]; cbn [not_none rbind]; try discriminate.
  destruct (get_item confs 0) as [first | |]; cbn [rbind]; try discriminate.
  destruct (n_conformers self) as [n |]; cbn [not_none rbind]; try discriminate.
  destruct (strip_loop confs d_e [first] (seq 1 (n - 1))) as [out | |] eqn:Hloop;
    cbn [rbind]; try discriminate.
  intros [= <-]. apply strip_loop_extends in Hloop as [added ->].
  exists first, added. repeat split.
Qed.

Lemma generate_conformers_frame (self self' : Molecule) (n_rdkit_confs : nat) :
  generate_conformers self n_rdkit_confs = Ok self' ->
  n_atoms self' = n_atoms self ∧ is_Some (conformers self').
Proof.
  unfold generate_conformers.
  destruct (rdkit_conf_gen_is_fine _); cbn [rbind].
  - intros [= <-]. split; [reflexivity | eexists; reflexivity].
  - destruct (not_none AttributeError _); cbn [rbind]; try discriminate.
    intros [= <-]. split; [reflexivity | eexists; reflexivity].
Qed.

(** What [optimised_conformers] returns: the conformers it leaves in the
    molecule, which are not none. *)
Lemma optimised_conformers_ok_inv (self self1 : Molecule) (confs : list Conformer) :
  optimised_conformers self = Ok (self1, confs) ->
  conformers self1 = Some confs
  ∧ confs <> []
  ∧ n_conformers self1 = Some (length confs)
  ∧ n_atoms self1 = n_atoms self.
Proof.
  unfold optimised_conformers.
  destruct (generate_conformers self 300) as [self_g | |] eqn:Hgen;
    cbn [rbind]; try discriminate.
  apply generate_conformers_frame in Hgen as [Hatoms_g [confs_g Hconfs_g]].
  rewrite Hconfs_g. cbn [not_none rbind].
  destruct (strip_non_unique_confs _ 1) as [self_s | |] eqn:Hstrip;
    cbn [rbind]; try discriminate.
  apply strip_ok_inv in Hstrip as (c & rest & Hconfs_s & Hn_s & Hatoms_s).
  rewrite Hconfs_s. cbn [not_none rbind]. intros [= <- <-].
  split; [reflexivity |]. split; [discriminate |].
  split; [cbn; rewrite Hn_s, length_fmap; reflexivity |].
  cbn [n_atoms with_conformers] in *. congruence.
Qed.

(** X17: [find_lowest_energy_conformer] never ends in the [ValueError]
    of [min()] on an empty sequence: [strip_non_unique_confs], which
    runs before, keeps at least one conformer or raises.  When no
    conformer is generated, the call raises the [IndexError] of
    [strip_non_unique_confs]. *)
Theorem find_lowest_never_takes_min_of_nothing (self : Molecule) (h : store) :
  find_lowest_energy_conformer self h <> ValueError
  ∧ (forall self_g,
       ~ (ha2kJmol == 0)%Q ->
       generate_conformers self 300 = Ok self_g ->
       conformers self_g = Some [] ->
       find_lowest_energy_conformer self h = Outcome (Raise IndexError)).
Proof.
  split.
  - unfold find_lowest_energy_conformer.
    destruct (optimised_conformers self) as [[self1 confs] | |] eqn:Hopt;
      [| discriminate ..].
    apply optimised_conformers_ok_inv in Hopt as (_ & Hne & _).
    destruct confs as [| c confs]; [contradiction |].
    cbn [fmap list_fmap py_min].
    destruct (min_from _ _); discriminate.
  - intros self_g Hha Hgen Hnil.
    unfold find_lowest_energy_conformer, optimised_conformers.
    rewrite Hgen. cbn [rbind]. rewrite Hnil. cbn [not_none rbind fmap list_fmap].
    unfold strip_non_unique_confs. rewrite (py_truediv_nonzero _ _ Hha).
    reflexivity.
Qed.

(** X18: when [find_lowest_energy_conformer] returns, the molecule has
    the energy and the geometry of one of its conformers, and no
    conformer with an energy has a lower one; the graph is a new one
    built from that geometry, the bond count is its number of edges, and
    the conformer count is the number of conformers left. *)
Theorem find_lowest_selects_a_minimum (self self' : Molecule) (h h' : store) :
  find_lowest_energy_conformer self h = Outcome (Ok (self', h')) ->
  exists (confs : list Conformer) (c : Conformer),
    let g := make_graph (conf_xyzs c) (n_atoms self) in
    conformers self' = Some confs
    ∧ c ∈ confs
    ∧ energy self' = conf_energy c
    ∧ xyzs self' = Some (conf_xyzs c)
    ∧ (forall c' e e', c' ∈ confs ->
         conf_energy c = Some e -> conf_energy c' = Some e' -> (e <= e')%Q)
    ∧ graph self' = Some (fresh (dom h))
    ∧ h' = <[fresh (dom h) := g]> h
    ∧ n_bonds self' = Some (nx_number_of_edges g)
    ∧ distance_matrix self' = Some (calc_distance_matrix (conf_xyzs c))
    ∧ n_conformers self' = Some (length confs).
Proof.
  unfold find_lowest_energy_conformer.
  destruct (optimised_conformers self) as [[self1 confs] | |] eqn:Hopt;
    [| discriminate ..].
  apply optimised_conformers_ok_inv in Hopt as (Hconfs & Hne & Hn & Hatoms).
  destruct confs as [| c0 confs0]; [contradiction |].
  cbn [fmap list_fmap py_min].
  destruct (min_from (conf_energy c0) (conf_energy <$> confs0)) as [lowest | |] eqn:Hmin;
    [| discriminate ..].
  apply min_from_spec in Hmin as [Hin Hle].
  change (conf_energy c0 :: (conf_energy <$> confs0))
    with (conf_energy <$> c0 :: confs0) in *.
  set (confs := c0 :: confs0) in *.
  unfold take_lowest.
  destruct (List.find _ confs) as [c |] eqn:Hfind.
  - apply find_some in Hfind as [Hc Heq]. apply list_elem_of_In in Hc.
    rewrite set_xyzs_run. cbv zeta. intros [= <- <-].
    exists confs, c. cbv zeta.
    split; [exact Hconfs |]. split; [exact Hc |]. split; [reflexivity |].
    split; [reflexivity |]. split.
    + intros c' e e' Hc' He He'.
      rewrite He in Heq. destruct lowest as [a |]; [| discriminate Heq].
      cbn in Heq. apply Qeq_bool_iff in Heq. rewrite Heq.
      apply (Hle (Some e') a e'); [| reflexivity | reflexivity].
      rewrite <- He'. apply list_elem_of_fmap_2, Hc'.
    + cbn [n_atoms with_energy graph with_n_bonds with_graph n_bonds distance_matrix
           with_distance_matrix n_conformers with_xyzs].
      rewrite Hatoms. repeat split. exact Hn.
  - exfalso. apply list_elem_of_fmap in Hin as (c & Hc_energy & Hc).
    pose proof (find_none _ _ Hfind c (proj1 (list_elem_of_In _ _) Hc)) as Hfalse.
    cbn beta in Hfalse. rewrite <- Hc_energy, energy_eqb_refl in Hfalse.
    discriminate Hfalse.
Qed.

End lowest_energy.

(** ** Calculations on the molecule *)

Section calculation_properties.
Context `{rdkit : RDKit} `{autode : !Autode} `{engine : !Engine}.

(** X19: [single_point] sets the energy of a calculation named after the
    molecule with [_sp] and changes nothing else; [optimise] sets the
    energy of an optimisation named with [_opt], run on the molecule as
    it was before the call, and then takes the final geometry through
    [set_xyzs]: the graph is a new one built from that geometry, the
    bond count is its number of edges, the atom count is not
    recomputed. *)
Theorem calculations_update_the_molecule (self : Molecule) (m : method) (h : store) :
  (let self' := single_point self m in
   energy self' = Calculation_energy (name self +:+ "_sp") self m false
   ∧ (xyzs self', graph self', n_bonds self', n_atoms self', distance_matrix self')
     = (xyzs self, graph self, n_bonds self, n_atoms self, distance_matrix self)
   ∧ (conformers self', n_conformers self', mol_obj self', charge self', mult self')
     = (conformers self, n_conformers self, mol_obj self, charge self, mult self))
  ∧ exists self',
      let final_xyzs := Calculation_final_xyzs (name self +:+ "_opt") self m true in
      let g := make_graph final_xyzs (n_atoms self) in
      optimise self m h = Ok (self', <[fresh (dom h) := g]> h)
      ∧ energy self' = Calculation_energy (name self +:+ "_opt") self m true
      ∧ xyzs self' = Some final_xyzs
      ∧ graph self' = Some (fresh (dom h))
      ∧ n_bonds self' = Some (nx_number_of_edges g)
      ∧ distance_matrix self' = Some (calc_distance_matrix final_xyzs)
      ∧ n_atoms self' = n_atoms self
      ∧ (forall l0, is_Some (h !! l0) -> <[fresh (dom h) := g]> h !! l0 = h !! l0).
Proof.
  split; [repeat split |].
  eexists. cbv zeta. split.
  - unfold optimise. rewrite set_xyzs_run. reflexivity.
  - repeat split. intros l0 [g0 Hg0]. apply lookup_insert_ne. intros <-.
    rewrite alloc_fresh in Hg0. discriminate Hg0.
Qed.

End calculation_properties.


(** * The cases, evaluated *)

Import Double.

Lemma h2_from_smiles_is_h2 :
  exists h, Cases.h2_from_smiles = Ok (Cases.h2, h).
Proof. eexists. vm_compute. reflexivity. Qed.

(** C1: on conformers with energies 0, 0.0001, 0.001 and 0.0011 Hartree
    and the default threshold of 1 kJ/mol (a window of about 0.00038
    Hartree), [strip_non_unique_confs] retains the first, the third and
    the fourth, although the fourth is within the window of the third,
    which is retained; the greedy rule of the design retains the first
    and the third only.  The inner loop reads [self.conformers[j]] for
    [j] below the number of retained conformers, that is the first
    conformers of the input, not the retained ones. *)
Theorem strip_compares_with_input_prefix :
  exists self' : Molecule,
    strip_non_unique_confs Cases.four_confs 1 = Ok self'
    ∧ conformers self'
      = Some [Cases.conf 0 0; Cases.conf 2 0.001; Cases.conf 3 0.0011]
    ∧ n_conformers self' = Some 3
    ∧ (conformers Cases.four_confs ≫= fun cs => Some (greedy_unique (1 / ha2kJmol) cs))
      = Some [Cases.conf 0 0; Cases.conf 2 0.001]
    ∧ (Qabs (0.0011 - 0.001) < 1 / ha2kJmol)%Q.
Proof.
  eexists. repeat split; vm_compute; reflexivity.
Qed.

(** Lithium dimer: rdkit declares one bond, the graph built from the
    embedded geometry has none, and initialisation exits. *)
Lemma init_smiles_graph_mismatch_exits_witness :
  _init_smiles Cases.li2_blank "li2" "[Li][Li]" ∅ = Exit
  ∧ __init__ "li2" (Some "[Li][Li]") None None 0 1 ∅ = Exit.
Proof.
  split; [| reflexivity].
  eapply (init_smiles_graph_mismatch_exits Cases.li2_blank "li2" "[Li][Li]" ∅).
  - reflexivity.
  - reflexivity.
  - reflexivity.
  - vm_compute. discriminate.
Defined.

(** The claim of C7 as worded fails on the name: the conformers
    generated for the molecule [h2] are named [h2_conf0] and [h2_conf1],
    not [h2]. *)
Lemma generated_conformers_are_renamed :
  exists self' c0 c1,
    generate_conformers Cases.h2 300 = Ok self'
    ∧ conformers self' = Some [c0; c1]
    ∧ conf_name c0 = "h2_conf0"
    ∧ conf_name c1 = "h2_conf1"
    ∧ conf_name c0 <> name Cases.h2
    ∧ conf_name c1 <> name Cases.h2.
Proof.
  do 3 eexists. split; [vm_compute; reflexivity |].
  split; [reflexivity |]. repeat split; discriminate.
Qed.

Lemma generate_conformers_strategy_witness :
  exists self' confs,
    generate_conformers Cases.h2 300 = Ok self'
    ∧ conformers self' = Some confs
    ∧ n_conformers self' = Some (length confs).
Proof.
  destruct (generate_conformers_strategy Cases.h2 300 _ eq_refl)
    as (self' & confs & Hrun & Hconfs & Hn & _).
  exists self', confs. split; [exact Hrun |]. split; [exact Hconfs | exact Hn].
Defined.

(** ** The reaction model on the assertions of the test *)

Ltac by_decision :=
  lazymatch goal with
  | |- ~ ?P => apply (bool_decide_eq_false_1 P); vm_compute; reflexivity
  | |- ?P => apply (bool_decide_eq_true_1 P); vm_compute; reflexivity
  end.

(** [test_reaction_class], first part: H + H -> H2 is stored as the
    dissociation, and [calc_delta_e() == KcalMol.conversion * 4]. *)
Lemma test_reaction_class (order : check_order) :
  exists r v,
    Reaction_init order "h2_assoc" [Reactions.h1; Reactions.h2]
      [Reactions.hh_product] Reactions.graphs = Ok r
    ∧ length (prods r) = 2
    ∧ length (reacs r) = 1
    ∧ reaction_name r = "h2_assoc"
    ∧ calc_delta_e r = Ok v
    ∧ (v == KcalMol_conversion * 4)%Q.
Proof.
  destruct order; do 2 eexists; (split; [vm_compute; reflexivity |]);
    repeat split.
Qed.

(** [test_check_rearrangement] *)
Lemma test_check_rearrangement (order : check_order) :
  exists r,
    Reaction_init order "reaction" [Reactions.lin_h3] [Reactions.trig_h3]
      Reactions.graphs = Ok r
    ∧ name <$> reacs r = ["h3_trigonal"]
    ∧ name <$> prods r = ["h3_linear"].
Proof.
  destruct order; eexists; (split; [vm_compute; reflexivity |]); split; reflexivity.
Qed.

(** [test_bad_balance] *)
Lemma test_bad_balance (order : check_order) :
  Reaction_init order "reaction" [Reactions.h1] [Reactions.hh_product]
    Reactions.graphs = Raise UnbalancedReaction
  ∧ Reaction_init order "reaction" [Reactions.h1; Reactions.h_minus]
      [Reactions.hh_product] Reactions.graphs = Raise UnbalancedReaction
  ∧ Reaction_init order "reaction" [Reactions.h1_water; Reactions.h2_water]
      [Reactions.hh_thf] Reactions.graphs = Raise SolventsDontMatch.
Proof. destruct order; repeat split; vm_compute; reflexivity. Qed.

(** [test_calc_delta_e], the assertion on [calc_delta_e]. *)
Lemma test_calc_delta_e (order : check_order) :
  exists r v,
    Reaction_init order "reaction" [Reactions.r1; Reactions.r2] [Reactions.p]
      Reactions.graphs = Ok r
    ∧ calc_delta_e r = Ok v
    ∧ (-(1 # 1000000) < v < 1 # 1000000)%Q.
Proof.
  destruct order; do 2 eexists; (split; [vm_compute; reflexivity |]);
    (split; [vm_compute; reflexivity |]); split; reflexivity.
Qed.

Lemma reaction_roles_swap_witness :
  exists r,
    Reaction_init BalanceFirst "h2_assoc" [Reactions.h1; Reactions.h2]
      [Reactions.hh_product] Reactions.graphs = Ok r
    ∧ reacs r = [Reactions.hh_product]
    ∧ prods r = [Reactions.h1; Reactions.h2].
Proof.
  apply (reaction_roles_swap BalanceFirst "h2_assoc" [Reactions.h1; Reactions.h2]
           [Reactions.hh_product] Reactions.graphs 0 1).
  - by_decision.
  - by_decision.
  - vm_compute. reflexivity.
  - vm_compute. reflexivity.
  - lia.
Defined.

(** The claim of C3 as worded fails on the test's own reaction: the sum
    of the product energies less the sum of the reactant energies is 4
    Hartree, and [calc_delta_e] returns 2510.036. *)
Lemma calc_delta_e_is_not_the_hartree_difference :
  exists r v,
    Reaction_init BalanceFirst "h2_assoc" [Reactions.h1; Reactions.h2]
      [Reactions.hh_product] Reactions.graphs = Ok r
    ∧ (total_energy (prods r) - total_energy (reacs r) == 4)%Q
    ∧ delta_e_hartree r = Ok (total_energy (prods r) - total_energy (reacs r))%Q
    ∧ calc_delta_e r = Ok v
    ∧ (v == 2510.036)%Q
    ∧ ~ (v == total_energy (prods r) - total_energy (reacs r))%Q.
Proof.
  do 2 eexists. split; [vm_compute; reflexivity |].
  split; [reflexivity |]. split; [reflexivity |].
  split; [vm_compute; reflexivity |]. split; [reflexivity |].
  intros Heq. vm_compute in Heq. discriminate Heq.
Qed.

Lemma calc_delta_e_converted_witness :
  calc_delta_e (mkReaction "h2_assoc" [Reactions.hh_product] [Reactions.h1; Reactions.h2])
  = Ok (KcalMol_conversion * (total_energy [Reactions.h1; Reactions.h2]
                              - total_energy [Reactions.hh_product]))%Q
  ∧ exists v,
      calc_delta_e (mkReaction "reaction" [Reactions.p] [Reactions.r1; Reactions.r2]) = Ok v
      ∧ (v == 0)%Q.
Proof.
  destruct calc_delta_e_converted as [Hgen Hexample]. split.
  - apply (Hgen (mkReaction "h2_assoc" [Reactions.hh_product] [Reactions.h1; Reactions.h2])).
    repeat constructor; eexists; reflexivity.
  - destruct (Hexample BalanceFirst "reaction" [Reactions.r1; Reactions.r2] [Reactions.p]
                Reactions.graphs
                (mkReaction "reaction" [Reactions.p] [Reactions.r1; Reactions.r2])
                (-0.5)%Q (-0.5)%Q (-1)%Q)
      as (v & Hv & Hzero & _).
    + vm_compute. reflexivity.
    + reflexivity.
    + reflexivity.
    + reflexivity.
    + reflexivity.
    + reflexivity.
    + exists v. split; [exact Hv | exact Hzero].
Defined.

(** The claim of C4 as worded fails on sides that are unbalanced and in
    different solvents: one construction raises one error, so one of the
    two universal statements fails there, whichever check runs first. *)
Lemma unbalanced_and_solvent_mismatch_raise_one_error :
  ~ balanced [Reactions.h1_water] [Reactions.hh_thf]
  ∧ ~ solvents_match ([Reactions.h1_water] ++ [Reactions.hh_thf])
  ∧ Reaction_init BalanceFirst "reaction" [Reactions.h1_water] [Reactions.hh_thf]
      Reactions.graphs = Raise UnbalancedReaction
  ∧ Reaction_init BalanceFirst "reaction" [Reactions.h1_water] [Reactions.hh_thf]
      Reactions.graphs <> Raise SolventsDontMatch
  ∧ Reaction_init SolventFirst "reaction" [Reactions.h1_water] [Reactions.hh_thf]
      Reactions.graphs = Raise SolventsDontMatch
  ∧ Reaction_init SolventFirst "reaction" [Reactions.h1_water] [Reactions.hh_thf]
      Reactions.graphs <> Raise UnbalancedReaction.
Proof.
  split; [by_decision |]. split; [by_decision |].
  repeat split; try (vm_compute; reflexivity); vm_compute; discriminate.
Qed.

Lemma reaction_validation_witness :
  Reaction_init BalanceFirst "reaction" [Reactions.h1] [Reactions.hh_product]
    Reactions.graphs = Raise UnbalancedReaction
  ∧ Reaction_init BalanceFirst "reaction" [Reactions.h1_water; Reactions.h2_water]
      [Reactions.hh_thf] Reactions.graphs = Raise SolventsDontMatch
  ∧ Reaction_init SolventFirst "reaction" [Reactions.h1_water] [Reactions.hh_thf]
      Reactions.graphs = Raise SolventsDontMatch
  ∧ balanced [Reactions.h1; Reactions.h2] [Reactions.hh_product].
Proof.
  split; [| split; [| split]].
  - destruct (reaction_validation BalanceFirst "reaction" [Reactions.h1]
                [Reactions.hh_product] Reactions.graphs) as (Hunbalanced & _).
    apply Hunbalanced; by_decision.
  - destruct (reaction_validation BalanceFirst "reaction"
                [Reactions.h1_water; Reactions.h2_water] [Reactions.hh_thf]
                Reactions.graphs) as (_ & Hsolvents & _).
    apply Hsolvents; by_decision.
  - destruct (reaction_validation SolventFirst "reaction" [Reactions.h1_water]
                [Reactions.hh_thf] Reactions.graphs) as (_ & _ & Hboth & _).
    apply Hboth; by_decision.
  - destruct (reaction_validation BalanceFirst "h2_assoc" [Reactions.h1; Reactions.h2]
                [Reactions.hh_product] Reactions.graphs) as (_ & _ & _ & Hvalid).
    apply (Hvalid (mkReaction "h2_assoc" [Reactions.hh_product]
                     [Reactions.h1; Reactions.h2])).
    vm_compute. reflexivity.
Defined.

(** Linear H3: the bonds 0-1 and 1-2 can break, the bond 0-2 can form. *)
Lemma forming_and_breaking_bonds_partition_witness :
  get_possible_forming_bonds Reactions.lin_h3 Reactions.graphs
  = Ok ([(0, 2)], Reactions.graphs)
  ∧ get_possible_breaking_bonds Reactions.lin_h3 Reactions.graphs
    = Ok ([(0, 1); (1, 2)], Reactions.graphs)
  ∧ exists forming breaking,
      get_possible_forming_bonds Reactions.lin_h3 Reactions.graphs
      = Ok (forming, Reactions.graphs)
      ∧ get_possible_breaking_bonds Reactions.lin_h3 Reactions.graphs
        = Ok (breaking, Reactions.graphs)
      ∧ NoDup forming.
Proof.
  split; [vm_compute; reflexivity |]. split; [vm_compute; reflexivity |].
  destruct (forming_and_breaking_bonds_partition Reactions.lin_h3 Reactions.graphs 2
              (Double.graph_of Reactions.lin_h3_geometry None) 3)
    as (forming & breaking & Hf & Hb & _ & _ & _ & Hnodup).
  - reflexivity.
  - vm_compute. reflexivity.
  - reflexivity.
  - intros a b Hab.
    change (nx_edges (Double.graph_of Reactions.lin_h3_geometry None))
      with [(0, 1); (1, 2)] in Hab.
    apply elem_of_cons in Hab as [[= -> ->] | Hab]; [lia |].
    apply list_elem_of_singleton in Hab as [= -> ->]. lia.
  - exists forming, breaking. split; [exact Hf |]. split; [exact Hb | exact Hnodup].
Defined.

(** ** The graphs of the double *)

Lemma nodes_only_edge_data (ns : list nat) (u v : nat) :
  nx_edge_data ((fun n => (n, [])) <$> ns) u v = None.
Proof.
  unfold nx_edge_data. induction ns as [| n ns IH]; [reflexivity |].
  cbn [fmap list_fmap alookup]. destruct (Nat.eqb u n); [reflexivity | exact IH].
Qed.

Lemma nodes_only_wf (ns : list nat) :
  NoDup ns -> nx_wf ((fun n => (n, [])) <$> ns).
Proof.
  intros Hnd. split.
  - rewrite <- list_fmap_compose. cbn. rewrite list_fmap_id. exact Hnd.
  - intros u v d Hd. rewrite nodes_only_edge_data in Hd. discriminate Hd.
Qed.

Lemma add_edges_wf (bs : list bond) (g : nxGraph) :
  nx_wf g -> nx_wf (foldl (fun g b => nx_add_edge b.1 b.2 ∅ g) g bs).
Proof.
  revert g. induction bs as [| b bs IH]; intros g Hwf; [exact Hwf |].
  cbn [foldl]. apply IH, nx_wf_add_edge, Hwf.
Qed.

(** The graph builder of the double keeps the invariants of
    [networkx]. *)
Lemma graph_of_wf (xs : list xyz) (n_atoms : option nat) :
  nx_wf (graph_of xs n_atoms).
Proof. apply add_edges_wf, nodes_only_wf, NoDup_seq. Qed.

(** Linear H3 with the bonds 0-2, which is no edge, and 1-0, which is the
    edge 0-1 seen from its other end: both end active, and the graph of
    the molecule, at location 2, is as before. *)
Lemma get_active_mol_graph_activates_witness :
  exists l' g',
    get_active_mol_graph Reactions.lin_h3 [(0, 2); (1, 0)] Reactions.graphs
    = Ok (l', <[l' := g']> Reactions.graphs)
    ∧ <[l' := g']> Reactions.graphs !! 2 = Reactions.graphs !! 2
    ∧ nx_edge_data g' 0 2 = Some {["active" := true]}
    ∧ nx_edge_data g' 0 1 = Some {["active" := true]}
    ∧ nx_edge_data g' 1 2 = Some ∅.
Proof.
  destruct (get_active_mol_graph_activates Reactions.lin_h3 [(0, 2); (1, 0)]
              Reactions.graphs 2 (graph_of Reactions.lin_h3_geometry None))
    as (l' & g' & Hrun & _ & _ & Hframe & _ & Hactive & Hother).
  - reflexivity.
  - vm_compute. reflexivity.
  - apply graph_of_wf.
  - exists l', g'. split; [exact Hrun |]. split; [| split; [| split]].
    + apply Hframe. vm_compute. eexists. reflexivity.
    + destruct (Hactive 0 2) as (_ & Hdata & _); [left |].
      rewrite Hdata. vm_compute. reflexivity.
    + destruct (Hactive 1 0) as (_ & Hdata & Hsym & _); [right; left |].
      rewrite Hsym, Hdata. vm_compute. reflexivity.
    + rewrite Hother.
      * vm_compute. reflexivity.
      * intros Hin. apply elem_of_cons in Hin as [[=] | Hin].
        apply list_elem_of_singleton in Hin as [=].
      * intros Hin. apply elem_of_cons in Hin as [[=] | Hin].
        apply list_elem_of_singleton in Hin as [=].
Defined.

(** The same call, evaluated: the new graph is the object at location 4,
    with the edges 0-1, 0-2 and 1-2. *)
Lemma get_active_mol_graph_lin_h3 :
  exists h',
    get_active_mol_graph Reactions.lin_h3 [(0, 2); (1, 0)] Reactions.graphs
    = Ok (4, h')
    ∧ (nx_edges <$> h' !! 4) = Some [(0, 1); (0, 2); (1, 2)]
    ∧ (nx_edges <$> h' !! 2) = Some [(0, 1); (1, 2)].
Proof.
  eexists. split; [vm_compute; reflexivity |]. split; vm_compute; reflexivity.
Qed.

(** Moving linear H3 to the trigonal geometry: the bond count goes from
    two to three with the new graph, which is a new object. *)
Lemma set_xyzs_recomputes_witness :
  exists self',
    set_xyzs Reactions.lin_h3 Reactions.trig_h3_geometry Reactions.graphs
    = Ok (self', <[4 := graph_of Reactions.trig_h3_geometry (Some 3)]> Reactions.graphs)
    ∧ n_bonds Reactions.lin_h3 = Some 2
    ∧ n_bonds self' = Some 3
    ∧ graph self' = Some 4
    ∧ xyzs self' = Some Reactions.trig_h3_geometry.
Proof.
  destruct (set_xyzs_recomputes Reactions.lin_h3 Reactions.trig_h3_geometry
              Reactions.graphs)
    as (self' & Hrun & Hxyzs & _ & Hgraph & _ & Hbonds & _).
  exists self'. split; [exact Hrun |]. split; [reflexivity |].
  split; [exact Hbonds |]. split; [exact Hgraph | exact Hxyzs].
Defined.


(** * Further cases *)

Import More.

Lemma ha2kJmol_nonzero : ~ (ha2kJmol == 0)%Q.
Proof. intros H. vm_compute in H. discriminate H. Qed.

Lemma ha2kJmol_positive : (0 < ha2kJmol)%Q.
Proof. reflexivity. Qed.

(** The four conformers 0, 0.0001, 0.001 and 0.0011 Hartree: what is
    kept is a selection of them in their order, and it starts with the
    first. *)
Lemma strip_returns_ordered_selection_witness :
  exists self' out,
    strip_non_unique_confs Cases.four_confs 1 = Ok self'
    ∧ conformers self' = Some out
    ∧ n_conformers self' = Some (length out)
    ∧ out !! 0 = Some (Cases.conf 0 0)
    ∧ out `sublist_of`
        [Cases.conf 0 0; Cases.conf 1 0.0001; Cases.conf 2 0.001; Cases.conf 3 0.0011].
Proof.
  destruct (strip_returns_ordered_selection Cases.four_confs 1 _ 4
              ha2kJmol_nonzero eq_refl eq_refl)
    as (self' & out & Hrun & Hconfs & Hn & Hfirst & Hsub & _).
  - cbn. lia.
  - cbn. lia.
  - intros i c Hi Hc.
    do 4 (destruct i as [| i]; [injection Hc as <-; eexists; reflexivity |]).
    lia.
  - exists self', out. split; [exact Hrun |]. split; [exact Hconfs |].
    split; [exact Hn |]. split; [exact Hfirst | exact Hsub].
Defined.

(** Two conformers straight from [generate_conformers], energies not
    yet assigned. *)
Lemma strip_needs_every_energy_witness :
  strip_non_unique_confs unoptimised 1 = Raise TypeError.
Proof.
  destruct (strip_needs_every_energy unoptimised 1 _ 2
              ha2kJmol_nonzero eq_refl eq_refl) as [_ Hraise].
  - cbn. lia.
  - cbn. lia.
  - apply Hraise; [lia |].
    exists 0, (new_Conformer "mol_conf0" [H_at 0] None 0 2).
    split; [lia |]. split; reflexivity.
Defined.


(** Two conformers of one energy and a threshold of zero: both stay. *)
Lemma strip_nonpositive_threshold_keeps_all_witness :
  exists self',
    strip_non_unique_confs two_equal 0 = Ok self'
    ∧ conformers self' = Some [Cases.conf 0 1; Cases.conf 1 1]
    ∧ n_conformers self' = Some 2.
Proof.
  apply (strip_nonpositive_threshold_keeps_all two_equal 0
           [Cases.conf 0 1; Cases.conf 1 1] 2 ha2kJmol_positive).
  - vm_compute. discriminate.
  - reflexivity.
  - reflexivity.
  - lia.
  - cbn. lia.
  - intros i c Hi Hc.
    do 2 (destruct i as [| i]; [injection Hc as <-; eexists; reflexivity |]).
    lia.
Defined.

(** A count of three on a list of two conformers. *)
Lemma strip_unready_molecule_raises_witness :
  strip_non_unique_confs stale_count 1 = Raise IndexError.
Proof.
  destruct (strip_unready_molecule_raises stale_count 1 ha2kJmol_nonzero)
    as (_ & _ & _ & Hstale).
  apply (Hstale [Cases.conf 0 1; Cases.conf 1 1] 3); [reflexivity | cbn; lia | reflexivity | cbn; lia |].
  intros c Hc. apply elem_of_cons in Hc as [-> | Hc]; [eexists; reflexivity |].
  apply list_elem_of_singleton in Hc as ->. eexists; reflexivity.
Defined.

(** [_init_smiles] on the blank molecule of
    [Molecule(name='h2', smiles='[H][H]')]. *)
Lemma init_smiles_result_is_consistent_witness :
  exists self' h' l g,
    _init_smiles (blank_molecule "h2" (Some "[H][H]") None None 0 1) "h2" "[H][H]" ∅
    = Ok (self', h')
    ∧ h' = <[l := g]> ∅
    ∧ graph self' = Some l
    ∧ g = graph_of [H_at 0; H_at 0.7] (Some 2)
    ∧ n_bonds self' = Some (nx_number_of_edges g)
    ∧ charge self' = 0%Z.
Proof.
  destruct (_init_smiles (blank_molecule "h2" (Some "[H][H]") None None 0 1)
              "h2" "[H][H]" ∅) as [[self' h'] | e |] eqn:Hrun;
    [| vm_compute in Hrun; discriminate Hrun ..].
  destruct (init_smiles_result_is_consistent _ _ _ _ _ _ Hrun)
    as (mol & geometry & l & g & Hmol & _ & Hh' & Hgraph & Hxyzs & Hg & _ & Hbonds
        & _ & _ & Hcharge & _).
  exists self', h', l, g. split; [reflexivity |]. split; [exact Hh' |].
  split; [exact Hgraph |]. split; [| split; [exact Hbonds |]].
  - vm_compute in Hmol. injection Hmol as <-.
    vm_compute in Hrun. injection Hrun as <- <-.
    injection Hxyzs as <-. exact Hg.
  - rewrite Hcharge. vm_compute in Hmol. injection Hmol as <-. reflexivity.
Defined.

(** Li2 with a geometry check that rejects the embedding: rdkit counts
    one bond, the graph of the annealed geometry has none, and the
    molecule is returned with no bond. *)
Lemma init_smiles_unreasonable_embedding_witness :
  exists self',
    @_init_smiles rdkit autode_rejecting Cases.li2_blank "li2" "[Li][Li]" ∅
    = Ok (self', {[0 := graph_of [Li_at 0; Li_at 2.67] (Some 2)]})
    ∧ rdkit_conf_gen_is_fine self' = false
    ∧ n_bonds self' = Some 0
    ∧ (length ∘ GetBonds <$> mol_obj self') = Some 1.
Proof.
  destruct (@init_smiles_unreasonable_embedding rdkit autode_rejecting
              Cases.li2_blank "li2" "[Li][Li]" ∅
              (mkMol ["Li"; "Li"] [(0, 1)] 0 [Li_at 0; Li_at 2.67] [])
              [Li_at 0; Li_at 2.67] [] eq_refl eq_refl eq_refl) as [_ Hreturns].
  destruct (Hreturns [Li_at 0; Li_at 2.67] [] eq_refl)
    as (self' & Hrun & Hfine & _ & _ & Hbonds & _).
  exists self'. split; [exact Hrun |]. split; [exact Hfine |].
  split; [exact Hbonds |].
  vm_compute in Hrun. injection Hrun as <-. reflexivity.
Defined.

(** A SMILES string the double of rdkit rejects. *)
Lemma init_smiles_rdkit_failure_witness :
  _init_smiles (blank_molecule "c" (Some "C") None None 0 1) "c" "C" ∅ = Exit.
Proof.
  destruct (init_smiles_rdkit_failure (blank_molecule "c" (Some "C") None None 0 1)
              "c" "C" ∅) as [Hexit _].
  apply Hexit. reflexivity.
Defined.

(** [Molecule(name='m', smiles='', xyzs=[])] *)
Lemma init_without_input_is_blank_witness :
  exists self,
    __init__ "m" (Some "") (Some []) None 0 1 ∅ = Ok (self, ∅)
    ∧ graph self = None
    ∧ get_possible_breaking_bonds self ∅ = Raise AttributeError
    ∧ get_atom_label self 0 = Raise IndexError.
Proof.
  destruct (init_without_input_is_blank "m" (Some "") (Some []) None 0 1 ∅)
    as (self & Hrun & _ & Hgraph & _ & _ & _ & _ & Hbreaking & _ & _ & _ & _ & Hlabel & _).
  - right. reflexivity.
  - right. reflexivity.
  - exists self. split; [exact Hrun |]. split; [exact Hgraph |].
    split; [exact Hbreaking | exact (Hlabel 0)].
Defined.

(** [Molecule(name='hh', xyzs=...)] for two hydrogen atoms 0.7 apart. *)
Lemma init_from_xyzs_witness :
  exists self,
    __init__ "hh" None (Some [H_at 0; H_at 0.7]) None 0 1 ∅
    = Ok (self, {[0 := graph_of [H_at 0; H_at 0.7] (Some 2)]})
    ∧ n_atoms self = Some 2
    ∧ n_bonds self = Some 1
    ∧ graph self = Some 0
    ∧ mol_obj self = None.
Proof.
  destruct (init_from_xyzs "hh" None (H_at 0) [H_at 0.7] None 0 1 ∅)
    as (self & Hrun & _ & Hatoms & Hbonds & Hgraph & _ & _ & Hmol & _).
  - left. reflexivity.
  - exists self. split; [exact Hrun |]. split; [exact Hatoms |].
    split; [exact Hbonds |]. split; [exact Hgraph | exact Hmol].
Defined.

(** [Molecule(name='h2', smiles='[H][H]', xyzs=...)] with the
    coordinates of three atoms: the geometry kept is the embedded one,
    of two atoms, with an atom count of three. *)
Lemma init_from_smiles_and_xyzs_witness :
  exists self h',
    __init__ "h2" (Some "[H][H]") (Some Reactions.lin_h3_geometry) None 0 1 ∅
    = Ok (self, h')
    ∧ xyzs self = Some [H_at 0; H_at 0.7]
    ∧ n_atoms self = Some 3
    ∧ n_bonds self = Some 2
    ∧ graph self = Some 1.
Proof.
  destruct (_init_smiles
              (blank_molecule "h2" (Some "[H][H]") (Some Reactions.lin_h3_geometry)
                 None 0 1) "h2" "[H][H]" ∅) as [[self1 h1] | e |] eqn:Hrun;
    [| vm_compute in Hrun; discriminate Hrun ..].
  destruct (init_from_smiles_and_xyzs "h2" _ _ (H_at 0)
              [H_at 0.7; H_at 1.4] None 0 1 ∅ h1 self1 Hrun)
    as (embedded & self2 & Hxyzs1 & Hinit & Hxyzs2 & Hgraph & _ & Hatoms & Hbonds & _).
  vm_compute in Hrun. injection Hrun as <- <-.
  injection Hxyzs1 as <-.
  eexists self2, _. split; [exact Hinit |]. split; [exact Hxyzs2 |].
  split; [exact Hatoms |]. split; [exact Hbonds | exact Hgraph].
Defined.

(** The middle atom of linear H3 is bonded to both ends. *)
Lemma bonded_atoms_are_the_neighbours_witness :
  exists bonded,
    get_bonded_atoms_to_i Reactions.lin_h3 1 Reactions.graphs
    = Ok (bonded, Reactions.graphs)
    ∧ 0 ∈ bonded ∧ 2 ∈ bonded ∧ 1 ∉ bonded.
Proof.
  destruct (bonded_atoms_are_the_neighbours Reactions.lin_h3 Reactions.graphs 2
              (graph_of Reactions.lin_h3_geometry None) 1 eq_refl eq_refl
              (graph_of_wf _ _))
    as (bonded & Hrun & Hdata & _).
  exists bonded. split; [exact Hrun |].
  split; [| split].
  - apply Hdata. vm_compute. eexists; reflexivity.
  - apply Hdata. vm_compute. eexists; reflexivity.
  - intros Hin. apply Hdata in Hin. vm_compute in Hin.
    destruct Hin as [x Hx]. discriminate Hx.
Defined.

(** The two conformers generated for H2. *)
Lemma generated_conformer_names_are_distinct_witness :
  exists self',
    generate_conformers Cases.h2 300 = Ok self'
    ∧ (conf_name <$> default [] (conformers self')) = ["h2_conf0"; "h2_conf1"]
    ∧ NoDup (conf_name <$> default [] (conformers self')).
Proof.
  destruct (generate_conformers Cases.h2 300) as [self' | e |] eqn:Hrun;
    [| vm_compute in Hrun; discriminate Hrun ..].
  destruct (conformers self') as [confs |] eqn:Hconfs.
  - destruct (generated_conformer_names_are_distinct Cases.h2 self' 300 confs Hrun Hconfs)
      as (Hnodup & _ & _).
    exists self'. split; [reflexivity |]. rewrite Hconfs. split; [| exact Hnodup].
    vm_compute in Hrun. injection Hrun as <-.
    vm_compute in Hconfs. injection Hconfs as <-. vm_compute. reflexivity.
  - vm_compute in Hrun. injection Hrun as <-. vm_compute in Hconfs. discriminate Hconfs.
Defined.

(** Linear H3 with the active bonds 0-2 and 1-0, named in two ways. *)
Lemma active_graph_ignores_order_and_orientation_witness :
  exists l' g1 g2,
    get_active_mol_graph Reactions.lin_h3 [(0, 2); (1, 0)] Reactions.graphs
    = Ok (l', <[l' := g1]> Reactions.graphs)
    ∧ get_active_mol_graph Reactions.lin_h3 [(0, 1); (2, 0); (0, 2)] Reactions.graphs
      = Ok (l', <[l' := g2]> Reactions.graphs)
    ∧ (forall x y, nx_edge_data g1 x y = nx_edge_data g2 x y).
Proof.
  destruct (active_graph_ignores_order_and_orientation Reactions.lin_h3
              [(0, 2); (1, 0)] [(0, 1); (2, 0); (0, 2)] Reactions.graphs 2
              (graph_of Reactions.lin_h3_geometry None) eq_refl eq_refl
              (graph_of_wf _ _))
    as (l' & g1 & g2 & Hrun1 & Hrun2 & Hsame & _).
  - intros x y. rewrite !elem_of_cons, !elem_of_nil. split.
    + intros [[[= -> ->] | [[= -> ->] | []]] | [[= -> ->] | [[= -> ->] | []]]]; tauto.
    + intros [[[= -> ->] | [[= -> ->] | [[= -> ->] | []]]]
             | [[= -> ->] | [[= -> ->] | [[= -> ->] | []]]]]; tauto.
  - exists l', g1, g2. split; [exact Hrun1 |]. split; [exact Hrun2 | exact Hsame].
Defined.

(** Another variable in the environment changes nothing. *)
Lemma get_log_level_default_is_critical_witness :
  get_log_level (<["HOME" := "/root"]> {["AUTODE_LOG_LEVEL" := "INFO"]}) = logging_INFO
  ∧ get_log_level {["AUTODE_LOG_LEVEL" := "info"]} = logging_CRITICAL.
Proof.
  split.
  - destruct (get_log_level_default_is_critical {["AUTODE_LOG_LEVEL" := "INFO"]})
      as (_ & _ & _ & _ & _ & Hother).
    rewrite (Hother "HOME" "/root"); [reflexivity | discriminate].
  - destruct (get_log_level_default_is_critical {["AUTODE_LOG_LEVEL" := "info"]})
      as (Hiff & _).
    destruct (decide (get_log_level {["AUTODE_LOG_LEVEL" := "info"]} = logging_CRITICAL))
      as [Heq | Hne]; [exact Heq |].
    apply Hiff in Hne. vm_compute in Hne.
    destruct Hne as [Hne | [Hne | Hne]]; discriminate Hne.
Defined.

(** Linear H3 has no rdkit mol object, so no conformer is generated. *)
Lemma find_lowest_never_takes_min_of_nothing_witness :
  find_lowest_energy_conformer Reactions.lin_h3 Reactions.graphs
  = Outcome (Raise IndexError).
Proof.
  destruct (find_lowest_never_takes_min_of_nothing Reactions.lin_h3 Reactions.graphs)
    as [_ Hempty].
  destruct (generate_conformers Reactions.lin_h3 300) as [self_g | e |] eqn:Hrun;
    [| vm_compute in Hrun; discriminate Hrun ..].
  apply (Hempty self_g ha2kJmol_nonzero eq_refl).
  vm_compute in Hrun. injection Hrun as <-. reflexivity.
Defined.

(** H2 with its two generated conformers, the embedded geometry and the
    stretched one: the molecule takes the first. *)
Lemma find_lowest_selects_a_minimum_witness :
  exists self' h',
    find_lowest_energy_conformer Cases.h2 {[0 := graph_of [H_at 0; H_at 0.7] (Some 2)]}
    = Outcome (Ok (self', h'))
    ∧ xyzs self' = Some [H_at 0; H_at 0.7]
    ∧ energy self' = Some 0.7%Q
    ∧ graph self' = Some 1
    ∧ n_conformers self' = Some 2.
Proof.
  destruct (find_lowest_energy_conformer Cases.h2
              {[0 := graph_of [H_at 0; H_at 0.7] (Some 2)]})
    as [[[self' h'] | e |] |] eqn:Hrun;
    [| vm_compute in Hrun; discriminate Hrun ..].
  destruct (find_lowest_selects_a_minimum Cases.h2 self' _ h' Hrun)
    as (confs & c & _ & _ & _ & _ & _ & Hgraph & _).
  exists self', h'. split; [reflexivity |].
  vm_compute in Hrun. injection Hrun as <- <-.
  split; [reflexivity |]. split; [reflexivity |]. split; [exact Hgraph |].
  reflexivity.
Defined.

(** Linear H3 under the stand-in engine. *)
Lemma calculations_update_the_molecule_witness :
  exists self',
    optimise Reactions.lin_h3 ORCA Reactions.graphs
    = Ok (self', <[4 := graph_of Reactions.lin_h3_geometry (Some 3)]> Reactions.graphs)
    ∧ energy self' = Some 2.1%Q
    ∧ graph self' = Some 4
    ∧ Reactions.graphs !! 2 = Some (graph_of Reactions.lin_h3_geometry None)
    ∧ energy (single_point Reactions.lin_h3 XTB) = Some 2.1%Q.
Proof.
  destruct (calculations_update_the_molecule Reactions.lin_h3 ORCA Reactions.graphs)
    as [_ (self' & Hrun & Henergy & _ & Hgraph & _)].
  destruct (calculations_update_the_molecule Reactions.lin_h3 XTB Reactions.graphs)
    as [(Hsp & _) _].
  exists self'. split; [exact Hrun |]. split; [rewrite Henergy; reflexivity |].
  split; [exact Hgraph |]. split; [reflexivity |]. rewrite Hsp. reflexivity.
Defined.
